(** * rcfdtdpy: the [Field] grid and the [Sim] time-stepping driver

    A shallow embedding of [sim.py].

    Numbers are IEEE-754 binary64 values (numpy's [float64], Python's
    [float]), modelled by Rocq's primitive floats; the numeric arguments of
    the [Sim] constructor are taken to be Python floats, so that [/] raises
    [ZeroDivisionError] on a zero divisor and is the IEEE quotient
    otherwise.  Time and space indices and the two dimensions are Python
    integers, modelled by [Z].

    A numpy array of two axes is a list of rows together with its shape; an
    index is normalised as numpy does: a negative index counts from the
    end, anything else out of range raises [IndexError], or
    [OverflowError] when the index does not fit a signed 64-bit integer
    (the index type of numpy on a 64-bit platform).  [np.zeros] refuses a
    shape with a negative dimension or of more bytes than a signed 64-bit
    integer counts; for a shape it accepts, the allocation is taken to
    succeed: a [MemoryError] depends on the machine and is not modelled.

    Methods that mutate [self] are computations in a state-and-exception
    monad: when a method raises, the state is the one reached at the
    [raise].  The progress bar around the loop of [simulate] and the
    printing of the coefficients in the constructor do not touch the
    state and are left out. *)

From Stdlib Require Import ZArith Lia Bool Floats.
From stdpp Require Import base list.

Open Scope Z_scope.

(** ** Exceptions and the state-and-exception monad *)

Inductive exn : Type :=
  IndexError | ValueError | ZeroDivisionError | OverflowError.

Inductive result (A : Type) : Type :=
| Ok (a : A)
| Raise (e : exn).
Arguments Ok {A} a.
Arguments Raise {A} e.

Definition rbind {A B} (r : result A) (k : A -> result B) : result B :=
  match r with
  | Ok a => k a
  | Raise e => Raise e
  end.

Definition M (S A : Type) : Type := S -> result A * S.

Definition ret {S A} (a : A) : M S A := fun s => (Ok a, s).

Definition raise {S A} (e : exn) : M S A := fun s => (Raise e, s).

Definition bind {S A B} (m : M S A) (k : A -> M S B) : M S B :=
  fun s => match m s with
           | (Ok a, s') => k a s'
           | (Raise e, s') => (Raise e, s')
           end.

Definition get {S} : M S S := fun s => (Ok s, s).

Definition put {S} (s : S) : M S unit := fun _ => (Ok tt, s).

Definition lift {S A} (r : result A) : M S A := fun s => (r, s).

Declare Scope py_scope.
Delimit Scope py_scope with py.
Notation "x <- m ;; k" := (bind m (fun x => k))
  (at level 100, m at next level, right associativity) : py_scope.
Notation "m ;; k" := (bind m (fun _ => k))
  (at level 100, right associativity) : py_scope.
Notation "x <-r m ;; k" := (rbind m (fun x => k))
  (at level 100, m at next level, right associativity) : py_scope.
Open Scope py_scope.

(** [for x in l: body x] *)
Fixpoint mfor {S A} (l : list A) (body : A -> M S unit) : M S unit :=
  match l with
  | [] => ret tt
  | x :: l' => body x ;; mfor l' body
  end.

(** [for i in range(n): body i] *)
Definition for_range {S} (n : Z) (body : Z -> M S unit) : M S unit :=
  mfor (seqZ 0 n) body.

(** Python's [x / y] on floats: a zero divisor raises, anything else is the
    IEEE quotient. *)
Definition py_div (x y : float) : result float :=
  if (y =? 0)%float then Raise ZeroDivisionError else Ok (x / y)%float.

(** [x == 0] on floats: true of both signed zeros. *)
Definition is_zero (x : float) : Prop := (x =? 0)%float = true.

(** A float that is neither an infinity nor a NaN. *)
Definition finite (x : float) : Prop :=
  match Prim2SF x with
  | S754_zero _ | S754_finite _ _ _ => True
  | S754_infinity _ | S754_nan => False
  end.

(** ** numpy arrays of two axes *)

Module np.

Record ndarray : Type := mk {
  shape0 : nat;
  shape1 : nat;
  data : list (list float)
}.

(** The rows agree with the shape. *)
Definition wf (a : ndarray) : Prop :=
  length (data a) = shape0 a /\ Forall (fun r => length r = shape1 a) (data a).

(** The largest signed 64-bit integer: the largest array index, dimension
    and byte count of numpy. *)
Definition max_intp : Z := 9223372036854775807.

(** The byte count numpy computes for a shape before it allocates: the
    item size of [float64] times the dimensions, a dimension of zero
    being skipped. *)
Definition nbytes (n m : Z) : Z :=
  8 * (if n =? 0 then 1 else n) * (if m =? 0 then 1 else m).

(** The shapes [np.zeros] accepts: no dimension is negative and the byte
    count fits; any other shape is a [ValueError]. *)
Definition shape_ok (n m : Z) : bool :=
  (0 <=? n) && (0 <=? m) && (nbytes n m <=? max_intp).

(** [np.zeros((n, m), dtype=np.float64)], for a shape it accepts. *)
Definition zeros (n m : nat) : ndarray :=
  mk n m (replicate n (replicate m 0%float)).

(** An index that fits a signed 64-bit integer. *)
Definition fits (k : Z) : bool := (- max_intp - 1 <=? k) && (k <=? max_intp).

(** What numpy raises for an index outside its axis: an index that does
    not fit is an [OverflowError], raised when the indices are converted,
    before any is checked against its axis; an index that fits is an
    [IndexError]. *)
Definition refusal (k : Z) : exn :=
  if fits k then IndexError else OverflowError.

Definition refusal2 (n i : Z) : exn :=
  if fits n && fits i then IndexError else OverflowError.

(** Normalisation of an index along an axis of length [len].  An axis is
    shorter than [2^63], so that an index within its axis fits, and of two
    indices only those outside their axes decide the exception. *)
Definition index (len : nat) (k : Z) : option nat :=
  if (0 <=? k) && (k <? Z.of_nat len) then Some (Z.to_nat k)
  else if (- Z.of_nat len <=? k) && (k <? 0) then Some (Z.to_nat (Z.of_nat len + k))
  else None.

(** [a[n]] *)
Definition getrow (a : ndarray) (n : Z) : result (list float) :=
  match index (shape0 a) n with
  | Some r =>
      match data a !! r with
      | Some row => Ok row
      | None => Raise IndexError
      end
  | None => Raise (refusal n)
  end.

(** [a[n, i]] *)
Definition getitem (a : ndarray) (n i : Z) : result float :=
  match index (shape0 a) n, index (shape1 a) i with
  | Some r, Some c =>
      match data a !! r with
      | Some row =>
          match row !! c with
          | Some x => Ok x
          | None => Raise IndexError
          end
      | None => Raise IndexError
      end
  | Some _, None => Raise (refusal i)
  | None, Some _ => Raise (refusal n)
  | None, None => Raise (refusal2 n i)
  end.

(** [a[n, i] = v] *)
Definition setitem (a : ndarray) (n i : Z) (v : float) : result ndarray :=
  match index (shape0 a) n, index (shape1 a) i with
  | Some r, Some c =>
      Ok (mk (shape0 a) (shape1 a) (alter (fun row => <[c := v]> row) r (data a)))
  | Some _, None => Raise (refusal i)
  | None, Some _ => Raise (refusal n)
  | None, None => Raise (refusal2 n i)
  end.

(** [a[n] = row]: a row of the axis' length is stored as it is, a row of
    one element is broadcast, any other length is a [ValueError]. *)
Definition setrow (a : ndarray) (n : Z) (row : list float) : result ndarray :=
  match index (shape0 a) n with
  | Some r =>
      if (length row =? shape1 a)%nat then
        Ok (mk (shape0 a) (shape1 a) (<[r := row]> (data a)))
      else
        match row with
        | [x] => Ok (mk (shape0 a) (shape1 a) (<[r := replicate (shape1 a) x]> (data a)))
        | _ => Raise ValueError
        end
  | None => Raise (refusal n)
  end.

(** The cell at row [r], column [c] (zero where the data has none). *)
Definition cell (a : ndarray) (r c : nat) : float :=
  default 0%float (data a !! r ≫= fun row => row !! c).

End np.

(** ** class Field *)

Module Field.

Record t : Type := mk {
  _n : Z;
  _num_n : Z;
  _num_i : Z;
  _field : np.ndarray
}.

Definition with_n (n : Z) (self : t) : t :=
  mk n (_num_n self) (_num_i self) (_field self).

Definition with_field (a : np.ndarray) (self : t) : t :=
  mk (_n self) (_num_n self) (_num_i self) a.

(** [Field(num_n, num_i, field)].  Without a buffer the grid is
    [np.zeros((num_n, num_i))], which raises [ValueError] for a shape it
    does not accept.  A buffer is a [float64] array of two axes and of
    more than one cell, which [np.float64] returns as it is. *)
Definition __init__ (num_n num_i : Z) (field : option np.ndarray) : result t :=
  match field with
  | None =>
      if negb (np.shape_ok num_n num_i) then Raise ValueError
      else Ok (mk 0 num_n num_i (np.zeros (Z.to_nat num_n) (Z.to_nat num_i)))
  | Some a =>
      Ok (mk 0 (Z.of_nat (np.shape0 a)) (Z.of_nat (np.shape1 a)) a)
  end.

Definition get_time_index : M t Z :=
  self <- get ;; ret (_n self).

Definition set_time_index (n : Z) : M t unit :=
  self <- get ;;
  if (n <? 0) || (n >=? _num_n self) then raise IndexError
  else put (with_n n self).

(** [get_field(n=-1)] *)
Definition get_field (n : Z) : M t (list float) :=
  self <- get ;;
  if n =? -1 then lift (np.getrow (_field self) (_n self))
  else if (n <? 0) || (n >=? _num_n self) then raise IndexError
  else lift (np.getrow (_field self) n).

Definition get_index (i : Z) : M t float :=
  self <- get ;;
  if (i <? 0) || (i >=? _num_i self) then ret 0%float
  else lift (np.getitem (_field self) (_n self) i).

Definition __getitem__ (key : Z) : M t float := get_index key.

Definition set_index (i : Z) (value : float) : M t unit :=
  self <- get ;;
  a <- lift (np.setitem (_field self) (_n self) i value) ;;
  put (with_field a self).

Definition __setitem__ (key : Z) (value : float) : M t unit := set_index key value.

(** [set_field(nfield, n=-1)] *)
Definition set_field (nfield : list float) (n : Z) : M t unit :=
  self <- get ;;
  if negb (Z.of_nat (length nfield) =? _num_i self) then raise ValueError
  else if n =? -1 then
    a <- lift (np.setrow (_field self) (_n self) nfield) ;;
    put (with_field a self)
  else if (n <? 0) || (n >=? _num_n self) then raise IndexError
  else
    a <- lift (np.setrow (_field self) n nfield) ;;
    put (with_field a self).

Definition iterate : M t unit :=
  self <- get ;;
  if _n self + 1 >=? _num_n self then raise IndexError
  else
    row <- lift (np.getrow (_field self) (_n self)) ;;
    a <- lift (np.setrow (_field self) (_n self + 1) row) ;;
    put (with_n (_n self + 1) (with_field a self)).

Definition export : M t np.ndarray :=
  self <- get ;; ret (_field self).

End Field.

(** ** class Sim *)

Module Sim.

Record t : Type := mk {
  _vacuum_permittivity : float;
  _infinity_permittivity : float;
  _vacuum_permeability : float;
  _delta_t : float;
  _delta_z : float;
  _cfield : Field.t;
  _susceptibility : float;
  _initial_susceptibility : float;
  _num_n : Z;
  _num_i : Z;
  _efield : Field.t;
  _hfield : Field.t;
  _e_calc_term1_prop_coeff : float;
  _e_calc_term2_prop_coeff : float;
  _e_calc_term3_prop_coeff : float;
  _e_calc_term4_prop_coeff : float;
  _h_calc_term2_prop_coeff : float
}.

Definition with_efield (f : Field.t) (self : t) : t :=
  mk (_vacuum_permittivity self) (_infinity_permittivity self)
     (_vacuum_permeability self) (_delta_t self) (_delta_z self)
     (_cfield self) (_susceptibility self) (_initial_susceptibility self)
     (_num_n self) (_num_i self) f (_hfield self)
     (_e_calc_term1_prop_coeff self) (_e_calc_term2_prop_coeff self)
     (_e_calc_term3_prop_coeff self) (_e_calc_term4_prop_coeff self)
     (_h_calc_term2_prop_coeff self).

Definition with_hfield (f : Field.t) (self : t) : t :=
  mk (_vacuum_permittivity self) (_infinity_permittivity self)
     (_vacuum_permeability self) (_delta_t self) (_delta_z self)
     (_cfield self) (_susceptibility self) (_initial_susceptibility self)
     (_num_n self) (_num_i self) (_efield self) f
     (_e_calc_term1_prop_coeff self) (_e_calc_term2_prop_coeff self)
     (_e_calc_term3_prop_coeff self) (_e_calc_term4_prop_coeff self)
     (_h_calc_term2_prop_coeff self).

Definition with_cfield (f : Field.t) (self : t) : t :=
  mk (_vacuum_permittivity self) (_infinity_permittivity self)
     (_vacuum_permeability self) (_delta_t self) (_delta_z self)
     f (_susceptibility self) (_initial_susceptibility self)
     (_num_n self) (_num_i self) (_efield self) (_hfield self)
     (_e_calc_term1_prop_coeff self) (_e_calc_term2_prop_coeff self)
     (_e_calc_term3_prop_coeff self) (_e_calc_term4_prop_coeff self)
     (_h_calc_term2_prop_coeff self).

(** A method call on one of the three fields the simulation holds. *)
Definition on_efield {A} (m : M Field.t A) : M t A :=
  fun self => let (r, f) := m (_efield self) in (r, with_efield f self).

Definition on_hfield {A} (m : M Field.t A) : M t A :=
  fun self => let (r, f) := m (_hfield self) in (r, with_hfield f self).

Definition on_cfield {A} (m : M Field.t A) : M t A :=
  fun self => let (r, f) := m (_cfield self) in (r, with_cfield f self).

(** [Sim(...)]: the two fields are allocated first, then the five
    proportionality coefficients are computed, in the order of the
    source.  The printing of the coefficients has no effect on the
    state. *)
Definition __init__
    (vacuum_permittivity infinity_permittivity vacuum_permeability
     delta_t delta_z : float)
    (num_n num_i : Z) (current_field : Field.t)
    (susceptibility initial_susceptibility : float) : result t :=
  efield <-r Field.__init__ num_n num_i None ;;
  hfield <-r Field.__init__ num_n num_i None ;;
  c1 <-r py_div infinity_permittivity
           (infinity_permittivity + initial_susceptibility)%float ;;
  c2 <-r py_div 1%float (infinity_permittivity + initial_susceptibility)%float ;;
  c3 <-r py_div delta_t
           (vacuum_permittivity * delta_z
            * (infinity_permittivity + initial_susceptibility))%float ;;
  c4 <-r py_div delta_t
           (vacuum_permittivity
            * (infinity_permittivity + initial_susceptibility))%float ;;
  ch <-r py_div delta_t (vacuum_permeability * delta_z)%float ;;
  Ok (mk vacuum_permittivity infinity_permittivity vacuum_permeability
         delta_t delta_z current_field susceptibility initial_susceptibility
         num_n num_i efield hfield c1 c2 c3 c4 ch).

(** [psi()]: not implemented in the source, returns zero. *)
Definition psi : M t float := ret 0%float.

Definition _current (i : Z) : M t float :=
  on_cfield (Field.__getitem__ i).

(** The body of the loop of [_calc_efield], at spatial index [i]. *)
Definition _calc_efield_body (i : Z) : M t unit :=
  self <- get ;;
  e <- on_efield (Field.__getitem__ i) ;;
  let term1 := (_e_calc_term1_prop_coeff self * e)%float in
  p <- psi ;;
  let term2 := (_e_calc_term2_prop_coeff self * p)%float in
  h1 <- on_hfield (Field.__getitem__ i) ;;
  h0 <- on_hfield (Field.__getitem__ (i - 1)) ;;
  let term3 := (_e_calc_term3_prop_coeff self * (h1 - h0))%float in
  j <- _current i ;;
  let term4 := (_e_calc_term4_prop_coeff self * j)%float in
  on_efield (Field.__setitem__ i (term1 + term2 - term3 - term4)%float).

Definition _calc_efield : M t unit :=
  self <- get ;;
  for_range (_num_i self) _calc_efield_body.

(** The body of the loop of [_calc_hfield], at spatial index [i]. *)
Definition _calc_hfield_body (i : Z) : M t unit :=
  self <- get ;;
  term1 <- on_hfield (Field.__getitem__ i) ;;
  e1 <- on_efield (Field.__getitem__ (i + 1)) ;;
  e0 <- on_efield (Field.__getitem__ i) ;;
  let term2 := (_h_calc_term2_prop_coeff self * (e1 - e0))%float in
  on_hfield (Field.__setitem__ i (term1 - term2)%float).

Definition _calc_hfield : M t unit :=
  self <- get ;;
  for_range (_num_i self) _calc_hfield_body.

Definition _iterate_cfield : M t unit :=
  prior_time <- on_cfield Field.get_time_index ;;
  on_cfield (Field.set_time_index (prior_time + 1)).

(** The body of the loop of [simulate]: one time step. *)
Definition simulate_body (j : Z) : M t unit :=
  _calc_hfield ;;
  _calc_efield ;;
  on_hfield Field.iterate ;;
  on_efield Field.iterate ;;
  _iterate_cfield.

Definition simulate : M t unit :=
  on_efield (Field.set_time_index 0) ;;
  on_hfield (Field.set_time_index 0) ;;
  on_cfield (Field.set_time_index 0) ;;
  self <- get ;;
  for_range (_num_n self - 1) simulate_body.

(** The accessors. *)
Definition get_vacuum_permittivity : M t float :=
  self <- get ;; ret (_vacuum_permittivity self).

Definition get_infinity_permittivity : M t float :=
  self <- get ;; ret (_infinity_permittivity self).

Definition get_vacuum_permeability : M t float :=
  self <- get ;; ret (_vacuum_permeability self).

Definition get_delta_t : M t float :=
  self <- get ;; ret (_delta_t self).

Definition get_delta_z : M t float :=
  self <- get ;; ret (_delta_z self).

Definition get_num_n : M t Z :=
  self <- get ;; ret (_num_n self).

Definition get_num_i : M t Z :=
  self <- get ;; ret (_num_i self).

Definition get_efield : M t Field.t :=
  self <- get ;; ret (_efield self).

Definition get_hfield : M t Field.t :=
  self <- get ;; ret (_hfield self).

Definition get_cfield : M t Field.t :=
  self <- get ;; ret (_cfield self).

End Sim.

(** ** Pure readings of a grid, used to state what the methods do *)

Module FieldSpec.
Import Field.

(** The shape fields agree with the buffer. *)
Definition wf (f : t) : Prop :=
  np.wf (_field f)
  /\ _num_n f = Z.of_nat (np.shape0 (_field f))
  /\ _num_i f = Z.of_nat (np.shape1 (_field f)).

(** What every grid satisfies from its construction on: the shape fields
    agree with the buffer, and the cursor addresses a row, or stands at 0
    on a grid that has no row. *)
Definition inv (f : t) : Prop :=
  wf f /\ 0 <= _n f /\ (_n f < _num_n f \/ _n f = 0).

(** A grid whose cursor addresses one of its rows. *)
Definition live (f : t) : Prop := wf f /\ 0 <= _n f < _num_n f.

(** The row under the cursor. *)
Definition cur_row (f : t) : list float :=
  default [] (np.data (_field f) !! Z.to_nat (_n f)).

(** What [get_index] reads: zero outside [0, num_i). *)
Definition value (f : t) (i : Z) : float :=
  if (i <? 0) || (i >=? _num_i f) then 0%float
  else default 0%float (cur_row f !! Z.to_nat i).

(** The grid with row [r] replaced. *)
Definition with_row (r : nat) (row : list float) (f : t) : t :=
  with_field (np.mk (np.shape0 (_field f)) (np.shape1 (_field f))
                    (<[r := row]> (np.data (_field f)))) f.

Definition with_cur_row (row : list float) (f : t) : t :=
  with_row (Z.to_nat (_n f)) row f.

(** What a successful [iterate] leaves. *)
Definition advance (f : t) : t :=
  with_n (_n f + 1) (with_row (Z.to_nat (_n f + 1)) (cur_row f) f).

(** [f'] is [f] with the row under the cursor copied into the next row
    and the cursor moved onto that row; no other row, and neither
    dimension, has changed. *)
Definition copied_forward (f f' : t) : Prop :=
  exists row,
    np.data (_field f) !! Z.to_nat (_n f) = Some row
    /\ np.data (_field f') !! Z.to_nat (_n f) = Some row
    /\ np.data (_field f') !! Z.to_nat (_n f + 1) = Some row
    /\ (forall r, r <> Z.to_nat (_n f + 1) ->
          np.data (_field f') !! r = np.data (_field f) !! r)
    /\ _n f' = _n f + 1
    /\ _num_n f' = _num_n f /\ _num_i f' = _num_i f
    /\ np.shape0 (_field f') = np.shape0 (_field f)
    /\ np.shape1 (_field f') = np.shape1 (_field f).

(** A row whose first [k] cells hold [g 0 .. g (k-1)], the others as in [old]. *)
Definition new_row (g : Z -> float) (k : nat) (old : list float) : list float :=
  (g <$> seqZ 0 (Z.of_nat k)) ++ drop k old.

End FieldSpec.

(** ** Pure readings of one time step *)

Module SimSpec.
Import Sim FieldSpec.

(** The magnetic value [_calc_hfield] stores at column [i]. *)
Definition h_new (s : t) (i : Z) : float :=
  (value (_hfield s) i
   - _h_calc_term2_prop_coeff s
     * (value (_efield s) (i + 1) - value (_efield s) i))%float.

(** The electric value [_calc_efield] stores at column [i]. *)
Definition e_new (s : t) (i : Z) : float :=
  (_e_calc_term1_prop_coeff s * value (_efield s) i
   + _e_calc_term2_prop_coeff s * 0
   - _e_calc_term3_prop_coeff s
     * (value (_hfield s) i - value (_hfield s) (i - 1))
   - _e_calc_term4_prop_coeff s * value (_cfield s) i)%float.

Definition calc_hfield (s : t) : t :=
  with_hfield (with_cur_row (h_new s <$> seqZ 0 (_num_i s)) (_hfield s)) s.

Definition calc_efield (s : t) : t :=
  with_efield (with_cur_row (e_new s <$> seqZ 0 (_num_i s)) (_efield s)) s.

(** The three cursor moves that end a time step. *)
Definition iterate_fields (s : t) : t :=
  let s1 := with_hfield (advance (_hfield s)) s in
  let s2 := with_efield (advance (_efield s1)) s1 in
  with_cfield (Field.with_n (Field._n (_cfield s2) + 1) (_cfield s2)) s2.

Definition step (s : t) : t :=
  iterate_fields (calc_efield (calc_hfield s)).

(** The three cursor resets that open [simulate]. *)
Definition reset (s : t) : t :=
  let s1 := with_efield (Field.with_n 0 (_efield s)) s in
  let s2 := with_hfield (Field.with_n 0 (_hfield s1)) s1 in
  with_cfield (Field.with_n 0 (_cfield s2)) s2.

(** The two field grids have the simulation's dimensions, the current
    grid is a grid of its own, and the three cursors stand at [k]. *)
Definition ready (s : t) (k : Z) : Prop :=
  live (_efield s) /\ live (_hfield s) /\ live (_cfield s)
  /\ Field._num_n (_efield s) = _num_n s /\ Field._num_i (_efield s) = _num_i s
  /\ Field._num_n (_hfield s) = _num_n s /\ Field._num_i (_hfield s) = _num_i s
  /\ Field._n (_efield s) = k /\ Field._n (_hfield s) = k
  /\ Field._n (_cfield s) = k.

Fixpoint steps (m : nat) (s : t) : t :=
  match m with
  | O => s
  | S m' => steps m' (step s)
  end.

(** What a successful [simulate] leaves. *)
Definition run (s : t) : t :=
  steps (Z.to_nat (_num_n s - 1)) (reset s).

(** The two field grids have the simulation's dimensions and the
    current grid is a well-formed grid of its own. *)
Definition wf (s : t) : Prop :=
  FieldSpec.wf (_efield s) /\ FieldSpec.wf (_hfield s) /\ FieldSpec.wf (_cfield s)
  /\ Field._num_n (_efield s) = _num_n s /\ Field._num_i (_efield s) = _num_i s
  /\ Field._num_n (_hfield s) = _num_n s /\ Field._num_i (_hfield s) = _num_i s.

(** None of the five coefficients is an infinity or a NaN. *)
Definition finite_coeffs (s : t) : Prop :=
  finite (_e_calc_term1_prop_coeff s) /\ finite (_e_calc_term2_prop_coeff s)
  /\ finite (_e_calc_term3_prop_coeff s) /\ finite (_e_calc_term4_prop_coeff s)
  /\ finite (_h_calc_term2_prop_coeff s).

(** The row under the cursor is zero at every column outside [lo, hi]. *)
Definition zero_outside (f : Field.t) (lo hi : Z) : Prop :=
  forall i, i < lo \/ hi < i -> is_zero (value f i).

(** The buffer is zero everywhere, except possibly at row 0, column [p]. *)
Definition impulse (f : Field.t) (p : Z) : Prop :=
  forall r c : nat,
    r <> 0%nat \/ Z.of_nat c <> p -> is_zero (np.cell (Field._field f) r c).

(** The buffer is zero everywhere. *)
Definition all_zero (f : Field.t) : Prop :=
  forall r c : nat, is_zero (np.cell (Field._field f) r c).

(** Row [r] of the buffer is zero at every column farther than [r] from [p]. *)
Definition cone (a : np.ndarray) (p : Z) (r : nat) : Prop :=
  forall c : nat,
    (c < np.shape1 a)%nat -> Z.abs (Z.of_nat c - p) > Z.of_nat r ->
    is_zero (np.cell a r c).

(** What holds between two time steps of a run driven by an impulse at
    column [p]: the cursors stand at [k], the electric row reaches no
    farther than [k - 1] cells from [p], the magnetic row one cell less
    to the right, and the rows already left behind lie in the cone. *)
Definition causal (p : Z) (s : t) (k : nat) : Prop :=
  ready s (Z.of_nat k) /\ finite_coeffs s /\ impulse (_cfield s) p
  /\ zero_outside (_efield s) (p - Z.of_nat k + 1) (p + Z.of_nat k - 1)
  /\ zero_outside (_hfield s) (p - Z.of_nat k + 1) (p + Z.of_nat k - 2)
  /\ forall r, (r < k)%nat -> cone (Field._field (_efield s)) p r.

(** The five coefficients. *)
Definition coeffs (s : t) : float * float * float * float * float :=
  (_e_calc_term1_prop_coeff s, _e_calc_term2_prop_coeff s,
   _e_calc_term3_prop_coeff s, _e_calc_term4_prop_coeff s,
   _h_calc_term2_prop_coeff s).

(** Two states that hold the same coefficients. *)
Definition same_coeffs (s s' : t) : Prop := coeffs s = coeffs s'.

End SimSpec.

(** A property of the state that a computation keeps, whether it returns
    or raises. *)
Definition keeps {S A} (P : S -> Prop) (m : M S A) : Prop :=
  forall s, P s -> P (m s).2.

(** A relation between the state before and after that every step of a
    computation keeps is kept by the whole computation. *)
Definition preserves {S A} (R : S -> S -> Prop) (m : M S A) : Prop :=
  forall s, R s (m s).2.


(** Repeated calls of one method: [k] calls in a row. *)
Fixpoint repeat_call {S} (k : nat) (m : M S unit) : M S unit :=
  match k with
  | O => ret tt
  | S k' => m ;; repeat_call k' m
  end.

(** ** Concrete grids and simulations *)

Module Examples.

(** [Field(2, 3)], then [f[1] = 7.0]. *)
Definition marked_grid : Field.t :=
  Field.mk 0 2 3 (np.mk 2 3 [[0; 7; 0]; [0; 0; 0]]%float).

(** [Field(1, 2)] *)
Definition grid_1_2 : Field.t := Field.mk 0 1 2 (np.zeros 1 2).

(** [Field(2, 2)] *)
Definition grid_2_2 : Field.t := Field.mk 0 2 2 (np.zeros 2 2).

(** [Field(3, 4)], then [set_field([1, 2, 3, 4])]: Scenario C. *)
Definition grid_3_4 : Field.t :=
  Field.mk 0 3 4 (np.mk 3 4 [[1; 2; 3; 4]; [0; 0; 0; 0]; [0; 0; 0; 0]]%float).

(** [Field(0, 1)]: no time row, one column. *)
Definition grid_0_1 : Field.t := Field.mk 0 0 1 (np.zeros 0 1).

(** [Field()] *)
Definition grid_default : Field.t := Field.mk 0 0 0 (np.zeros 0 0).

(** [Field(3, 3)], then [cfield[1] = 1.0]: a unit current at column 1 of
    time row 0. *)
Definition cfield_3_3 : Field.t :=
  Field.mk 0 3 3 (np.mk 3 3 [[0; 1; 0]; [0; 0; 0]; [0; 0; 0]]%float).

(** [Sim(1.0, 1.0, 1.0, 0.5, 1.0, 3, 3, cfield, 0.0, 0.0)]: the
    coefficients are 1, 1, 0.5, 0.5 and 0.5. *)
Definition sim_3_3 : Sim.t :=
  Sim.mk 1 1 1 0.5 1 cfield_3_3 0 0 3 3
         (Field.mk 0 3 3 (np.zeros 3 3)) (Field.mk 0 3 3 (np.zeros 3 3))
         1 1 0.5 0.5 0.5.

(** [Field(6, 11)], then [cfield[5] = 1.0]: the current grid of
    Scenario B. *)
Definition cfield_6_11 : Field.t :=
  Field.mk 0 6 11
    (np.mk 6 11 (<[5%nat := 1%float]> (replicate 11 0%float)
                 :: replicate 5 (replicate 11 0%float))).

(** [Sim(1.0, 1.0, 1.0, 2.0**600, 2.0**-600, 6, 11, cfield, 0.0, 0.0)]:
    the quotient of the two steps overflows, and the third and the
    magnetic coefficient are infinite. *)
Definition sim_overflow : Sim.t :=
  Sim.mk 1 1 1 0x1p+600 0x1p-600 cfield_6_11 0 0 6 11
         (Field.mk 0 6 11 (np.zeros 6 11)) (Field.mk 0 6 11 (np.zeros 6 11))
         1 1 infinity 0x1p+600 infinity.

(** [Sim(1.0, 1.0, 1.0, 0.5, 1.0, 6, 11, cfield, 0.0, 0.0)] *)
Definition sim_6_11 : Sim.t :=
  Sim.mk 1 1 1 0.5 1 cfield_6_11 0 0 6 11
         (Field.mk 0 6 11 (np.zeros 6 11)) (Field.mk 0 6 11 (np.zeros 6 11))
         1 1 0.5 0.5 0.5.

End Examples.

(** ** Running a method from outside *)

(** The state a call leaves when it returns, the exception when it raises. *)
Definition exec {S A} (m : M S A) (s : S) : result S :=
  match m s with
  | (Ok _, s') => Ok s'
  | (Raise e, _) => Raise e
  end.

(** The value a call returns, the exception when it raises. *)
Definition eval {S A} (m : M S A) (s : S) : result A := (m s).1.

(** ** A client of a grid *)

Module Client.

(** One call of a public method of [Field]. *)
Inductive call : Type :=
| GetTimeIndex
| SetTimeIndex (n : Z)
| GetField (n : Z)
| GetIndex (i : Z)
| SetIndex (i : Z) (value : float)
| SetField (nfield : list float) (n : Z)
| Iterate
| Export.

(** The grid a call leaves, whether it returned or raised. *)
Definition after (c : call) (f : Field.t) : Field.t :=
  match c with
  | GetTimeIndex => (Field.get_time_index f).2
  | SetTimeIndex n => (Field.set_time_index n f).2
  | GetField n => (Field.get_field n f).2
  | GetIndex i => (Field.__getitem__ i f).2
  | SetIndex i v => (Field.__setitem__ i v f).2
  | SetField row n => (Field.set_field row n f).2
  | Iterate => (Field.iterate f).2
  | Export => (Field.export f).2
  end.

(** The grid a sequence of calls leaves, for a client that goes on after
    an exception. *)
Definition after_all (cs : list call) (f : Field.t) : Field.t :=
  fold_left (fun f c => after c f) cs f.

End Client.

(** ** Readings of a whole run *)

Module RunSpec.
Import Sim FieldSpec SimSpec.

(** The dimensions of a grid: the two size fields and the shape of the
    buffer. *)
Definition dims (f : Field.t) : Z * Z * nat * nat :=
  (Field._num_n f, Field._num_i f,
   np.shape0 (Field._field f), np.shape1 (Field._field f)).

(** The constants and dimensions the simulation was constructed with. *)
Definition params (s : t) : float * float * float * float * float * float * float * Z * Z :=
  (_vacuum_permittivity s, _infinity_permittivity s, _vacuum_permeability s,
   _delta_t s, _delta_z s, _susceptibility s, _initial_susceptibility s,
   _num_n s, _num_i s).

(** What no method of the simulation touches: the constants, the
    coefficients, the dimensions of the three grids and the buffer of the
    current grid. *)
Definition frame (s s' : t) : Prop :=
  params s = params s' /\ coeffs s = coeffs s'
  /\ dims (_efield s) = dims (_efield s')
  /\ dims (_hfield s) = dims (_hfield s')
  /\ dims (_cfield s) = dims (_cfield s')
  /\ Field._field (_cfield s) = Field._field (_cfield s').

(** The state a time step leaves when the cursor of the current grid
    cannot move on: both updates are done and the two field grids have
    advanced. *)
Definition aborted_step (s : t) : t :=
  let s2 := calc_efield (calc_hfield s) in
  let s3 := with_hfield (advance (_hfield s2)) s2 in
  with_efield (advance (_efield s3)) s3.

(** The three grids of the simulation satisfy the invariant of a grid. *)
Definition grids_ok (s : t) : Prop :=
  inv (_efield s) /\ inv (_hfield s) /\ inv (_cfield s).

(** The three buffers hold zeros only. *)
Definition quiet (s : t) : Prop :=
  all_zero (_efield s) /\ all_zero (_hfield s) /\ all_zero (_cfield s).

End RunSpec.

(** ** example.py *)

Module example.

(** [prep_sim()]: the body is a docstring, the call returns [None]. *)
Definition prep_sim : unit := tt.

(** The script: the current grid, the simulation, the run and the export
    of the electric buffer; [delta_t] is the binary64 value of [3e-4].  The two arguments stand for the floats that
    [4*np.pi*(10.0**(-7))] and [8.854187817 * (10**(-12))] evaluate to;
    the integer zeros passed for the permittivity at infinity and the two
    susceptibilities are the float zero.  The printing and the plot that
    follow the export are left out. *)
Definition main (vacuum_permittivity vacuum_permability : float)
  : result np.ndarray :=
  let infinity_permittivity := 0%float in
  let delta_z := 30000%float in
  let delta_t := 0x1.3a92a30553261p-12%float in
  cfield <-r Field.__init__ 500000 5000 None ;;
  cfield <-r exec (Field.__setitem__ 200 0.5%float) cfield ;;
  s <-r Sim.__init__ vacuum_permittivity infinity_permittivity vacuum_permability
          delta_t delta_z 500000 5000 cfield 0 0 ;;
  s <-r exec Sim.simulate s ;;
  efield <-r eval Sim.get_efield s ;;
  eval Field.export efield.

End example.

(** ** More concrete grids and simulations *)

Module Cases.

(** [Field(3, 2)] *)
Definition grid_3_2 : Field.t := Field.mk 0 3 2 (np.zeros 3 2).

(** [Field(2, 3)], the current grid of a simulation of three time rows:
    one row short. *)
Definition cfield_short : Field.t := Field.mk 0 2 3 (np.zeros 2 3).

(** [Sim(1.0, 1.0, 1.0, 0.5, 1.0, 3, 3, cfield_short, 0.0, 0.0)] *)
Definition sim_short : Sim.t :=
  Sim.mk 1 1 1 0.5 1 cfield_short 0 0 3 3
         (Field.mk 0 3 3 (np.zeros 3 3)) (Field.mk 0 3 3 (np.zeros 3 3))
         1 1 0.5 0.5 0.5.

(** [Sim(1.0, 1.0, 1.0, 0.5, 1.0, 3, 3, Field(3, 3), 0.0, 0.0)]: no
    current. *)
Definition sim_quiet : Sim.t :=
  Sim.mk 1 1 1 0.5 1 (Field.mk 0 3 3 (np.zeros 3 3)) 0 0 3 3
         (Field.mk 0 3 3 (np.zeros 3 3)) (Field.mk 0 3 3 (np.zeros 3 3))
         1 1 0.5 0.5 0.5.

(** [Sim(1.0, 1.0, 1.0, 0.5, 1.0, 0, 3, Field(0, 3), 0.0, 0.0)]: no time
    row. *)
Definition sim_no_rows : Sim.t :=
  Sim.mk 1 1 1 0.5 1 (Field.mk 0 0 3 (np.zeros 0 3)) 0 0 0 3
         (Field.mk 0 0 3 (np.zeros 0 3)) (Field.mk 0 0 3 (np.zeros 0 3))
         1 1 0.5 0.5 0.5.

(** [Sim(1.0, 1.0, 1.0, 0.5, 1.0, 3, 3, Field(0, 3), 0.0, 0.0)], after
    [get_efield().set_time_index(1)]: a current grid without rows. *)
Definition sim_no_current_rows : Sim.t :=
  Sim.mk 1 1 1 0.5 1 (Field.mk 0 0 3 (np.zeros 0 3)) 0 0 3 3
         (Field.mk 1 3 3 (np.zeros 3 3)) (Field.mk 0 3 3 (np.zeros 3 3))
         1 1 0.5 0.5 0.5.

End Cases.
(** ** Lemmas on the monad and on loops *)

Lemma mfor_app {S A} (l1 l2 : list A) (body : A -> M S unit) (s : S) :
  mfor (l1 ++ l2) body s = (mfor l1 body ;; mfor l2 body) s.
Proof.
  revert s. induction l1 as [|x l1 IH]; intros s; simpl.
  - reflexivity.
  - unfold bind in *. destruct (body x s) as [[[]|e] s1]; [|reflexivity].
    apply IH.
Qed.

Lemma mfor_snoc_ok {S A} (l : list A) (x : A) (body : A -> M S unit) (s s1 : S) :
  mfor l body s = (Ok tt, s1) ->
  mfor (l ++ [x]) body s = body x s1.
Proof.
  intros H. rewrite mfor_app. unfold bind at 1. rewrite H. simpl.
  unfold bind, ret. destruct (body x s1) as [[[]|e] s2]; reflexivity.
Qed.

Section Preserves.
Context {S : Type} (R : S -> S -> Prop).
Hypothesis R_refl : forall s, R s s.
Hypothesis R_trans : forall s1 s2 s3, R s1 s2 -> R s2 s3 -> R s1 s3.

Lemma preserves_ret {A} (a : A) : preserves R (ret a).
Proof using R_refl. intros s. apply R_refl. Qed.

Lemma preserves_raise {A} (e : exn) : preserves R (@raise S A e).
Proof using R_refl. intros s. apply R_refl. Qed.

Lemma preserves_get : preserves R (@get S).
Proof using R_refl. intros s. apply R_refl. Qed.

Lemma preserves_bind {A B} (m : M S A) (k : A -> M S B) :
  preserves R m -> (forall a, preserves R (k a)) -> preserves R (bind m k).
Proof using R_trans.
  intros Hm Hk s. unfold bind. specialize (Hm s).
  destruct (m s) as [[a|e] s1]; simpl in *; [|exact Hm].
  eapply R_trans; [exact Hm|apply Hk].
Qed.

Lemma preserves_mfor {A} (l : list A) (body : A -> M S unit) :
  (forall x, preserves R (body x)) -> preserves R (mfor l body).
Proof using R_refl R_trans.
  intros Hb. induction l as [|x l IH]; simpl.
  - apply preserves_ret.
  - apply preserves_bind; [apply Hb|intros _; exact IH].
Qed.
End Preserves.

(** ** Zeros in binary64 arithmetic *)

Lemma is_zero_SF (x : float) : is_zero x <-> exists s, Prim2SF x = S754_zero s.
Proof.
  unfold is_zero. rewrite FloatAxioms.eqb_spec.
  change (Prim2SF 0) with (S754_zero false).
  destruct (Prim2SF x) as [s|s| |s m e]; unfold SFeqb; simpl.
  - split; eauto.
  - split; [destruct s; discriminate|intros [? ?]; discriminate].
  - split; [discriminate|intros [? ?]; discriminate].
  - split; [destruct s; discriminate|intros [? ?]; discriminate].
Qed.

Lemma is_zero_0 : is_zero 0.
Proof. reflexivity. Qed.

Lemma is_zero_mul (c x : float) : finite c -> is_zero x -> is_zero (c * x).
Proof.
  unfold finite. rewrite !is_zero_SF, mul_spec. intros Hc [s ->].
  unfold SF64mul, SFmul. destruct (Prim2SF c); try contradiction; eauto.
Qed.

Lemma is_zero_sub (x y : float) : is_zero x -> is_zero y -> is_zero (x - y).
Proof.
  rewrite !is_zero_SF, sub_spec. intros [s ->] [s' ->].
  unfold SF64sub, SFsub. destruct s, s'; eauto.
Qed.

Lemma is_zero_add (x y : float) : is_zero x -> is_zero y -> is_zero (x + y).
Proof.
  rewrite !is_zero_SF, add_spec. intros [s ->] [s' ->].
  unfold SF64add, SFadd. destruct s, s'; eauto.
Qed.

Create HintDb zeros.
#[local] Hint Resolve is_zero_0 is_zero_mul is_zero_sub is_zero_add : zeros.

(** ** Lemmas on numpy indexing *)

Lemma np_index_in (len : nat) (k : Z) :
  0 <= k < Z.of_nat len -> np.index len k = Some (Z.to_nat k).
Proof.
  intros H. unfold np.index.
  destruct (Z.leb_spec 0 k), (Z.ltb_spec k (Z.of_nat len)); simpl; try lia.
  reflexivity.
Qed.



Lemma np_nbytes_lower (n m : Z) :
  0 <= n -> 0 <= m -> 8 * n <= np.nbytes n m /\ 8 * m <= np.nbytes n m.
Proof.
  intros Hn Hm. unfold np.nbytes.
  destruct (Z.eqb_spec n 0), (Z.eqb_spec m 0); subst; nia.
Qed.

Lemma np_shape_ok_spec (n m : Z) :
  np.shape_ok n m = true
  <-> 0 <= n /\ 0 <= m /\ np.nbytes n m <= np.max_intp.
Proof.
  unfold np.shape_ok. rewrite !andb_true_iff, !Z.leb_le. tauto.
Qed.

Lemma np_shape_ok_false (n m : Z) :
  np.shape_ok n m = false
  <-> n < 0 \/ m < 0 \/ np.max_intp < np.nbytes n m.
Proof.
  unfold np.shape_ok. rewrite !andb_false_iff, !Z.leb_gt. tauto.
Qed.

(** A dimension of an accepted shape, and so any index within it, fits. *)
Lemma np_shape_ok_fits (n m k : Z) :
  np.shape_ok n m = true -> (- m <= k < m \/ - n <= k < n) -> np.fits k = true.
Proof.
  intros H Hk. apply np_shape_ok_spec in H as (Hn & Hm & Hb).
  destruct (np_nbytes_lower n m Hn Hm) as [H1 H2].
  unfold np.fits, np.max_intp in *. apply andb_true_iff.
  rewrite !Z.leb_le. lia.
Qed.



Lemma np_zeros_wf (n m : nat) : np.wf (np.zeros n m).
Proof.
  split; simpl.
  - apply length_replicate.
  - apply Forall_replicate, length_replicate.
Qed.

(** ** Lemmas on the methods of [Field] *)

Section FieldLemmas.
Import Field FieldSpec.

Lemma init_zeros (num_n num_i : Z) :
  np.shape_ok num_n num_i = true ->
  __init__ num_n num_i None
  = Ok (mk 0 num_n num_i (np.zeros (Z.to_nat num_n) (Z.to_nat num_i))).
Proof. intros H. unfold __init__. rewrite H. reflexivity. Qed.

Lemma init_refused (num_n num_i : Z) :
  np.shape_ok num_n num_i = false ->
  __init__ num_n num_i None = Raise ValueError.
Proof. intros H. unfold __init__. rewrite H. reflexivity. Qed.

Lemma init_shape (num_n num_i : Z) (f : t) :
  __init__ num_n num_i None = Ok f -> np.shape_ok num_n num_i = true.
Proof.
  unfold __init__. destruct (np.shape_ok num_n num_i); [reflexivity|discriminate].
Qed.

Lemma init_inv (num_n num_i : Z) (f : t) :
  __init__ num_n num_i None = Ok f ->
  0 <= num_n /\ 0 <= num_i
  /\ f = mk 0 num_n num_i (np.zeros (Z.to_nat num_n) (Z.to_nat num_i)).
Proof.
  intros H. pose proof (init_shape _ _ _ H) as Hs.
  rewrite (init_zeros _ _ Hs) in H. injection H as <-.
  apply np_shape_ok_spec in Hs. split; [lia|]. split; [lia|reflexivity].
Qed.

Lemma init_wf (num_n num_i : Z) (f : t) :
  __init__ num_n num_i None = Ok f -> wf f.
Proof.
  intros H. apply init_inv in H as (Hn & Hi & ->).
  split; [apply np_zeros_wf|]. simpl. lia.
Qed.

Lemma live_lookup (f : t) :
  live f ->
  np.data (_field f) !! Z.to_nat (_n f) = Some (cur_row f)
  /\ length (cur_row f) = Z.to_nat (_num_i f).
Proof.
  intros [((Hlen & Hrows) & Hnn & Hni) Hn]. unfold cur_row.
  destruct (lookup_lt_is_Some_2 (np.data (_field f)) (Z.to_nat (_n f))) as [row Hrow];
    [lia|].
  rewrite Hrow. simpl. split; [reflexivity|].
  rewrite Forall_lookup in Hrows. rewrite (Hrows _ _ Hrow). lia.
Qed.

Lemma get_index_out (f : t) (i : Z) :
  i < 0 \/ i >= _num_i f -> get_index i f = (Ok 0%float, f).
Proof.
  intros H. unfold get_index, bind, get, ret.
  destruct (Z.ltb_spec i 0), (Z.geb_spec i (_num_i f)); simpl; try reflexivity; lia.
Qed.

Lemma value_out (f : t) (i : Z) :
  i < 0 \/ i >= _num_i f -> value f i = 0%float.
Proof.
  intros H. unfold value.
  destruct (Z.ltb_spec i 0), (Z.geb_spec i (_num_i f)); simpl; try reflexivity; lia.
Qed.

Lemma value_in (f : t) (i : Z) :
  0 <= i < _num_i f -> value f i = default 0%float (cur_row f !! Z.to_nat i).
Proof.
  intros H. unfold value.
  destruct (Z.ltb_spec i 0), (Z.geb_spec i (_num_i f)); simpl; try reflexivity; lia.
Qed.

Lemma get_index_live (f : t) (i : Z) :
  live f -> get_index i f = (Ok (value f i), f).
Proof.
  intros Hl. destruct (live_lookup f Hl) as [Hrow Hlen].
  destruct Hl as [(Hwf & Hnn & Hni) Hn].
  unfold get_index, value, bind, get, ret, lift.
  destruct (Z.ltb_spec i 0), (Z.geb_spec i (_num_i f)); simpl; try reflexivity.
  unfold np.getitem. rewrite !np_index_in by lia. rewrite Hrow.
  destruct (lookup_lt_is_Some_2 (cur_row f) (Z.to_nat i)) as [x Hx]; [lia|].
  rewrite Hx. reflexivity.
Qed.

Lemma alter_as_insert {A} (g : A -> A) (r : nat) (l : list A) (x : A) :
  l !! r = Some x -> alter g r l = <[r := g x]> l.
Proof.
  intros H. apply list_eq. intros j.
  destruct (decide (r = j)) as [<-|Hne].
  - rewrite list_lookup_alter_eq, H. simpl.
    rewrite list_lookup_insert_eq; [reflexivity|]. eapply lookup_lt_Some, H.
  - rewrite list_lookup_alter_ne, list_lookup_insert_ne by done. reflexivity.
Qed.

Lemma set_index_live (f : t) (i : Z) (v : float) :
  live f -> 0 <= i < _num_i f ->
  set_index i v f = (Ok tt, with_cur_row (<[Z.to_nat i := v]> (cur_row f)) f).
Proof.
  intros Hl Hi. destruct (live_lookup f Hl) as [Hrow Hlen].
  destruct Hl as [(Hwf & Hnn & Hni) Hn].
  unfold set_index, bind, get, lift, put, np.setitem.
  rewrite !np_index_in by lia.
  unfold with_cur_row, with_row. rewrite (alter_as_insert _ _ _ _ Hrow).
  reflexivity.
Qed.

Lemma with_cur_row_live (f : t) (row : list float) :
  live f -> length row = Z.to_nat (_num_i f) -> live (with_cur_row row f).
Proof.
  intros [((Hlen & Hrows) & Hnn & Hni) Hn] Hrow.
  split; [|exact Hn]. split; [|split]; simpl; try assumption.
  split; simpl.
  - rewrite length_insert. exact Hlen.
  - apply Forall_insert; [exact Hrows|]. lia.
Qed.

Lemma cur_row_with_cur_row (f : t) (row : list float) :
  live f -> cur_row (with_cur_row row f) = row.
Proof.
  intros [((Hlen & Hrows) & Hnn & Hni) Hn]. unfold cur_row. simpl.
  rewrite list_lookup_insert_eq by lia. reflexivity.
Qed.

Lemma with_cur_row_twice (f : t) (r1 r2 : list float) :
  with_cur_row r2 (with_cur_row r1 f) = with_cur_row r2 f.
Proof.
  unfold with_cur_row, with_row, with_field. simpl.
  rewrite list_insert_insert_eq. reflexivity.
Qed.

Lemma with_cur_row_id (f : t) :
  live f -> with_cur_row (cur_row f) f = f.
Proof.
  intros Hl. destruct (live_lookup f Hl) as [Hrow _].
  unfold with_cur_row, with_row, with_field.
  rewrite list_insert_id by exact Hrow.
  destruct f as [n nn ni [s0 s1 d]]. reflexivity.
Qed.

Lemma set_time_index_ok (f : t) (n : Z) :
  0 <= n < _num_n f -> set_time_index n f = (Ok tt, with_n n f).
Proof.
  intros H. unfold set_time_index, bind, get, put.
  destruct (Z.ltb_spec n 0), (Z.geb_spec n (_num_n f)); simpl; try lia.
  reflexivity.
Qed.

Lemma set_time_index_out (f : t) (n : Z) :
  n < 0 \/ n >= _num_n f -> set_time_index n f = (Raise IndexError, f).
Proof.
  intros H. unfold set_time_index, bind, get, raise.
  destruct (Z.ltb_spec n 0), (Z.geb_spec n (_num_n f)); simpl; try lia;
    reflexivity.
Qed.

Lemma iterate_end (f : t) :
  _n f + 1 >= _num_n f -> iterate f = (Raise IndexError, f).
Proof.
  intros H. unfold iterate, bind, get, raise.
  destruct (Z.geb_spec (_n f + 1) (_num_n f)); [reflexivity|lia].
Qed.

Lemma iterate_live (f : t) :
  live f -> _n f + 1 < _num_n f -> iterate f = (Ok tt, advance f).
Proof.
  intros Hl Hlt. destruct (live_lookup f Hl) as [Hrow Hlen].
  destruct Hl as [(Hwf & Hnn & Hni) Hn].
  unfold iterate, bind, get, raise, lift, put.
  destruct (Z.geb_spec (_n f + 1) (_num_n f)); [lia|].
  unfold np.getrow. rewrite np_index_in by lia. rewrite Hrow.
  unfold np.setrow. rewrite np_index_in by lia.
  replace (length (cur_row f) =? np.shape1 (_field f))%nat with true
    by (symmetry; apply Nat.eqb_eq; lia).
  reflexivity.
Qed.

Lemma advance_live (f : t) :
  live f -> _n f + 1 < _num_n f ->
  live (advance f) /\ cur_row (advance f) = cur_row f
  /\ _n (advance f) = _n f + 1.
Proof.
  intros Hl Hlt. destruct (live_lookup f Hl) as [Hrow Hlen].
  destruct Hl as [((Hdl & Hrows) & Hnn & Hni) Hn].
  split; [|split].
  - split; [|simpl; lia]. split; [|split]; simpl; try assumption.
    split; simpl.
    + rewrite length_insert. exact Hdl.
    + apply Forall_insert; [exact Hrows|]. lia.
  - unfold cur_row at 1. simpl. rewrite list_lookup_insert_eq by lia. reflexivity.
  - reflexivity.
Qed.

End FieldLemmas.

(** ** The invariant of the grid *)

Section FieldInvariant.
Import Field FieldSpec.

Lemma np_setitem_wf (a a' : np.ndarray) (n i : Z) (v : float) :
  np.wf a -> np.setitem a n i v = Ok a' ->
  np.wf a' /\ np.shape0 a' = np.shape0 a /\ np.shape1 a' = np.shape1 a.
Proof.
  intros [Hlen Hrows]. unfold np.setitem.
  destruct (np.index (np.shape0 a) n) as [r|],
           (np.index (np.shape1 a) i) as [c|]; try discriminate.
  intros [= <-]. simpl. split; [|split; reflexivity]. split; simpl.
  - rewrite length_alter. exact Hlen.
  - apply Forall_alter; [exact Hrows|]. intros row _ Hrow.
    rewrite length_insert. exact Hrow.
Qed.

Lemma np_setrow_wf (a a' : np.ndarray) (n : Z) (row : list float) :
  np.wf a -> np.setrow a n row = Ok a' ->
  np.wf a' /\ np.shape0 a' = np.shape0 a /\ np.shape1 a' = np.shape1 a.
Proof.
  intros [Hlen Hrows]. unfold np.setrow.
  destruct (np.index (np.shape0 a) n) as [r|]; [|discriminate].
  destruct (Nat.eqb_spec (length row) (np.shape1 a)) as [Heq|Hne].
  - intros [= <-]. simpl. split; [|split; reflexivity]. split; simpl.
    + rewrite length_insert. exact Hlen.
    + apply Forall_insert; assumption.
  - destruct row as [|x [|y row]]; try discriminate.
    intros [= <-]. simpl. split; [|split; reflexivity]. split; simpl.
    + rewrite length_insert. exact Hlen.
    + apply Forall_insert; [exact Hrows|apply length_replicate].
Qed.

Lemma init_keeps_inv (num_n num_i : Z) (f : t) :
  __init__ num_n num_i None = Ok f -> inv f.
Proof.
  intros H. pose proof (init_wf _ _ _ H) as Hwf.
  apply init_inv in H as (_ & _ & ->). split; [exact Hwf|]. simpl. lia.
Qed.

Lemma set_time_index_inv (n : Z) : keeps inv (set_time_index n).
Proof.
  intros f (Hwf & Hn). unfold set_time_index, bind, get, raise, put.
  destruct (Z.ltb_spec n 0), (Z.geb_spec n (_num_n f)); simpl; try (split; assumption).
  split; [exact Hwf|]. cbn [_n _num_n with_n]. lia.
Qed.

Lemma set_index_inv (i : Z) (v : float) : keeps inv (set_index i v).
Proof.
  intros f ((Hwf & Hnn & Hni) & Hn). unfold set_index, bind, get, lift, put.
  destruct (np.setitem (_field f) (_n f) i v) as [a|e] eqn:Hset; simpl.
  - destruct (np_setitem_wf _ _ _ _ _ Hwf Hset) as (Hwf' & H0 & H1).
    split; [split; [exact Hwf'|simpl; split; congruence]|exact Hn].
  - split; [split; [exact Hwf|split; assumption]|exact Hn].
Qed.

Lemma set_field_inv (row : list float) (n : Z) : keeps inv (set_field row n).
Proof.
  intros f ((Hwf & Hnn & Hni) & Hn).
  assert (Hinv : inv f) by (split; [split; [exact Hwf|split; assumption]|exact Hn]).
  unfold set_field, bind, get, lift, put, raise.
  destruct (negb (Z.of_nat (length row) =? _num_i f)); [exact Hinv|].
  destruct (n =? -1).
  - destruct (np.setrow (_field f) (_n f) row) as [a|e] eqn:Hset; [|exact Hinv].
    destruct (np_setrow_wf _ _ _ _ Hwf Hset) as (Hwf' & H0 & H1).
    split; [split; [exact Hwf'|simpl; split; congruence]|exact Hn].
  - destruct ((n <? 0) || (n >=? _num_n f)); [exact Hinv|].
    destruct (np.setrow (_field f) n row) as [a|e] eqn:Hset; [|exact Hinv].
    destruct (np_setrow_wf _ _ _ _ Hwf Hset) as (Hwf' & H0 & H1).
    split; [split; [exact Hwf'|simpl; split; congruence]|exact Hn].
Qed.

Lemma iterate_inv : keeps inv iterate.
Proof.
  intros f ((Hwf & Hnn & Hni) & Hn).
  assert (Hinv : inv f) by (split; [split; [exact Hwf|split; assumption]|exact Hn]).
  unfold iterate, bind, get, lift, put, raise.
  destruct (Z.geb_spec (_n f + 1) (_num_n f)); [exact Hinv|].
  destruct (np.getrow (_field f) (_n f)) as [row|e]; [|exact Hinv].
  destruct (np.setrow (_field f) (_n f + 1) row) as [a|e] eqn:Hset; [|exact Hinv].
  destruct (np_setrow_wf _ _ _ _ Hwf Hset) as (Hwf' & H0 & H1).
  split; [split; [exact Hwf'|simpl; split; congruence]|simpl; lia].
Qed.

Lemma readers_inv (n i : Z) :
  keeps inv get_time_index /\ keeps inv (get_field n)
  /\ keeps inv (get_index i) /\ keeps inv export.
Proof.
  split; [|split; [|split]]; intros f Hinv.
  - exact Hinv.
  - unfold get_field, bind, get, lift, raise.
    destruct (n =? -1); [exact Hinv|].
    destruct ((n <? 0) || (n >=? _num_n f)); exact Hinv.
  - unfold get_index, bind, get, lift, ret.
    destruct ((i <? 0) || (i >=? _num_i f)); exact Hinv.
  - exact Hinv.
Qed.

Lemma inv_live (f : t) : inv f -> _n f < _num_n f -> live f.
Proof. intros (Hwf & Hn & _) Hlt. split; [exact Hwf|lia]. Qed.

End FieldInvariant.

(** ** Rows rewritten cell by cell *)

Section NewRow.
Import FieldSpec.

Lemma new_row_0 (g : Z -> float) (old : list float) : new_row g 0 old = old.
Proof. reflexivity. Qed.

Lemma new_row_length (g : Z -> float) (k : nat) (old : list float) :
  (k <= length old)%nat -> length (new_row g k old) = length old.
Proof.
  intros H. unfold new_row.
  rewrite length_app, length_fmap, length_seqZ, length_drop. lia.
Qed.

Lemma new_row_lookup_old (g : Z -> float) (k j : nat) (old : list float) :
  (k <= j)%nat -> (k <= length old)%nat -> new_row g k old !! j = old !! j.
Proof.
  intros Hj Hk. unfold new_row.
  rewrite lookup_app_r; rewrite length_fmap, length_seqZ, Nat2Z.id; [|lia].
  rewrite lookup_drop. f_equal. lia.
Qed.

Lemma new_row_S (g : Z -> float) (k : nat) (old : list float) :
  (k < length old)%nat ->
  <[k := g (Z.of_nat k)]> (new_row g k old) = new_row g (S k) old.
Proof.
  intros Hk. unfold new_row.
  destruct (lookup_lt_is_Some_2 old k Hk) as [x Hx].
  rewrite (drop_S _ _ _ Hx), seqZ_S, fmap_app. simpl.
  rewrite <- app_assoc. simpl.
  rewrite insert_app_r_alt; rewrite length_fmap, length_seqZ, Nat2Z.id; [|lia].
  rewrite Nat.sub_diag. reflexivity.
Qed.

Lemma new_row_all (g : Z -> float) (old : list float) :
  new_row g (length old) old = g <$> seqZ 0 (Z.of_nat (length old)).
Proof.
  unfold new_row. rewrite drop_all. apply app_nil_r.
Qed.

End NewRow.

(** ** The two spatial loops *)

Section SimLoops.
Import Sim FieldSpec SimSpec.

Lemma value_with_cur_row (f : Field.t) (row : list float) (i : Z) :
  live f ->
  row !! Z.to_nat i = cur_row f !! Z.to_nat i ->
  value (with_cur_row row f) i = value f i.
Proof.
  intros Hl Hrow. unfold value. rewrite cur_row_with_cur_row by exact Hl.
  simpl. rewrite Hrow. reflexivity.
Qed.

Lemma calc_hfield_body_spec (s : t) (k : Z) (row : list float) (i : Z) :
  ready s k ->
  length row = Z.to_nat (_num_i s) ->
  0 <= i < _num_i s ->
  row !! Z.to_nat i = cur_row (_hfield s) !! Z.to_nat i ->
  _calc_hfield_body i (with_hfield (with_cur_row row (_hfield s)) s)
  = (Ok tt,
     with_hfield (with_cur_row (<[Z.to_nat i := h_new s i]> row) (_hfield s)) s).
Proof.
  intros (HE & HH & HC & HEn & HEi & HHn & HHi & _) Hlen Hi Hrow.
  assert (HH' : live (with_cur_row row (_hfield s)))
    by (apply with_cur_row_live; [exact HH|congruence]).
  unfold _calc_hfield_body, bind, get, on_hfield, on_efield,
    Field.__getitem__, Field.__setitem__. simpl.
  rewrite (get_index_live _ i HH'). simpl.
  rewrite !(get_index_live _ _ HE). simpl.
  rewrite (set_index_live _ i _ HH') by (simpl; lia). simpl.
  rewrite with_cur_row_twice, cur_row_with_cur_row by exact HH.
  rewrite (value_with_cur_row _ _ _ HH Hrow).
  reflexivity.
Qed.

Lemma calc_hfield_loop (s : t) (k : Z) (m : nat) :
  ready s k ->
  Z.of_nat m <= _num_i s ->
  mfor (seqZ 0 (Z.of_nat m)) _calc_hfield_body s
  = (Ok tt,
     with_hfield
       (with_cur_row (new_row (h_new s) m (cur_row (_hfield s))) (_hfield s)) s).
Proof.
  intros Hr. pose proof Hr as (HE & HH & HC & HEn & HEi & HHn & HHi & _).
  destruct (live_lookup _ HH) as [_ Hlen].
  induction m as [|m IH]; intros Hm.
  - simpl. unfold ret. rewrite new_row_0, with_cur_row_id by exact HH.
    destruct s; reflexivity.
  - rewrite seqZ_S, Z.add_0_l. erewrite mfor_snoc_ok; [|apply IH; lia].
    simpl. rewrite (calc_hfield_body_spec s k).
    + rewrite Nat2Z.id, new_row_S by lia. reflexivity.
    + exact Hr.
    + rewrite new_row_length by lia. congruence.
    + lia.
    + rewrite Nat2Z.id. apply new_row_lookup_old; lia.
Qed.

Lemma calc_hfield_spec (s : t) (k : Z) :
  ready s k -> _calc_hfield s = (Ok tt, calc_hfield s).
Proof.
  intros Hr. pose proof Hr as (HE & HH & HC & HEn & HEi & HHn & HHi & _).
  destruct (live_lookup _ HH) as [_ Hlen].
  unfold _calc_hfield, bind, get, for_range.
  assert (H0 : 0 <= _num_i s) by (destruct HH as [(_ & _ & Hs) _]; lia).
  rewrite <- (Z2Nat.id (_num_i s)) at 1 by exact H0.
  rewrite (calc_hfield_loop s k) by (exact Hr || lia).
  unfold calc_hfield. replace (Z.to_nat (_num_i s)) with (length (cur_row (_hfield s)))
    by congruence.
  rewrite new_row_all. do 4 f_equal. rewrite Hlen, Z2Nat.id; congruence.
Qed.

Lemma calc_efield_body_spec (s : t) (k : Z) (row : list float) (i : Z) :
  ready s k ->
  length row = Z.to_nat (_num_i s) ->
  0 <= i < _num_i s ->
  row !! Z.to_nat i = cur_row (_efield s) !! Z.to_nat i ->
  _calc_efield_body i (with_efield (with_cur_row row (_efield s)) s)
  = (Ok tt,
     with_efield (with_cur_row (<[Z.to_nat i := e_new s i]> row) (_efield s)) s).
Proof.
  intros (HE & HH & HC & HEn & HEi & HHn & HHi & _) Hlen Hi Hrow.
  assert (HE' : live (with_cur_row row (_efield s)))
    by (apply with_cur_row_live; [exact HE|congruence]).
  unfold _calc_efield_body, bind, get, psi, ret, _current, on_hfield, on_efield,
    on_cfield, Field.__getitem__, Field.__setitem__. simpl.
  rewrite (get_index_live _ i HE'). simpl.
  rewrite !(get_index_live _ _ HH). simpl.
  rewrite (get_index_live _ _ HC). simpl.
  rewrite (set_index_live _ i _ HE') by (simpl; lia). simpl.
  rewrite with_cur_row_twice, cur_row_with_cur_row by exact HE.
  rewrite (value_with_cur_row _ _ _ HE Hrow).
  reflexivity.
Qed.

Lemma calc_efield_loop (s : t) (k : Z) (m : nat) :
  ready s k ->
  Z.of_nat m <= _num_i s ->
  mfor (seqZ 0 (Z.of_nat m)) _calc_efield_body s
  = (Ok tt,
     with_efield
       (with_cur_row (new_row (e_new s) m (cur_row (_efield s))) (_efield s)) s).
Proof.
  intros Hr. pose proof Hr as (HE & HH & HC & HEn & HEi & HHn & HHi & _).
  destruct (live_lookup _ HE) as [_ Hlen].
  induction m as [|m IH]; intros Hm.
  - simpl. unfold ret. rewrite new_row_0, with_cur_row_id by exact HE.
    destruct s; reflexivity.
  - rewrite seqZ_S, Z.add_0_l. erewrite mfor_snoc_ok; [|apply IH; lia].
    simpl. rewrite (calc_efield_body_spec s k).
    + rewrite Nat2Z.id, new_row_S by lia. reflexivity.
    + exact Hr.
    + rewrite new_row_length by lia. congruence.
    + lia.
    + rewrite Nat2Z.id. apply new_row_lookup_old; lia.
Qed.

Lemma calc_efield_spec (s : t) (k : Z) :
  ready s k -> _calc_efield s = (Ok tt, calc_efield s).
Proof.
  intros Hr. pose proof Hr as (HE & HH & HC & HEn & HEi & HHn & HHi & _).
  destruct (live_lookup _ HE) as [_ Hlen].
  unfold _calc_efield, bind, get, for_range.
  assert (H0 : 0 <= _num_i s) by (destruct HE as [(_ & _ & Hs) _]; lia).
  rewrite <- (Z2Nat.id (_num_i s)) at 1 by exact H0.
  rewrite (calc_efield_loop s k) by (exact Hr || lia).
  unfold calc_efield. replace (Z.to_nat (_num_i s)) with (length (cur_row (_efield s)))
    by congruence.
  rewrite new_row_all. do 4 f_equal. rewrite Hlen, Z2Nat.id; congruence.
Qed.

Lemma row_of_length (g : Z -> float) (n : Z) :
  length (g <$> seqZ 0 n) = Z.to_nat n.
Proof. rewrite length_fmap. apply length_seqZ. Qed.

Lemma calc_hfield_ready (s : t) (k : Z) : ready s k -> ready (calc_hfield s) k.
Proof.
  intros (HE & HH & HC & HEn & HEi & HHn & HHi & Hk).
  unfold ready, calc_hfield. simpl. repeat split; try tauto.
  all: try (apply with_cur_row_live; [exact HH|rewrite row_of_length; congruence]).
  all: try apply HE; try apply HC.
Qed.

Lemma calc_efield_ready (s : t) (k : Z) : ready s k -> ready (calc_efield s) k.
Proof.
  intros (HE & HH & HC & HEn & HEi & HHn & HHi & Hk).
  unfold ready, calc_efield. simpl. repeat split; try tauto.
  all: try (apply with_cur_row_live; [exact HE|rewrite row_of_length; congruence]).
  all: try apply HH; try apply HC.
Qed.

Lemma iterate_cfield_spec (s : t) :
  0 <= Field._n (_cfield s) + 1 < Field._num_n (_cfield s) ->
  _iterate_cfield s
  = (Ok tt, with_cfield (Field.with_n (Field._n (_cfield s) + 1) (_cfield s)) s).
Proof.
  intros H. unfold _iterate_cfield, bind, on_cfield, Field.get_time_index, get, ret.
  simpl. rewrite set_time_index_ok by (simpl; lia). reflexivity.
Qed.

(** One time step from a ready state: no exception, and the state is the
    pure [step]. *)
Lemma simulate_body_spec (s : t) (k j : Z) :
  ready s k -> k + 1 < _num_n s -> k + 1 < Field._num_n (_cfield s) ->
  simulate_body j s = (Ok tt, step s) /\ ready (step s) (k + 1).
Proof.
  intros Hr Hk Hc.
  pose proof (calc_hfield_ready _ _ Hr) as Hr1.
  pose proof (calc_efield_ready _ _ Hr1) as Hr2.
  pose proof Hr2 as (HE & HH & HC & HEn & HEi & HHn & HHi & HkE & HkH & HkC).
  set (s2 := calc_efield (calc_hfield s)) in *.
  assert (Hnn : _num_n s2 = _num_n s) by reflexivity.
  assert (Hcc : _cfield s2 = _cfield s) by reflexivity.
  assert (HH2 : Field._n (_hfield s2) + 1 < Field._num_n (_hfield s2)) by lia.
  assert (HE2 : Field._n (_efield s2) + 1 < Field._num_n (_efield s2)) by lia.
  destruct (advance_live _ HH HH2) as (HHa & _ & HHan).
  destruct (advance_live _ HE HE2) as (HEa & _ & HEan).
  split.
  - unfold simulate_body, bind.
    rewrite (calc_hfield_spec s k Hr), (calc_efield_spec _ k Hr1). fold s2.
    unfold on_hfield at 1. rewrite (iterate_live _ HH HH2).
    unfold on_efield at 1.
    change (_efield (with_hfield (advance (_hfield s2)) s2)) with (_efield s2).
    rewrite (iterate_live _ HE HE2).
    rewrite iterate_cfield_spec.
    + reflexivity.
    + simpl. destruct HC as [_ HC]. rewrite Hcc in HC, HkC. lia.
  - unfold step. fold s2. unfold ready, iterate_fields. simpl.
    repeat split; try tauto; try lia.
    all: try apply HC; try apply HHa; try apply HEa.
    all: simpl; destruct HC as [_ HC]; rewrite ?Hcc in *; try lia.
    all: destruct Hr as (_ & _ & _ & _ & _ & _ & _ & HkE0 & HkH0 & _); lia.
Qed.

Lemma simulate_loop (l : list Z) (s : t) (k : Z) :
  ready s k ->
  k + Z.of_nat (length l) < _num_n s ->
  k + Z.of_nat (length l) < Field._num_n (_cfield s) ->
  mfor l simulate_body s = (Ok tt, steps (length l) s)
  /\ ready (steps (length l) s) (k + Z.of_nat (length l)).
Proof.
  revert s k. induction l as [|j l IH]; intros s k Hr Hk Hc;
    cbn [length steps mfor] in *.
  - split; [reflexivity|]. replace (k + Z.of_nat 0) with k by lia. exact Hr.
  - rewrite Nat2Z.inj_succ in *.
    destruct (simulate_body_spec s k j Hr) as [Hs Hr']; [lia|lia|].
    unfold bind. rewrite Hs.
    destruct (IH (step s) (k + 1) Hr') as [Hl Hr''];
      [change (_num_n (step s)) with (_num_n s); lia
      |change (Field._num_n (_cfield (step s))) with (Field._num_n (_cfield s)); lia|].
    split; [exact Hl|].
    replace (k + Z.succ (Z.of_nat (length l)))
      with (k + 1 + Z.of_nat (length l)) by lia.
    exact Hr''.
Qed.

Lemma reset_spec (s : t) :
  1 <= _num_n s -> 1 <= Field._num_n (_cfield s) -> wf s ->
  (on_efield (Field.set_time_index 0) ;;
   on_hfield (Field.set_time_index 0) ;;
   on_cfield (Field.set_time_index 0)) s = (Ok tt, reset s)
  /\ ready (reset s) 0.
Proof.
  intros Hn Hc (HE & HH & HC & HEn & HEi & HHn & HHi).
  split.
  - unfold bind, on_efield, on_hfield, on_cfield.
    rewrite set_time_index_ok by lia. simpl.
    rewrite set_time_index_ok by lia. simpl.
    rewrite set_time_index_ok by lia. reflexivity.
  - unfold ready, reset, live. simpl. repeat split; try tauto; try lia.
    all: try apply HE; try apply HH; try apply HC.
Qed.

(** A whole run: for a simulation of at least one time row whose current
    grid has at least as many rows, [simulate] raises nothing and leaves
    the pure [run]. *)
Lemma simulate_spec (s : t) :
  wf s -> 1 <= _num_n s <= Field._num_n (_cfield s) ->
  simulate s = (Ok tt, run s)
  /\ ready (run s) (_num_n s - 1).
Proof.
  intros Hwf Hn.
  destruct (reset_spec s) as [Hreset Hr0]; [lia|lia|exact Hwf|].
  unfold bind in Hreset.
  pose proof (simulate_loop (seqZ 0 (_num_n s - 1)) (reset s) 0 Hr0) as Hloop.
  rewrite length_seqZ in Hloop.
  destruct Hloop as [Hl Hr];
    [change (_num_n (reset s)) with (_num_n s); lia
    |change (Field._num_n (_cfield (reset s))) with (Field._num_n (_cfield s)); lia|].
  split.
  - unfold simulate, bind, get, for_range.
    destruct (on_efield (Field.set_time_index 0) s) as [[[]|e] s1]; [|discriminate].
    destruct (on_hfield (Field.set_time_index 0) s1) as [[[]|e] s2]; [|discriminate].
    destruct (on_cfield (Field.set_time_index 0) s2) as [[[]|e] s3]; [|discriminate].
    injection Hreset as ->. exact Hl.
  - unfold run. replace (_num_n s - 1) with (0 + Z.of_nat (Z.to_nat (_num_n s - 1))) at 2
      by lia.
    exact Hr.
Qed.

End SimLoops.

(** ** Cells and values *)

Section Cells.
Import Field FieldSpec.

Lemma value_cell (f : t) (i : Z) :
  live f -> 0 <= i < _num_i f ->
  value f i = np.cell (_field f) (Z.to_nat (_n f)) (Z.to_nat i).
Proof.
  intros Hl Hi. destruct (live_lookup f Hl) as [Hrow _].
  rewrite value_in by exact Hi. unfold np.cell. rewrite Hrow. reflexivity.
Qed.

Lemma value_row_of (f : t) (g : Z -> float) (i : Z) :
  live f -> 0 <= i < _num_i f ->
  value (with_cur_row (g <$> seqZ 0 (_num_i f)) f) i = g i.
Proof.
  intros Hl Hi. unfold value. rewrite cur_row_with_cur_row by exact Hl. simpl.
  destruct (Z.ltb_spec i 0), (Z.geb_spec i (_num_i f)); simpl; try lia.
  rewrite list_lookup_fmap, lookup_seqZ_lt by lia. simpl.
  f_equal. lia.
Qed.

Lemma value_advance (f : t) (i : Z) :
  live f -> _n f + 1 < _num_n f -> value (advance f) i = value f i.
Proof.
  intros Hl Hlt. destruct (advance_live f Hl Hlt) as (_ & Hrow & _).
  unfold value. rewrite Hrow. reflexivity.
Qed.

Lemma cell_with_row_ne (f : t) (r r' c : nat) (row : list float) :
  r <> r' -> np.cell (_field (with_row r' row f)) r c = np.cell (_field f) r c.
Proof.
  intros Hne. unfold np.cell. simpl.
  rewrite list_lookup_insert_ne by done. reflexivity.
Qed.

Lemma cell_advance (f : t) (r c : nat) :
  r <> Z.to_nat (_n f + 1) ->
  np.cell (_field (advance f)) r c = np.cell (_field f) r c.
Proof. intros Hne. unfold advance. simpl. apply (cell_with_row_ne f); done. Qed.

Lemma zeros_cell (n m r c : nat) : np.cell (np.zeros n m) r c = 0%float.
Proof.
  unfold np.cell, np.zeros. simpl.
  destruct (replicate n (replicate m 0%float) !! r) as [row|] eqn:Hr; [|reflexivity].
  apply lookup_replicate in Hr as [-> _]. simpl.
  destruct (replicate m 0%float !! c) as [x|] eqn:Hc; [|reflexivity].
  apply lookup_replicate in Hc as [-> _]. reflexivity.
Qed.

End Cells.

(** ** Causality: how far an impulse can have spread *)

Section Causality.
Import Sim FieldSpec SimSpec.

Lemma h_new_zero (s : t) (i : Z) :
  finite (_h_calc_term2_prop_coeff s) ->
  is_zero (value (_hfield s) i) ->
  is_zero (value (_efield s) (i + 1)) ->
  is_zero (value (_efield s) i) ->
  is_zero (h_new s i).
Proof. intros. unfold h_new. auto with zeros. Qed.

Lemma e_new_zero (s : t) (i : Z) :
  finite_coeffs s ->
  is_zero (value (_efield s) i) ->
  is_zero (value (_hfield s) i) ->
  is_zero (value (_hfield s) (i - 1)) ->
  is_zero (value (_cfield s) i) ->
  is_zero (e_new s i).
Proof. intros (? & ? & ? & ? & ?) **. unfold e_new. auto 10 with zeros. Qed.

Lemma value_is_zero_out (f : Field.t) (i : Z) :
  i < 0 \/ i >= Field._num_i f -> is_zero (value f i).
Proof. intros H. rewrite value_out by exact H. apply is_zero_0. Qed.

(** The current read by a time step at cursor [k] is zero away from the
    impulse. *)
Lemma impulse_value (f : Field.t) (p i : Z) :
  live f -> impulse f p -> i <> p -> is_zero (value f i).
Proof.
  intros Hl Himp Hi.
  destruct (Z.lt_ge_cases i 0); [apply value_is_zero_out; lia|].
  destruct (Z.lt_ge_cases i (Field._num_i f)); [|apply value_is_zero_out; lia].
  rewrite value_cell by (exact Hl || lia). apply Himp. right. lia.
Qed.

Lemma calc_hfield_zero_outside (p : Z) (s : t) (k : nat) :
  causal p s k ->
  zero_outside (_hfield (calc_hfield s)) (p - Z.of_nat k) (p + Z.of_nat k - 1).
Proof.
  intros (Hr & Hfin & Himp & HzE & HzH & _) i Hi.
  pose proof Hr as (HE & HH & HC & HEn & HEi & HHn & HHi & _).
  destruct (Z.lt_ge_cases i 0); [apply value_is_zero_out; simpl; lia|].
  destruct (Z.lt_ge_cases i (_num_i s)); [|apply value_is_zero_out; simpl; lia].
  unfold calc_hfield. simpl. rewrite <- HHi.
  rewrite value_row_of by (exact HH || lia).
  apply h_new_zero; [apply Hfin|apply HzH; lia|apply HzE; lia|apply HzE; lia].
Qed.

Lemma calc_efield_zero_outside (p : Z) (s : t) (k : nat) :
  causal p s k ->
  zero_outside (_efield (calc_efield (calc_hfield s)))
               (p - Z.of_nat k) (p + Z.of_nat k).
Proof.
  intros Hc i Hi. pose proof (calc_hfield_zero_outside p s k Hc) as HzH1.
  destruct Hc as (Hr & Hfin & Himp & HzE & HzH & _).
  pose proof (calc_hfield_ready _ _ Hr) as Hr1.
  pose proof Hr1 as (HE & HH & HC & HEn & HEi & HHn & HHi & _).
  set (s1 := calc_hfield s) in *.
  assert (Hni : Field._num_i (_efield (calc_efield s1)) = _num_i s1)
    by (rewrite <- HEi; reflexivity).
  destruct (Z.lt_ge_cases i 0); [apply value_is_zero_out; lia|].
  destruct (Z.lt_ge_cases i (_num_i s1)); [|apply value_is_zero_out; lia].
  unfold calc_efield. cbn [_efield with_efield]. rewrite <- HEi.
  rewrite value_row_of by (exact HE || lia).
  apply e_new_zero.
  - exact Hfin.
  - apply HzE. lia.
  - apply HzH1. lia.
  - apply HzH1. lia.
  - apply (impulse_value _ p); [exact HC|exact Himp|lia].
Qed.

Lemma causal_step (p : Z) (s : t) (k : nat) :
  causal p s k ->
  Z.of_nat k + 1 < _num_n s ->
  Z.of_nat k + 1 < Field._num_n (_cfield s) ->
  causal p (step s) (S k).
Proof.
  intros Hc Hk Hck.
  pose proof (calc_hfield_zero_outside p s k Hc) as HzH1.
  pose proof (calc_efield_zero_outside p s k Hc) as HzE2.
  destruct Hc as (Hr & Hfin & Himp & HzE & HzH & Hcone).
  destruct (simulate_body_spec s (Z.of_nat k) 0 Hr Hk Hck) as [_ Hr'].
  pose proof (calc_hfield_ready _ _ Hr) as Hr1.
  pose proof (calc_efield_ready _ _ Hr1) as Hr2.
  pose proof Hr2 as (HE & HH & HC & HEn & HEi & HHn & HHi & HkE & HkH & HkC).
  set (s1 := calc_hfield s) in *. set (s2 := calc_efield s1) in *.
  assert (Hnn : _num_n s2 = _num_n s) by reflexivity.
  assert (HeqE : _efield (step s) = advance (_efield s2)) by reflexivity.
  assert (HeqH : _hfield (step s) = advance (_hfield s1)) by reflexivity.
  assert (HH1 : _hfield s2 = _hfield s1) by reflexivity.
  rewrite HH1 in *.
  split; [|split; [|split; [|split; [|split]]]].
  - rewrite Nat2Z.inj_succ. exact Hr'.
  - exact Hfin.
  - exact Himp.
  - intros i Hi. rewrite HeqE, value_advance by (exact HE || lia).
    apply HzE2. lia.
  - intros i Hi. rewrite HeqH, value_advance by (exact HH || lia).
    apply HzH1. lia.
  - intros r Hr_lt c Hc Hfar. rewrite HeqE in *.
    rewrite cell_advance by lia.
    destruct (decide (r = k)) as [->|Hne].
    + replace k with (Z.to_nat (Field._n (_efield s2))) at 1 by lia.
      replace c with (Z.to_nat (Z.of_nat c)) at 1 by lia.
      rewrite <- value_cell.
      * apply HzE2. lia.
      * exact HE.
      * destruct HE as [(_ & _ & Hs1) _]. simpl in Hc.
        change (np.shape1 (Field._field (_efield s2)))
          with (np.shape1 (Field._field (_efield s))) in Hs1.
        lia.
    + unfold s2, calc_efield. cbn [_efield with_efield].
      unfold with_cur_row. rewrite cell_with_row_ne.
      * apply Hcone; [lia|exact Hc|exact Hfar].
      * change (Field._n (_efield s1)) with (Field._n (_efield s)).
        destruct Hr as (_ & _ & _ & _ & _ & _ & _ & Hks & _). lia.
Qed.

Lemma causal_steps (p : Z) (m : nat) (s : t) (k : nat) :
  causal p s k ->
  Z.of_nat (k + m) < _num_n s ->
  Z.of_nat (k + m) < Field._num_n (_cfield s) ->
  causal p (steps m s) (k + m).
Proof.
  revert s k. induction m as [|m IH]; intros s k Hc Hn Hcn; cbn [steps].
  - rewrite Nat.add_0_r. exact Hc.
  - replace (k + S m)%nat with (S k + m)%nat in * by lia.
    apply IH.
    + apply causal_step; [exact Hc|lia|lia].
    + change (_num_n (step s)) with (_num_n s). lia.
    + change (Field._num_n (_cfield (step s))) with (Field._num_n (_cfield s)). lia.
Qed.

Lemma steps_dims (m : nat) (s : t) :
  _num_i (steps m s) = _num_i s /\ _num_n (steps m s) = _num_n s.
Proof.
  revert s. induction m as [|m IH]; intros s; cbn [steps].
  - split; reflexivity.
  - destruct (IH (step s)) as [-> ->]. split; reflexivity.
Qed.

Lemma all_zero_value (f : Field.t) (i : Z) :
  live f -> all_zero f -> is_zero (value f i).
Proof.
  intros Hl Hz.
  destruct (Z.lt_ge_cases i 0); [apply value_is_zero_out; lia|].
  destruct (Z.lt_ge_cases i (Field._num_i f)); [|apply value_is_zero_out; lia].
  rewrite value_cell by (exact Hl || lia). apply Hz.
Qed.

Lemma causal_reset (p : Z) (s : t) :
  wf s -> 1 <= _num_n s -> 1 <= Field._num_n (_cfield s) ->
  finite_coeffs s -> impulse (_cfield s) p ->
  all_zero (_efield s) -> all_zero (_hfield s) ->
  causal p (reset s) 0.
Proof.
  intros Hwf Hn Hcn Hfin Himp HzE HzH.
  destruct (reset_spec s Hn Hcn Hwf) as [_ Hr].
  pose proof Hr as (HE & HH & _).
  split; [exact Hr|]. split; [exact Hfin|]. split; [exact Himp|].
  split; [|split].
  - intros i _. apply all_zero_value; [exact HE|exact HzE].
  - intros i _. apply all_zero_value; [exact HH|exact HzH].
  - intros r Hr0. lia.
Qed.

(** A run driven by an impulse at column [p] of time row 0, from zero
    fields and with finite coefficients, raises nothing and leaves an
    electric buffer whose row [r] is zero farther than [r] cells from
    [p]. *)
Lemma impulse_stays_in_cone (p : Z) (s : t) :
  wf s -> 1 <= _num_n s <= Field._num_n (_cfield s) ->
  finite_coeffs s -> impulse (_cfield s) p ->
  all_zero (_efield s) -> all_zero (_hfield s) ->
  simulate s = (Ok tt, run s)
  /\ forall r c : nat,
       Z.of_nat r < _num_n s -> Z.of_nat c < _num_i s ->
       Z.abs (Z.of_nat c - p) > Z.of_nat r ->
       is_zero (np.cell (Field._field (_efield (run s))) r c).
Proof.
  intros Hwf Hn Hfin Himp HzE HzH.
  destruct (simulate_spec s Hwf Hn) as [Hsim _]. split; [exact Hsim|].
  assert (Hc0 : causal p (reset s) 0)
    by (apply causal_reset; try assumption; lia).
  pose proof (causal_steps p (Z.to_nat (_num_n s - 1)) (reset s) 0 Hc0) as Hc.
  cbn [Nat.add] in Hc. fold (run s) in Hc.
  destruct Hc as (Hr & _ & _ & HzE' & _ & Hcone).
  { change (_num_n (reset s)) with (_num_n s). lia. }
  { change (Field._num_n (_cfield (reset s))) with (Field._num_n (_cfield s)). lia. }
  pose proof Hr as (HE & _ & _ & _ & HEi & _ & _ & HkE & _).
  unfold run in HEi at 2. rewrite (proj1 (steps_dims _ _)) in HEi.
  change (_num_i (reset s)) with (_num_i s) in HEi.
  assert (Hsh : Z.of_nat (np.shape1 (Field._field (_efield (run s)))) = _num_i s)
    by (destruct HE as [(_ & _ & Hs1) _]; lia).
  intros r c Hr_lt Hc_lt Hfar.
  destruct (decide (r < Z.to_nat (_num_n s - 1))%nat) as [Hlt|Hge];
    [apply Hcone; [exact Hlt|lia|exact Hfar]|].
  assert (r = Z.to_nat (_num_n s - 1)) as -> by lia.
  replace (Z.to_nat (_num_n s - 1)) with (Z.to_nat (Field._n (_efield (run s)))) at 1
    by (rewrite HkE; lia).
  replace c with (Z.to_nat (Z.of_nat c)) at 1 by lia.
  rewrite <- value_cell.
  - apply HzE'. lia.
  - exact HE.
  - lia.
Qed.

End Causality.

(** ** The grid: reads and writes at the boundary *)

Example marked_grid_built :
  (f <-r Field.__init__ 2 3 None ;;
   match Field.__setitem__ 1 7%float f with
   | (Ok _, f') => Ok f'
   | (Raise e, _) => Raise e
   end) = Ok Examples.marked_grid.
Proof. reflexivity. Qed.

(** C8: for every grid and every column index [i] with [i < 0] or
    [i >= num_i], [get_index(i)] (and so the [[]] operator) returns zero
    and raises nothing, whatever the buffer holds and wherever the cursor
    stands; the grid is left as it was. *)
Theorem get_index_outside_is_zero (f : Field.t) (i : Z) :
  i < 0 \/ i >= Field._num_i f ->
  Field.get_index i f = (Ok 0%float, f)
  /\ Field.__getitem__ i f = (Ok 0%float, f).
Proof.
  intros H. split; apply get_index_out; exact H.
Qed.

Lemma get_index_outside_is_zero_witness :
  (-1 < 0 \/ -1 >= Field._num_i Examples.marked_grid)
  /\ Field.get_index (-1) Examples.marked_grid = (Ok 0%float, Examples.marked_grid)
  /\ Field.__getitem__ (-1) Examples.marked_grid = (Ok 0%float, Examples.marked_grid).
Proof.
  split; [left; lia|].
  apply (get_index_outside_is_zero Examples.marked_grid (-1)). left. lia.
Defined.

Example get_index_past_the_end :
  Field.get_index 3 Examples.marked_grid = (Ok 0%float, Examples.marked_grid)
  /\ Field.get_index 1 Examples.marked_grid = (Ok 7%float, Examples.marked_grid).
Proof. split; reflexivity. Qed.



(** C3: on [Field(1, 2)], [set_index(-1, 7.0)] raises nothing and stores
    7.0 in the cell at column 1, although column -1 is outside [0, num_i)
    and [get_index(-1)] reads zero there. *)
Theorem set_index_minus_one_hits_last_cell :
  Field.__init__ 1 2 None = Ok Examples.grid_1_2
  /\ Field.set_index (-1) 7%float Examples.grid_1_2
     = (Ok tt, Field.mk 0 1 2 (np.mk 1 2 [[0; 7]]%float))
  /\ Field.get_index (-1) (Field.mk 0 1 2 (np.mk 1 2 [[0; 7]]%float))
     = (Ok 0%float, Field.mk 0 1 2 (np.mk 1 2 [[0; 7]]%float))
  /\ Field.get_index 1 (Field.mk 0 1 2 (np.mk 1 2 [[0; 7]]%float))
     = (Ok 7%float, Field.mk 0 1 2 (np.mk 1 2 [[0; 7]]%float)).
Proof. repeat split; reflexivity. Qed.

(** ** The grid: rows addressed by a time index *)

Lemma get_field_out (f : Field.t) (n : Z) :
  n <> -1 -> n < 0 \/ n >= Field._num_n f ->
  Field.get_field n f = (Raise IndexError, f).
Proof.
  intros Hne H. unfold Field.get_field, bind, get, raise.
  destruct (Z.eqb_spec n (-1)); [contradiction|].
  destruct (Z.ltb_spec n 0), (Z.geb_spec n (Field._num_n f)); simpl; try lia;
    reflexivity.
Qed.

Lemma set_field_out (f : Field.t) (n : Z) (row : list float) :
  n <> -1 -> n < 0 \/ n >= Field._num_n f ->
  Z.of_nat (length row) = Field._num_i f ->
  Field.set_field row n f = (Raise IndexError, f).
Proof.
  intros Hne H Hlen. unfold Field.set_field, bind, get, raise.
  rewrite Hlen, Z.eqb_refl. simpl.
  destruct (Z.eqb_spec n (-1)); [contradiction|].
  destruct (Z.ltb_spec n 0), (Z.geb_spec n (Field._num_n f)); simpl; try lia;
    reflexivity.
Qed.

Lemma get_field_current (f : Field.t) :
  FieldSpec.live f -> Field.get_field (-1) f = (Ok (FieldSpec.cur_row f), f).
Proof.
  intros Hl. destruct (live_lookup f Hl) as [Hrow _].
  destruct Hl as [(Hwf & Hnn & Hni) Hn].
  unfold Field.get_field, bind, get, lift. simpl.
  unfold np.getrow. rewrite np_index_in by lia. rewrite Hrow. reflexivity.
Qed.

Lemma set_field_current (f : Field.t) (row : list float) :
  FieldSpec.live f -> Z.of_nat (length row) = Field._num_i f ->
  Field.set_field row (-1) f = (Ok tt, FieldSpec.with_cur_row row f).
Proof.
  intros [(Hwf & Hnn & Hni) Hn] Hlen.
  unfold Field.set_field, bind, get, lift, put.
  rewrite Hlen, Z.eqb_refl. simpl.
  unfold np.setrow. rewrite np_index_in by lia.
  replace (length row =? np.shape1 (Field._field f))%nat with true
    by (symmetry; apply Nat.eqb_eq; lia).
  reflexivity.
Qed.

(** A row of the wrong length is refused with [ValueError] before the
    time index is looked at, and the grid is unchanged. *)
Lemma set_field_length_mismatch (f : Field.t) (n : Z) (row : list float) :
  Z.of_nat (length row) <> Field._num_i f ->
  Field.set_field row n f = (Raise ValueError, f).
Proof.
  intros Hlen. unfold Field.set_field, bind, get, raise.
  destruct (Z.eqb_spec (Z.of_nat (length row)) (Field._num_i f)); [contradiction|].
  reflexivity.
Qed.

(** The cursor set by [set_time_index] is the cursor [get_time_index]
    returns. *)
Lemma set_then_get_time_index (f : Field.t) (n : Z) :
  0 <= n < Field._num_n f ->
  (Field.set_time_index n ;; Field.get_time_index) f = (Ok n, Field.with_n n f).
Proof.
  intros H. unfold bind. rewrite set_time_index_ok by exact H. reflexivity.
Qed.

(** C4, as stated, fails at the explicit time index -1, which is below
    zero: on [Field(2, 2)], [get_field(-1)] returns the row under the
    cursor and [set_field([1.0, 2.0], -1)] overwrites it, and neither
    raises. *)
Lemma time_index_minus_one_not_refused :
  Field.__init__ 2 2 None = Ok Examples.grid_2_2
  /\ Field.get_field (-1) Examples.grid_2_2 = (Ok [0; 0]%float, Examples.grid_2_2)
  /\ Field.set_field [1; 2]%float (-1) Examples.grid_2_2
     = (Ok tt, Field.mk 0 2 2 (np.mk 2 2 [[1; 2]; [0; 0]]%float))
  /\ ~ (forall (f : Field.t) (n : Z) (row : list float),
          FieldSpec.live f ->
          n < 0 \/ n >= Field._num_n f ->
          Z.of_nat (length row) = Field._num_i f ->
          Field.get_field n f = (Raise IndexError, f)
          /\ Field.set_field row n f = (Raise IndexError, f)).
Proof.
  split; [reflexivity|]. split; [reflexivity|]. split; [reflexivity|].
  intros H.
  destruct (H Examples.grid_2_2 (-1) [1; 2]%float) as [Hget _].
  - split; [split; [apply np_zeros_wf|simpl; lia]|simpl; lia].
  - left. lia.
  - reflexivity.
  - discriminate Hget.
Qed.

(** C4, amended: for every grid and every explicitly passed time index [n]
    other than -1 with [n < 0] or [n >= num_n], [get_field(n)] raises
    [IndexError], and [set_field(row, n)] with a row of length [num_i]
    raises [IndexError] too; both leave the grid unchanged.  The index -1
    is the default of the parameter and stands for the row under the
    cursor: on a grid whose cursor addresses a row, [get_field(-1)]
    returns that row and [set_field(row, -1)] replaces it. *)
Theorem time_index_checked_except_minus_one
    (f : Field.t) (n : Z) (row : list float) :
  Z.of_nat (length row) = Field._num_i f ->
  (n <> -1 -> n < 0 \/ n >= Field._num_n f ->
   Field.get_field n f = (Raise IndexError, f)
   /\ Field.set_field row n f = (Raise IndexError, f))
  /\ (FieldSpec.live f ->
      Field.get_field (-1) f = (Ok (FieldSpec.cur_row f), f)
      /\ Field.set_field row (-1) f = (Ok tt, FieldSpec.with_cur_row row f)).
Proof.
  intros Hlen. split.
  - intros Hne H. split; [apply get_field_out|apply set_field_out]; assumption.
  - intros Hl. split; [apply get_field_current|apply set_field_current]; assumption.
Qed.

Lemma time_index_checked_except_minus_one_witness :
  Z.of_nat (length [1; 2]%float) = Field._num_i Examples.grid_2_2
  /\ (2 <> -1 /\ (2 < 0 \/ 2 >= Field._num_n Examples.grid_2_2))
  /\ Field.get_field 2 Examples.grid_2_2 = (Raise IndexError, Examples.grid_2_2)
  /\ Field.set_field [1; 2]%float 2 Examples.grid_2_2
     = (Raise IndexError, Examples.grid_2_2)
  /\ Field.get_field (-3) Examples.grid_2_2 = (Raise IndexError, Examples.grid_2_2)
  /\ FieldSpec.live Examples.grid_2_2
  /\ Field.get_field (-1) Examples.grid_2_2
     = (Ok (FieldSpec.cur_row Examples.grid_2_2), Examples.grid_2_2)
  /\ Field.set_field [1; 2]%float (-1) Examples.grid_2_2
     = (Ok tt, FieldSpec.with_cur_row [1; 2]%float Examples.grid_2_2).
Proof.
  assert (Hl : FieldSpec.live Examples.grid_2_2)
    by (split; [split; [apply np_zeros_wf|simpl; lia]|simpl; lia]).
  split; [reflexivity|]. split; [split; [lia|right; simpl; lia]|].
  pose proof (time_index_checked_except_minus_one
                Examples.grid_2_2 2 [1; 2]%float eq_refl) as [H2 _].
  pose proof (time_index_checked_except_minus_one
                Examples.grid_2_2 (-3) [1; 2]%float eq_refl) as [H3 _].
  destruct H2 as [Hg Hs]; [lia|right; simpl; lia|].
  destruct H3 as [Hg' _]; [lia|left; lia|].
  split; [exact Hg|]. split; [exact Hs|]. split; [exact Hg'|].
  split; [exact Hl|].
  exact (proj2 (time_index_checked_except_minus_one
                  Examples.grid_2_2 2 [1; 2]%float eq_refl) Hl).
Defined.

(** ** The grid: advancing the cursor *)

Lemma advance_rows (f : Field.t) :
  FieldSpec.live f -> Field._n f + 1 < Field._num_n f ->
  np.data (Field._field (FieldSpec.advance f)) !! Z.to_nat (Field._n f + 1)
  = Some (FieldSpec.cur_row f)
  /\ forall r, r <> Z.to_nat (Field._n f + 1) ->
       np.data (Field._field (FieldSpec.advance f)) !! r
       = np.data (Field._field f) !! r.
Proof.
  intros [((Hdl & _) & Hnn & _) Hn] Hlt. simpl. split.
  - apply list_lookup_insert_eq. lia.
  - intros r Hne. apply list_lookup_insert_ne. congruence.
Qed.

Lemma repeat_iterate (k : nat) (f : Field.t) :
  FieldSpec.live f -> Field._n f + Z.of_nat k < Field._num_n f ->
  exists f', repeat_call k Field.iterate f = (Ok tt, f')
    /\ FieldSpec.live f'
    /\ Field._n f' = Field._n f + Z.of_nat k
    /\ Field._num_n f' = Field._num_n f.
Proof.
  revert f. induction k as [|k IH]; intros f Hl Hk; cbn [repeat_call].
  - exists f. repeat split; try apply Hl; try reflexivity. lia.
  - rewrite Nat2Z.inj_succ in Hk.
    destruct (advance_live f Hl) as (Hl' & _ & Hn'); [lia|].
    destruct (IH (FieldSpec.advance f) Hl') as (f' & Hrun & Hlf & Hnf & Hnnf).
    { rewrite Hn'. change (Field._num_n (FieldSpec.advance f)) with (Field._num_n f). lia. }
    exists f'. unfold bind. rewrite iterate_live by (exact Hl || lia).
    split; [exact Hrun|]. split; [exact Hlf|]. split; [|exact Hnnf].
    rewrite Hnf, Hn'. lia.
Qed.

(** C5: for every grid with cursor [n], if [n + 1 < num_n] then
    [iterate()] copies the contents of row [n] into row [n + 1], leaves
    the other rows alone and sets the cursor to [n + 1]; if
    [n + 1 >= num_n] it raises [IndexError] and leaves buffer and cursor
    as they were.  Hence on a fresh grid, with [k = num_n - 1] the number
    of calls, [k] successive calls of [iterate()] succeed and leave the
    cursor at [num_n - 1], and one further call raises [IndexError]. *)
Theorem iterate_copies_row_or_refuses :
  (forall f : Field.t,
     FieldSpec.live f -> Field._n f + 1 < Field._num_n f ->
     exists row f',
       np.data (Field._field f) !! Z.to_nat (Field._n f) = Some row
       /\ Field.iterate f = (Ok tt, f')
       /\ Field._n f' = Field._n f + 1
       /\ np.data (Field._field f') !! Z.to_nat (Field._n f + 1) = Some row
       /\ forall r, r <> Z.to_nat (Field._n f + 1) ->
            np.data (Field._field f') !! r = np.data (Field._field f) !! r)
  /\ (forall f : Field.t,
        Field._n f + 1 >= Field._num_n f ->
        Field.iterate f = (Raise IndexError, f))
  /\ (forall (num_n num_i : Z) (f0 : Field.t) (k : nat),
        Field.__init__ num_n num_i None = Ok f0 ->
        Z.of_nat k = num_n - 1 ->
        exists f,
          repeat_call k Field.iterate f0 = (Ok tt, f)
          /\ Field._n f = num_n - 1
          /\ Field.iterate f = (Raise IndexError, f)).
Proof.
  split; [|split].
  - intros f Hl Hlt. exists (FieldSpec.cur_row f), (FieldSpec.advance f).
    destruct (live_lookup f Hl) as [Hrow _].
    destruct (advance_rows f Hl Hlt) as [Hnew Hold].
    split; [exact Hrow|]. split; [apply iterate_live; assumption|].
    split; [reflexivity|]. split; [exact Hnew|exact Hold].
  - apply iterate_end.
  - intros num_n num_i f0 k Hinit Hk.
    pose proof (init_wf _ _ _ Hinit) as Hwf.
    apply init_inv in Hinit as (Hn & Hi & ->).
    destruct (repeat_iterate k (Field.mk 0 num_n num_i
                (np.zeros (Z.to_nat num_n) (Z.to_nat num_i))))
      as (f & Hrun & Hl & Hnf & Hnnf).
    + split; [exact Hwf|simpl; lia].
    + simpl. lia.
    + exists f. split; [exact Hrun|]. simpl in Hnf, Hnnf.
      split; [lia|]. apply iterate_end. lia.
Qed.

Lemma iterate_copies_row_or_refuses_witness :
  (FieldSpec.live Examples.grid_3_4
   /\ Field._n Examples.grid_3_4 + 1 < Field._num_n Examples.grid_3_4)
  /\ (exists row f',
        np.data (Field._field Examples.grid_3_4) !! Z.to_nat (Field._n Examples.grid_3_4)
        = Some row
        /\ Field.iterate Examples.grid_3_4 = (Ok tt, f')
        /\ Field._n f' = Field._n Examples.grid_3_4 + 1
        /\ np.data (Field._field f') !! Z.to_nat (Field._n Examples.grid_3_4 + 1)
           = Some row
        /\ forall r, r <> Z.to_nat (Field._n Examples.grid_3_4 + 1) ->
             np.data (Field._field f') !! r
             = np.data (Field._field Examples.grid_3_4) !! r)
  /\ (Field.__init__ 3 4 None = Ok (Field.mk 0 3 4 (np.zeros 3 4))
      /\ Z.of_nat 2 = 3 - 1)
  /\ (exists f,
        repeat_call 2 Field.iterate (Field.mk 0 3 4 (np.zeros 3 4)) = (Ok tt, f)
        /\ Field._n f = 3 - 1
        /\ Field.iterate f = (Raise IndexError, f))
  /\ Field._n Examples.grid_1_2 + 1 >= Field._num_n Examples.grid_1_2
  /\ Field.iterate Examples.grid_1_2 = (Raise IndexError, Examples.grid_1_2).
Proof.
  assert (Hl : FieldSpec.live Examples.grid_3_4).
  { split; [split; [split; [reflexivity|]|split; reflexivity]|simpl; lia].
    repeat constructor. }
  assert (Hlt : Field._n Examples.grid_3_4 + 1 < Field._num_n Examples.grid_3_4)
    by (simpl; lia).
  split; [split; [exact Hl|exact Hlt]|].
  split; [exact (proj1 iterate_copies_row_or_refuses Examples.grid_3_4 Hl Hlt)|].
  split; [split; reflexivity|].
  split; [exact (proj2 (proj2 iterate_copies_row_or_refuses) 3 4
                       (Field.mk 0 3 4 (np.zeros 3 4)) 2%nat eq_refl eq_refl)|].
  assert (Hend : Field._n Examples.grid_1_2 + 1 >= Field._num_n Examples.grid_1_2)
    by (simpl; lia).
  split; [exact Hend|].
  exact (proj1 (proj2 iterate_copies_row_or_refuses) Examples.grid_1_2 Hend).
Defined.

(** Scenario C: on [Field(3, 4)] with row 0 set to [1, 2, 3, 4],
    [iterate()] makes row 1 equal to [1, 2, 3, 4] and the cursor 1. *)
Example iterate_scenario_c :
  Field.iterate Examples.grid_3_4
  = (Ok tt,
     Field.mk 1 3 4
       (np.mk 3 4 [[1; 2; 3; 4]; [1; 2; 3; 4]; [0; 0; 0; 0]]%float)).
Proof. reflexivity. Qed.

(** ** The simulation: how the three grids move in a time step *)

Lemma steps_cfield (m : nat) (s : Sim.t) :
  Field._field (Sim._cfield (SimSpec.steps m s)) = Field._field (Sim._cfield s).
Proof.
  revert s. induction m as [|m IH]; intros s; cbn [SimSpec.steps].
  - reflexivity.
  - rewrite IH. reflexivity.
Qed.

Example sim_3_3_built :
  Sim.__init__ 1 1 1 0.5 1 3 3 Examples.cfield_3_3 0 0 = Ok Examples.sim_3_3.
Proof. reflexivity. Qed.

(** C1, as stated, fails on the simulation [sim_3_3], whose current grid
    holds [0, 1, 0] in row 0 and zeros below: [_iterate_cfield] moves the
    cursor of the current grid to 1 and leaves row 1 at [0, 0, 0], where
    [iterate()] on the same grid would have copied [0, 1, 0] into it; and
    so does the first time step of [simulate()]. *)
Lemma iterate_cfield_copies_no_row :
  Sim._cfield (Sim._iterate_cfield Examples.sim_3_3).2
  = Field.mk 1 3 3 (np.mk 3 3 [[0; 1; 0]; [0; 0; 0]; [0; 0; 0]]%float)
  /\ Sim._cfield (Sim.on_cfield Field.iterate Examples.sim_3_3).2
     = Field.mk 1 3 3 (np.mk 3 3 [[0; 1; 0]; [0; 1; 0]; [0; 0; 0]]%float)
  /\ Sim._cfield (Sim.simulate_body 0 Examples.sim_3_3).2
     = Field.mk 1 3 3 (np.mk 3 3 [[0; 1; 0]; [0; 0; 0]; [0; 0; 0]]%float)
  /\ ~ (forall s : Sim.t, Sim._iterate_cfield s = Sim.on_cfield Field.iterate s).
Proof.
  split; [reflexivity|]. split; [reflexivity|]. split; [vm_compute; reflexivity|].
  intros H. specialize (H Examples.sim_3_3).
  apply (f_equal (fun r => np.data (Field._field (Sim._cfield r.2)))) in H.
  vm_compute in H. discriminate H.
Qed.

(** A successful [iterate] copies the row under the cursor forward. *)
Lemma iterate_copied_forward (f : Field.t) :
  FieldSpec.live f -> Field._n f + 1 < Field._num_n f ->
  Field.iterate f = (Ok tt, FieldSpec.advance f)
  /\ FieldSpec.copied_forward f (FieldSpec.advance f).
Proof.
  intros Hl Hlt. split; [apply iterate_live; assumption|].
  destruct (live_lookup f Hl) as [Hrow _].
  destruct (advance_rows f Hl Hlt) as [Hnext Hothers].
  assert (H0 : 0 <= Field._n f) by (destruct Hl as [_ H]; lia).
  exists (FieldSpec.cur_row f).
  split; [exact Hrow|]. split; [rewrite Hothers by lia; exact Hrow|].
  split; [exact Hnext|]. split; [exact Hothers|].
  repeat split.
Qed.

(** C1, amended: in every time step of [simulate()] the magnetic and the
    electric grid, as the two field updates [u] leave them, are advanced
    by [iterate()]: the row under the cursor is copied into the next row
    and the cursor moves onto it, every other row staying as it was.  The
    current grid is advanced by moving its cursor one row on, without
    copying a row: its buffer is left as it was.  After each time step the
    three grids share one cursor value, and after [simulate()] that value
    is [num_n - 1]. *)
Theorem cfield_cursor_moves_without_copy :
  (forall (s : Sim.t) (k j : Z),
     SimSpec.ready s k -> k + 1 < Sim._num_n s ->
     k + 1 < Field._num_n (Sim._cfield s) ->
     exists u s',
       (Sim._calc_hfield ;; Sim._calc_efield) s = (Ok tt, u)
       /\ Sim.simulate_body j s = (Ok tt, s')
       /\ Field.iterate (Sim._hfield u) = (Ok tt, Sim._hfield s')
       /\ Field.iterate (Sim._efield u) = (Ok tt, Sim._efield s')
       /\ FieldSpec.copied_forward (Sim._hfield u) (Sim._hfield s')
       /\ FieldSpec.copied_forward (Sim._efield u) (Sim._efield s')
       /\ Sim._cfield u = Sim._cfield s
       /\ Sim._cfield s' = Field.with_n (k + 1) (Sim._cfield s)
       /\ Field._n (Sim._hfield s') = k + 1
       /\ Field._n (Sim._efield s') = k + 1)
  /\ (forall s : Sim.t,
        SimSpec.wf s -> 1 <= Sim._num_n s <= Field._num_n (Sim._cfield s) ->
        exists s',
          Sim.simulate s = (Ok tt, s')
          /\ Field._field (Sim._cfield s') = Field._field (Sim._cfield s)
          /\ Field._n (Sim._cfield s') = Sim._num_n s - 1
          /\ Field._n (Sim._hfield s') = Sim._num_n s - 1
          /\ Field._n (Sim._efield s') = Sim._num_n s - 1).
Proof.
  split.
  - intros s k j Hr Hk Hc.
    destruct (simulate_body_spec s k j Hr Hk Hc) as [Hs Hr'].
    pose proof (calc_hfield_ready _ _ Hr) as Hr1.
    pose proof (calc_efield_ready _ _ Hr1) as Hr2.
    set (u := SimSpec.calc_efield (SimSpec.calc_hfield s)) in *.
    pose proof Hr2 as (HE & HH & _ & HEn & _ & HHn & _ & HkE & HkH & _).
    assert (Hnn : Sim._num_n u = Sim._num_n s) by reflexivity.
    assert (HH2 : Field._n (Sim._hfield u) + 1 < Field._num_n (Sim._hfield u)) by lia.
    assert (HE2 : Field._n (Sim._efield u) + 1 < Field._num_n (Sim._efield u)) by lia.
    destruct (iterate_copied_forward _ HH HH2) as [HHit HHcp].
    destruct (iterate_copied_forward _ HE HE2) as [HEit HEcp].
    exists u, (SimSpec.step s).
    split; [unfold bind; rewrite (calc_hfield_spec s k Hr);
            exact (calc_efield_spec _ k Hr1)|].
    split; [exact Hs|].
    split; [exact HHit|]. split; [exact HEit|].
    split; [exact HHcp|]. split; [exact HEcp|].
    split; [reflexivity|].
    destruct Hr as (_ & _ & _ & _ & _ & _ & _ & _ & _ & HkC).
    destruct Hr' as (_ & _ & _ & _ & _ & _ & _ & HkE' & HkH' & _).
    split; [|split; assumption].
    change (Sim._cfield (SimSpec.step s))
      with (Field.with_n (Field._n (Sim._cfield s) + 1) (Sim._cfield s)).
    rewrite HkC. reflexivity.
  - intros s Hwf Hn. destruct (simulate_spec s Hwf Hn) as [Hs Hr].
    exists (SimSpec.run s). split; [exact Hs|].
    destruct Hr as (_ & _ & _ & _ & _ & _ & _ & HkE & HkH & HkC).
    split; [|split; [|split]]; try assumption.
    unfold SimSpec.run. rewrite steps_cfield. reflexivity.
Qed.

Lemma sim_3_3_wf : SimSpec.wf Examples.sim_3_3.
Proof.
  assert (Hz : FieldSpec.wf (Field.mk 0 3 3 (np.zeros 3 3)))
    by (split; [apply np_zeros_wf|split; reflexivity]).
  split; [exact Hz|]. split; [exact Hz|]. split; [|repeat split].
  split; [|split; reflexivity]. split; [reflexivity|]. repeat constructor.
Qed.

Lemma sim_3_3_ready : SimSpec.ready Examples.sim_3_3 0.
Proof.
  destruct sim_3_3_wf as (HE & HH & HC & Hdims).
  split; [split; [exact HE|simpl; lia]|].
  split; [split; [exact HH|simpl; lia]|].
  split; [split; [exact HC|simpl; lia]|].
  repeat split.
Qed.

Lemma cfield_cursor_moves_without_copy_witness :
  (SimSpec.ready Examples.sim_3_3 0
   /\ 0 + 1 < Sim._num_n Examples.sim_3_3
   /\ 0 + 1 < Field._num_n (Sim._cfield Examples.sim_3_3))
  /\ (exists u s',
        (Sim._calc_hfield ;; Sim._calc_efield) Examples.sim_3_3 = (Ok tt, u)
        /\ Sim.simulate_body 0 Examples.sim_3_3 = (Ok tt, s')
        /\ Field.iterate (Sim._hfield u) = (Ok tt, Sim._hfield s')
        /\ Field.iterate (Sim._efield u) = (Ok tt, Sim._efield s')
        /\ FieldSpec.copied_forward (Sim._hfield u) (Sim._hfield s')
        /\ FieldSpec.copied_forward (Sim._efield u) (Sim._efield s')
        /\ Sim._cfield u = Sim._cfield Examples.sim_3_3
        /\ Sim._cfield s' = Field.with_n (0 + 1) (Sim._cfield Examples.sim_3_3)
        /\ Field._n (Sim._hfield s') = 0 + 1
        /\ Field._n (Sim._efield s') = 0 + 1)
  /\ (SimSpec.wf Examples.sim_3_3
      /\ 1 <= Sim._num_n Examples.sim_3_3
           <= Field._num_n (Sim._cfield Examples.sim_3_3))
  /\ exists s',
       Sim.simulate Examples.sim_3_3 = (Ok tt, s')
       /\ Field._field (Sim._cfield s') = Field._field (Sim._cfield Examples.sim_3_3)
       /\ Field._n (Sim._cfield s') = Sim._num_n Examples.sim_3_3 - 1
       /\ Field._n (Sim._hfield s') = Sim._num_n Examples.sim_3_3 - 1
       /\ Field._n (Sim._efield s') = Sim._num_n Examples.sim_3_3 - 1.
Proof.
  assert (Hn : 1 <= Sim._num_n Examples.sim_3_3
               <= Field._num_n (Sim._cfield Examples.sim_3_3)) by (simpl; lia).
  assert (H1 : 0 + 1 < Sim._num_n Examples.sim_3_3) by (simpl; lia).
  assert (H2 : 0 + 1 < Field._num_n (Sim._cfield Examples.sim_3_3)) by (simpl; lia).
  split; [split; [exact sim_3_3_ready|split; [exact H1|exact H2]]|].
  split; [exact (proj1 cfield_cursor_moves_without_copy Examples.sim_3_3 0 0
                       sim_3_3_ready H1 H2)|].
  split; [split; [exact sim_3_3_wf|exact Hn]|].
  exact (proj2 cfield_cursor_moves_without_copy Examples.sim_3_3 sim_3_3_wf Hn).
Defined.

(** ** The simulation: the two update equations *)

Lemma calc_hfield_value (s : Sim.t) (k i : Z) :
  SimSpec.ready s k -> 0 <= i < Sim._num_i s ->
  FieldSpec.value (Sim._hfield (SimSpec.calc_hfield s)) i = SimSpec.h_new s i.
Proof.
  intros (_ & HH & _ & _ & _ & _ & HHi & _) Hi.
  unfold SimSpec.calc_hfield. cbn [Sim._hfield Sim.with_hfield].
  rewrite <- HHi. apply value_row_of; [exact HH|lia].
Qed.

Lemma calc_efield_value (s : Sim.t) (k i : Z) :
  SimSpec.ready s k -> 0 <= i < Sim._num_i s ->
  FieldSpec.value (Sim._efield (SimSpec.calc_efield s)) i = SimSpec.e_new s i.
Proof.
  intros (HE & _ & _ & _ & HEi & _) Hi.
  unfold SimSpec.calc_efield. cbn [Sim._efield Sim.with_efield].
  rewrite <- HEi. apply value_row_of; [exact HE|lia].
Qed.

(** C2: a time step of [simulate()] at cursor [k] first stores, for every
    column [i] of [0, num_i), [H[i] - ch * (E[i+1] - E[i])] in [H[i]],
    read from the electric row as it was before the step, with [E[num_i]]
    read as zero; then it stores
    [c1 * E[i] + c2 * psi - c3 * (H[i] - H[i-1]) - c4 * J[i]] in [E[i]],
    read from the magnetic row just written, with [H[-1]] read as zero;
    [psi()] is zero.  Neither loop raises, and the step ends with the
    three cursor moves. *)
Theorem time_step_updates (s : Sim.t) (k j : Z) :
  SimSpec.ready s k -> k + 1 < Sim._num_n s ->
  k + 1 < Field._num_n (Sim._cfield s) ->
  let sH := SimSpec.calc_hfield s in
  let sE := SimSpec.calc_efield sH in
  Sim.psi s = (Ok 0%float, s)
  /\ Sim._calc_hfield s = (Ok tt, sH)
  /\ Sim._calc_efield sH = (Ok tt, sE)
  /\ Sim.simulate_body j s = (Ok tt, SimSpec.iterate_fields sE)
  /\ Sim._efield sH = Sim._efield s
  /\ Sim._hfield sE = Sim._hfield sH
  /\ (forall i, 0 <= i < Sim._num_i s ->
        Field.get_index i (Sim._hfield sH)
        = (Ok (FieldSpec.value (Sim._hfield s) i
               - Sim._h_calc_term2_prop_coeff s
                 * (FieldSpec.value (Sim._efield s) (i + 1)
                    - FieldSpec.value (Sim._efield s) i))%float,
           Sim._hfield sH))
  /\ (forall i, 0 <= i < Sim._num_i s ->
        Field.get_index i (Sim._efield sE)
        = (Ok (Sim._e_calc_term1_prop_coeff s * FieldSpec.value (Sim._efield s) i
               + Sim._e_calc_term2_prop_coeff s * 0
               - Sim._e_calc_term3_prop_coeff s
                 * (FieldSpec.value (Sim._hfield sH) i
                    - FieldSpec.value (Sim._hfield sH) (i - 1))
               - Sim._e_calc_term4_prop_coeff s
                 * FieldSpec.value (Sim._cfield s) i)%float,
           Sim._efield sE))
  /\ (forall i,
        Field.get_index i (Sim._efield s)
        = (Ok (FieldSpec.value (Sim._efield s) i), Sim._efield s)
        /\ Field.get_index i (Sim._hfield sH)
           = (Ok (FieldSpec.value (Sim._hfield sH) i), Sim._hfield sH)
        /\ Field.get_index i (Sim._cfield s)
           = (Ok (FieldSpec.value (Sim._cfield s) i), Sim._cfield s))
  /\ FieldSpec.value (Sim._efield s) (Sim._num_i s) = 0%float
  /\ FieldSpec.value (Sim._hfield sH) (-1) = 0%float.
Proof.
  intros Hr Hk Hc sH sE.
  pose proof (calc_hfield_ready _ _ Hr) as Hr1. fold sH in Hr1.
  pose proof (calc_efield_ready _ _ Hr1) as Hr2. fold sE in Hr2.
  pose proof Hr as (HE & HH & HC & HEn & HEi & HHn & HHi & _).
  pose proof Hr1 as (_ & HH1 & _).
  pose proof Hr2 as (HE2 & _).
  split; [reflexivity|].
  split; [exact (calc_hfield_spec s k Hr)|].
  split; [exact (calc_efield_spec sH k Hr1)|].
  split; [exact (proj1 (simulate_body_spec s k j Hr Hk Hc))|].
  split; [reflexivity|]. split; [reflexivity|].
  split; [|split; [|split; [|split]]].
  - intros i Hi. rewrite (get_index_live _ i HH1).
    unfold sH. rewrite (calc_hfield_value s k i Hr Hi). reflexivity.
  - intros i Hi. rewrite (get_index_live _ i HE2).
    unfold sE. rewrite (calc_efield_value sH k i Hr1 Hi). reflexivity.
  - intros i. split; [|split]; apply get_index_live; assumption.
  - apply value_out. right. lia.
  - apply value_out. left. lia.
Qed.

Lemma time_step_updates_witness :
  (SimSpec.ready Examples.sim_3_3 0
   /\ 0 + 1 < Sim._num_n Examples.sim_3_3
   /\ 0 + 1 < Field._num_n (Sim._cfield Examples.sim_3_3))
  /\ Sim._calc_hfield Examples.sim_3_3
     = (Ok tt, SimSpec.calc_hfield Examples.sim_3_3)
  /\ Sim._calc_efield (SimSpec.calc_hfield Examples.sim_3_3)
     = (Ok tt, SimSpec.calc_efield (SimSpec.calc_hfield Examples.sim_3_3))
  /\ Sim.simulate_body 0 Examples.sim_3_3
     = (Ok tt,
        SimSpec.iterate_fields
          (SimSpec.calc_efield (SimSpec.calc_hfield Examples.sim_3_3))).
Proof.
  assert (H1 : 0 + 1 < Sim._num_n Examples.sim_3_3) by (simpl; lia).
  assert (H2 : 0 + 1 < Field._num_n (Sim._cfield Examples.sim_3_3)) by (simpl; lia).
  split; [split; [exact sim_3_3_ready|split; [exact H1|exact H2]]|].
  pose proof (time_step_updates Examples.sim_3_3 0 0 sim_3_3_ready H1 H2) as H.
  cbv zeta in H. destruct H as (_ & Hh & He & Hb & _).
  split; [exact Hh|]. split; [exact He|exact Hb].
Defined.

(** The first time step of [sim_3_3], whose coefficients are 1, 1, 0.5,
    0.5 and 0.5 and whose current is 1 at column 1: the magnetic row
    stays zero and the electric row becomes [0, -0.5, 0]; the second step
    spreads it to the two neighbours. *)
Example sim_3_3_run :
  (let (r, s') := Sim.simulate Examples.sim_3_3 in
   (r, np.data (Field._field (Sim._efield s')),
       np.data (Field._field (Sim._hfield s'))))
  = (Ok tt,
     [[0; -0.5; 0]; [-0.125; -0.25; -0.125]; [-0.125; -0.25; -0.125]]%float,
     [[0; 0; 0]; [0.25; -0.25; 0]; [0.25; -0.25; 0]]%float).
Proof. vm_compute. reflexivity. Qed.

(** ** The simulation: construction *)

Lemma py_div_inv (x y q : float) : py_div x y = Ok q -> q = (x / y)%float.
Proof. unfold py_div. destruct (y =? 0)%float; [discriminate|]. intros [= <-]. reflexivity. Qed.

Lemma sim_init_inv
    (e0 ei m0 dt dz : float) (nn ni : Z) (J : Field.t) (su chi0 : float) (s : Sim.t) :
  Sim.__init__ e0 ei m0 dt dz nn ni J su chi0 = Ok s ->
  0 <= nn /\ 0 <= ni
  /\ s = Sim.mk e0 ei m0 dt dz J su chi0 nn ni
           (Field.mk 0 nn ni (np.zeros (Z.to_nat nn) (Z.to_nat ni)))
           (Field.mk 0 nn ni (np.zeros (Z.to_nat nn) (Z.to_nat ni)))
           (ei / (ei + chi0)) (1 / (ei + chi0))
           (dt / (e0 * dz * (ei + chi0))) (dt / (e0 * (ei + chi0)))
           (dt / (m0 * dz)).
Proof.
  unfold Sim.__init__, rbind.
  destruct (Field.__init__ nn ni None) as [f|e] eqn:Hf; [|discriminate].
  apply init_inv in Hf as (Hn & Hi & ->).
  destruct (py_div ei (ei + chi0)) as [c1|] eqn:H1; [|discriminate].
  destruct (py_div 1 (ei + chi0)) as [c2|] eqn:H2; [|discriminate].
  destruct (py_div dt (e0 * dz * (ei + chi0))) as [c3|] eqn:H3; [|discriminate].
  destruct (py_div dt (e0 * (ei + chi0))) as [c4|] eqn:H4; [|discriminate].
  destruct (py_div dt (m0 * dz)) as [ch|] eqn:H5; [|discriminate].
  apply py_div_inv in H1, H2, H3, H4, H5. subst.
  intros [= <-]. auto.
Qed.

Lemma zeros_all_zero (n nn ni : Z) (r c : nat) :
  is_zero (np.cell (Field._field (Field.mk n nn ni (np.zeros (Z.to_nat nn) (Z.to_nat ni)))) r c).
Proof. simpl. rewrite zeros_cell. apply is_zero_0. Qed.

(** Marking one cell of row 0 of a zero grid leaves an impulse. *)
Lemma set_index_impulse (f f' : Field.t) (p : Z) (v : float) :
  FieldSpec.live f -> Field._n f = 0 -> SimSpec.all_zero f ->
  0 <= p < Field._num_i f ->
  Field.__setitem__ p v f = (Ok tt, f') ->
  FieldSpec.wf f' /\ Field._num_n f' = Field._num_n f
  /\ Field._num_i f' = Field._num_i f /\ SimSpec.impulse f' p.
Proof.
  intros Hl Hn Hz Hp Hset.
  unfold Field.__setitem__ in Hset. rewrite set_index_live in Hset by assumption.
  injection Hset as <-.
  destruct (live_lookup f Hl) as [Hrow Hlen].
  assert (Hl' : FieldSpec.live
                  (FieldSpec.with_cur_row (<[Z.to_nat p := v]> (FieldSpec.cur_row f)) f))
    by (apply with_cur_row_live; [exact Hl|rewrite length_insert; exact Hlen]).
  split; [apply Hl'|]. split; [reflexivity|]. split; [reflexivity|].
  intros r c Hrc. unfold FieldSpec.with_cur_row. rewrite Hn.
  destruct (decide (r = 0%nat)) as [->|Hne].
  - unfold np.cell. simpl. rewrite list_lookup_insert_eq.
    + simpl. rewrite list_lookup_insert_ne by lia.
      specialize (Hz (Z.to_nat (Field._n f)) c). unfold np.cell in Hz.
      rewrite Hrow in Hz. exact Hz.
    + destruct Hl as [((Hdl & _) & Hnn & _) Hlt]. lia.
  - rewrite cell_with_row_ne by (change (Z.to_nat 0) with 0%nat; exact Hne).
    apply Hz.
Qed.

(** ** Scenario B: an impulse spreads one cell per time step *)

Example cfield_6_11_built :
  (f <-r Field.__init__ 6 11 None ;;
   match Field.__setitem__ 5 1%float f with
   | (Ok _, f') => Ok f'
   | (Raise e, _) => Raise e
   end) = Ok Examples.cfield_6_11.
Proof. reflexivity. Qed.

(** C6, as stated, fails when a coefficient overflows: with the time step
    [2.0**600] and the space step [2.0**-600] (the other constants 1, the
    susceptibilities 0) the third and the magnetic coefficient are
    infinite, the first magnetic update computes [0 - inf * (0 - 0)],
    which is a NaN, and after [simulate()] the electric cell at time row 0,
    column 0, five cells away from the impulse, is a NaN and not zero. *)
Lemma overflowed_coefficient_leaves_the_cone :
  Field.__init__ 6 11 None = Ok (Field.mk 0 6 11 (np.zeros 6 11))
  /\ Field.__setitem__ 5 1%float (Field.mk 0 6 11 (np.zeros 6 11))
     = (Ok tt, Examples.cfield_6_11)
  /\ Sim.__init__ 1 1 1 0x1p+600 0x1p-600 6 11 Examples.cfield_6_11 0 0
     = Ok Examples.sim_overflow
  /\ (Sim.simulate Examples.sim_overflow).1 = Ok tt
  /\ Z.abs (Z.of_nat 0 - 5) > Z.of_nat 0
  /\ np.cell (Field._field (Sim._efield (Sim.simulate Examples.sim_overflow).2)) 0 0
     = nan
  /\ ~ is_zero
         (np.cell (Field._field (Sim._efield (Sim.simulate Examples.sim_overflow).2))
                  0 0).
Proof.
  split; [reflexivity|]. split; [reflexivity|].
  split; [reflexivity|]. split; [vm_compute; reflexivity|].
  split; [lia|]. split; [vm_compute; reflexivity|].
  unfold is_zero. vm_compute. discriminate.
Qed.

(** C6, amended: for a simulation constructed with a current grid of size
    (6, 11) that is zero except for one value at column 5 of time row 0,
    and whose five coefficients are finite (none is an infinity or a NaN),
    [simulate()] raises nothing and leaves an electric buffer whose every
    time row [n] is zero at every column [i] with [|i - 5| > n]. *)
Theorem impulse_at_5_stays_in_cone
    (e0 ei m0 dt dz su chi0 v : float) (J0 J : Field.t) (s : Sim.t) :
  Field.__init__ 6 11 None = Ok J0 ->
  Field.__setitem__ 5 v J0 = (Ok tt, J) ->
  Sim.__init__ e0 ei m0 dt dz 6 11 J su chi0 = Ok s ->
  SimSpec.finite_coeffs s ->
  exists s',
    Sim.simulate s = (Ok tt, s')
    /\ forall n i : nat,
         (n < 6)%nat -> (i < 11)%nat ->
         Z.abs (Z.of_nat i - 5) > Z.of_nat n ->
         is_zero (np.cell (Field._field (Sim._efield s')) n i).
Proof.
  intros HJ0 HJ Hs Hfin.
  pose proof (init_wf _ _ _ HJ0) as HwfJ0.
  apply init_inv in HJ0 as (_ & _ & ->).
  assert (HlJ0 : FieldSpec.live
                   (Field.mk 0 6 11 (np.zeros (Z.to_nat 6) (Z.to_nat 11))))
    by (split; [exact HwfJ0|simpl; lia]).
  assert (HzJ0 : SimSpec.all_zero
                   (Field.mk 0 6 11 (np.zeros (Z.to_nat 6) (Z.to_nat 11))))
    by (intros r c; apply zeros_all_zero).
  assert (Hp : 0 <= 5 < 11) by lia.
  destruct (set_index_impulse _ J 5 v HlJ0 eq_refl HzJ0 Hp HJ)
    as (HwfJ & HJn & HJi & Himp).
  apply sim_init_inv in Hs as (_ & _ & ->).
  destruct (impulse_stays_in_cone 5
              (Sim.mk e0 ei m0 dt dz J su chi0 6 11
                 (Field.mk 0 6 11 (np.zeros (Z.to_nat 6) (Z.to_nat 11)))
                 (Field.mk 0 6 11 (np.zeros (Z.to_nat 6) (Z.to_nat 11)))
                 (ei / (ei + chi0)) (1 / (ei + chi0))
                 (dt / (e0 * dz * (ei + chi0))) (dt / (e0 * (ei + chi0)))
                 (dt / (m0 * dz))))
    as [Hsim Hcone].
  - split; [exact HwfJ0|]. split; [exact HwfJ0|]. split; [exact HwfJ|]. repeat split.
  - cbn [Sim._num_n Sim._cfield]. rewrite HJn. simpl. lia.
  - exact Hfin.
  - exact Himp.
  - exact HzJ0.
  - exact HzJ0.
  - eexists. split; [exact Hsim|].
    intros n i Hn Hi Hfar. apply Hcone; cbn [Sim._num_n Sim._num_i]; lia.
Qed.

Lemma sim_6_11_finite : SimSpec.finite_coeffs Examples.sim_6_11.
Proof. unfold SimSpec.finite_coeffs, finite. vm_compute. tauto. Qed.

Lemma impulse_at_5_stays_in_cone_witness :
  (Field.__init__ 6 11 None = Ok (Field.mk 0 6 11 (np.zeros 6 11))
   /\ Field.__setitem__ 5 1%float (Field.mk 0 6 11 (np.zeros 6 11))
      = (Ok tt, Examples.cfield_6_11)
   /\ Sim.__init__ 1 1 1 0.5 1 6 11 Examples.cfield_6_11 0 0 = Ok Examples.sim_6_11
   /\ SimSpec.finite_coeffs Examples.sim_6_11)
  /\ exists s',
       Sim.simulate Examples.sim_6_11 = (Ok tt, s')
       /\ forall n i : nat,
            (n < 6)%nat -> (i < 11)%nat ->
            Z.abs (Z.of_nat i - 5) > Z.of_nat n ->
            is_zero (np.cell (Field._field (Sim._efield s')) n i).
Proof.
  split; [repeat split; try reflexivity; apply sim_6_11_finite|].
  exact (impulse_at_5_stays_in_cone 1 1 1 0.5 1 0 0 1
           (Field.mk 0 6 11 (np.zeros 6 11)) Examples.cfield_6_11 Examples.sim_6_11
           eq_refl eq_refl eq_refl sim_6_11_finite).
Defined.

(** The electric buffer [sim_6_11] leaves: the impulse at column 5 reaches
    one more cell on each side in every time row. *)
Example sim_6_11_first_rows :
  take 2 (np.data (Field._field (Sim._efield (Sim.simulate Examples.sim_6_11).2)))
  = [[0; 0; 0; 0; 0; -0.5; 0; 0; 0; 0; 0];
     [0; 0; 0; 0; -0.125; -0.25; -0.125; 0; 0; 0; 0]]%float.
Proof. vm_compute. reflexivity. Qed.

(** ** The simulation: the coefficients *)

Section Coefficients.
Import Sim SimSpec.

Lemma same_coeffs_refl (s : t) : same_coeffs s s.
Proof. reflexivity. Qed.

Lemma same_coeffs_trans (s1 s2 s3 : t) :
  same_coeffs s1 s2 -> same_coeffs s2 s3 -> same_coeffs s1 s3.
Proof. unfold same_coeffs. congruence. Qed.

Lemma on_efield_coeffs {A} (m : M Field.t A) : preserves same_coeffs (on_efield m).
Proof. intros s. unfold on_efield. destruct (m (_efield s)). reflexivity. Qed.

Lemma on_hfield_coeffs {A} (m : M Field.t A) : preserves same_coeffs (on_hfield m).
Proof. intros s. unfold on_hfield. destruct (m (_hfield s)). reflexivity. Qed.

Lemma on_cfield_coeffs {A} (m : M Field.t A) : preserves same_coeffs (on_cfield m).
Proof. intros s. unfold on_cfield. destruct (m (_cfield s)). reflexivity. Qed.

Ltac keeps_coeffs :=
  repeat first
    [ apply on_efield_coeffs | apply on_hfield_coeffs | apply on_cfield_coeffs
    | apply (preserves_ret _ same_coeffs_refl)
    | apply (preserves_get _ same_coeffs_refl)
    | apply (preserves_mfor _ same_coeffs_refl same_coeffs_trans); intros ?
    | apply (preserves_bind _ same_coeffs_trans); [|intros ?] ].



Lemma calc_hfield_coeffs : preserves same_coeffs _calc_hfield.
Proof. unfold _calc_hfield, for_range, _calc_hfield_body. keeps_coeffs. Qed.

Lemma calc_efield_coeffs : preserves same_coeffs _calc_efield.
Proof. unfold _calc_efield, for_range, _calc_efield_body, psi, _current. keeps_coeffs. Qed.

Lemma iterate_cfield_coeffs : preserves same_coeffs _iterate_cfield.
Proof. unfold _iterate_cfield. keeps_coeffs. Qed.

Lemma simulate_body_coeffs (j : Z) : preserves same_coeffs (simulate_body j).
Proof.
  unfold simulate_body. keeps_coeffs;
    first [apply calc_hfield_coeffs|apply calc_efield_coeffs|apply iterate_cfield_coeffs].
Qed.


End Coefficients.



(** A zero divisor stops the construction: Python raises
    [ZeroDivisionError] for [e_inf + chi0 == 0], as with the constants of
    [example.py]. *)
Example init_zero_permittivity :
  Sim.__init__ 1 0 1 0.5 1 3 3 Examples.cfield_3_3 0 0 = Raise ZeroDivisionError.
Proof. reflexivity. Qed.

(** ** The simulation: running it twice *)

Lemma set_time_index_field (n : Z) (f : Field.t) :
  Field._field (Field.set_time_index n f).2 = Field._field f.
Proof.
  unfold Field.set_time_index, bind, get, raise, put.
  destruct ((n <? 0) || (n >=? Field._num_n f)); reflexivity.
Qed.

(** C9: [simulate()] opens with three [set_time_index(0)] calls, which
    leave the buffers of the three grids as they are, and clears nothing;
    so a second run is not a fresh run: on [sim_3_3], built by the
    constructor with a unit current at column 1 of time row 0, the
    electric buffer after a second [simulate()] differs from the one a
    single [simulate()] leaves. *)
Theorem second_run_is_not_fresh :
  (forall s : Sim.t,
     Sim.simulate s
     = ((Sim.on_efield (Field.set_time_index 0) ;;
         Sim.on_hfield (Field.set_time_index 0) ;;
         Sim.on_cfield (Field.set_time_index 0)) ;;
        self <- get ;;
        for_range (Sim._num_n self - 1) Sim.simulate_body) s
     /\ let s0 := ((Sim.on_efield (Field.set_time_index 0) ;;
                    Sim.on_hfield (Field.set_time_index 0) ;;
                    Sim.on_cfield (Field.set_time_index 0)) s).2 in
        Field._field (Sim._efield s0) = Field._field (Sim._efield s)
        /\ Field._field (Sim._hfield s0) = Field._field (Sim._hfield s)
        /\ Field._field (Sim._cfield s0) = Field._field (Sim._cfield s))
  /\ exists s1 s2 : Sim.t,
       Sim.__init__ 1 1 1 0.5 1 3 3 Examples.cfield_3_3 0 0 = Ok Examples.sim_3_3
       /\ Sim.simulate Examples.sim_3_3 = (Ok tt, s1)
       /\ Sim.simulate s1 = (Ok tt, s2)
       /\ np.data (Field._field (Sim._efield s1))
          = [[0; -0.5; 0]; [-0.125; -0.25; -0.125]; [-0.125; -0.25; -0.125]]%float
       /\ np.data (Field._field (Sim._efield s2))
          = [[-0.125; -0.75; -0.125]; [-0.40625; -0.1875; -0.375];
             [-0.40625; -0.1875; -0.375]]%float
       /\ Field._field (Sim._efield s2) <> Field._field (Sim._efield s1).
Proof.
  split.
  - intros s. split.
    + unfold Sim.simulate, bind.
      destruct (Sim.on_efield (Field.set_time_index 0) s) as [[[]|e] s1]; [|reflexivity].
      destruct (Sim.on_hfield (Field.set_time_index 0) s1) as [[[]|e] s2]; [|reflexivity].
      destruct (Sim.on_cfield (Field.set_time_index 0) s2) as [[[]|e] s3]; reflexivity.
    + unfold bind, Sim.on_efield, Sim.on_hfield, Sim.on_cfield.
      pose proof (set_time_index_field 0 (Sim._efield s)) as HE.
      destruct (Field.set_time_index 0 (Sim._efield s)) as [[[]|e] fE]; simpl in *;
        [|auto].
      pose proof (set_time_index_field 0 (Sim._hfield s)) as HH.
      destruct (Field.set_time_index 0 (Sim._hfield s)) as [[[]|e] fH]; simpl in *;
        [|auto].
      pose proof (set_time_index_field 0 (Sim._cfield s)) as HC.
      destruct (Field.set_time_index 0 (Sim._cfield s)) as [[[]|e] fC]; simpl in *;
        auto.
  - eexists. eexists.
    split; [reflexivity|].
    split; [vm_compute; reflexivity|].
    split; [vm_compute; reflexivity|].
    split; [reflexivity|]. split; [reflexivity|].
    intros H. discriminate H.
Qed.

(** ** The grid without a time row *)

(** C10, as stated, fails on [Field(0, 1)], a grid constructed with
    [num_n = 0] and no buffer: [get_index(0)] passes the column check
    and indexes row 0 of a buffer that has no row, which raises
    [IndexError]. *)
Lemma get_index_raises_without_rows :
  Field.__init__ 0 1 None = Ok Examples.grid_0_1
  /\ Field._num_n Examples.grid_0_1 = 0
  /\ Field.get_index 0 Examples.grid_0_1 = (Raise IndexError, Examples.grid_0_1).
Proof. repeat split. Qed.

(** C10, amended: a grid constructed with [num_n = 0] and no buffer has
    time cursor 0, so [0 <= n < num_n] does not hold for it at creation;
    on such a grid [get_field()] with no argument raises [IndexError],
    [get_index(i)] returns zero for every [i] outside [0, num_i), and
    raises [IndexError] for every [i] inside.  With [num_i] at its default
    0 as well, as in [Field()], [get_index(i)] returns zero for every
    [i]. *)
Theorem grid_without_rows (num_i : Z) (f : Field.t) :
  Field.__init__ 0 num_i None = Ok f ->
  Field._n f = 0
  /\ ~ (0 <= Field._n f < Field._num_n f)
  /\ Field.get_field (-1) f = (Raise IndexError, f)
  /\ (forall i, i < 0 \/ i >= num_i -> Field.get_index i f = (Ok 0%float, f))
  /\ (forall i, 0 <= i < num_i -> Field.get_index i f = (Raise IndexError, f))
  /\ (num_i = 0 -> forall i, Field.get_index i f = (Ok 0%float, f)).
Proof.
  intros Hf. apply init_inv in Hf as (_ & Hi & ->). simpl.
  split; [reflexivity|]. split; [lia|]. split; [reflexivity|].
  split; [|split].
  - intros i H. apply get_index_out. simpl. exact H.
  - intros i H. unfold Field.get_index, bind, get, lift. simpl.
    destruct (Z.ltb_spec i 0), (Z.geb_spec i num_i); simpl; try lia.
    unfold np.getitem. cbn [np.shape0 np.shape1 np.zeros].
    rewrite (np_index_in (Z.to_nat num_i) i) by lia. reflexivity.
  - intros -> i. apply get_index_out. simpl. lia.
Qed.

Lemma grid_without_rows_witness :
  Field.__init__ 0 0 None = Ok Examples.grid_default
  /\ Field._n Examples.grid_default = 0
  /\ Field.get_field (-1) Examples.grid_default
     = (Raise IndexError, Examples.grid_default)
  /\ forall i, Field.get_index i Examples.grid_default
               = (Ok 0%float, Examples.grid_default).
Proof.
  split; [reflexivity|].
  destruct (grid_without_rows 0 Examples.grid_default eq_refl)
    as (Hn & _ & Hrow & _ & _ & Hall).
  split; [exact Hn|]. split; [exact Hrow|exact (Hall eq_refl)].
Defined.

(** * Further properties of the grid *)

Lemma zeros_getrow (nn ni : nat) (n : Z) :
  0 <= n < Z.of_nat nn ->
  np.getrow (np.zeros nn ni) n = Ok (replicate ni 0%float).
Proof.
  intros Hn. unfold np.getrow. simpl. rewrite np_index_in by lia.
  rewrite lookup_replicate_2 by lia. reflexivity.
Qed.

Lemma zeros_live (nn ni : Z) :
  0 < nn -> 0 <= ni ->
  FieldSpec.live (Field.mk 0 nn ni (np.zeros (Z.to_nat nn) (Z.to_nat ni))).
Proof.
  intros Hn Hi. split; [split; [apply np_zeros_wf|simpl; lia]|simpl; lia].
Qed.

Lemma zeros_value (nn ni i : Z) :
  FieldSpec.value (Field.mk 0 nn ni (np.zeros (Z.to_nat nn) (Z.to_nat ni))) i
  = 0%float.
Proof.
  unfold FieldSpec.value, FieldSpec.cur_row. simpl.
  destruct ((i <? 0) || (i >=? ni)); [reflexivity|].
  destruct (replicate (Z.to_nat nn) (replicate (Z.to_nat ni) 0%float) !! Z.to_nat 0)
    as [row|] eqn:Hrow; simpl; [|reflexivity].
  apply lookup_replicate in Hrow as [-> _].
  destruct (replicate (Z.to_nat ni) 0%float !! Z.to_nat i) as [x|] eqn:Hx;
    simpl; [|reflexivity].
  apply lookup_replicate in Hx as [-> _]. reflexivity.
Qed.

(** X1: [Field(num_n, num_i)] raises [ValueError] exactly when
    [np.zeros] refuses the shape: a dimension is negative, or eight bytes
    times the dimensions that are not zero is more than [2^63 - 1] (so
    any dimension of [2^60] or more is refused); it raises nothing else.
    For a shape that is accepted (the allocation being taken to succeed)
    the grid has its cursor at 0, every row [get_field(n)] returns is
    [num_i] zeros, and, when there is a row, [get_index(i)] is zero at
    every column. *)
Theorem constructor_gives_zero_grid (num_n num_i : Z) :
  (Field.__init__ num_n num_i None = Raise ValueError
   <-> num_n < 0 \/ num_i < 0 \/ np.max_intp < np.nbytes num_n num_i)
  /\ (forall e, Field.__init__ num_n num_i None = Raise e -> e = ValueError)
  /\ (0 <= num_n -> 0 <= num_i ->
      1152921504606846976 <= num_n \/ 1152921504606846976 <= num_i ->
      Field.__init__ num_n num_i None = Raise ValueError)
  /\ (0 <= num_n -> 0 <= num_i -> np.nbytes num_n num_i <= np.max_intp ->
      exists f,
        Field.__init__ num_n num_i None = Ok f
        /\ Field.get_time_index f = (Ok 0, f)
        /\ (forall n, 0 <= n < num_n ->
              Field.get_field n f = (Ok (replicate (Z.to_nat num_i) 0%float), f))
        /\ (0 < num_n -> forall i, Field.get_index i f = (Ok 0%float, f))).
Proof.
  split; [|split; [|split]].
  - rewrite <- np_shape_ok_false. unfold Field.__init__.
    destruct (np.shape_ok num_n num_i); simpl; split; intros Hx;
      try reflexivity; discriminate Hx.
  - intros e. unfold Field.__init__.
    destruct (np.shape_ok num_n num_i); simpl; [discriminate|].
    intros [= <-]. reflexivity.
  - intros Hn Hi Hbig. apply init_refused, np_shape_ok_false.
    destruct (np_nbytes_lower num_n num_i Hn Hi) as [H1 H2].
    right. right. unfold np.max_intp. lia.
  - intros Hn Hi Hb.
    assert (Hs : np.shape_ok num_n num_i = true)
      by (apply np_shape_ok_spec; auto).
    eexists. split; [apply init_zeros; exact Hs|].
    split; [reflexivity|]. split.
    + intros n Hr. unfold Field.get_field, bind, get, lift, raise. simpl.
      destruct (Z.eqb_spec n (-1)); [lia|].
      destruct (Z.ltb_spec n 0), (Z.geb_spec n num_n); simpl; try lia.
      rewrite zeros_getrow by lia. reflexivity.
    + intros Hpos i. rewrite get_index_live by (apply zeros_live; assumption).
      rewrite zeros_value. reflexivity.
Qed.

Lemma constructor_gives_zero_grid_witness :
  (0 <= 2 /\ 0 <= 3 /\ np.nbytes 2 3 <= np.max_intp)
  /\ (exists f,
        Field.__init__ 2 3 None = Ok f
        /\ Field.get_time_index f = (Ok 0, f)
        /\ (forall n, 0 <= n < 2 ->
              Field.get_field n f = (Ok (replicate (Z.to_nat 3) 0%float), f))
        /\ (0 < 2 -> forall i, Field.get_index i f = (Ok 0%float, f)))
  /\ (0 <= 0 /\ 0 <= 1152921504606846976
      /\ (1152921504606846976 <= 0 \/ 1152921504606846976 <= 1152921504606846976))
  /\ Field.__init__ 0 1152921504606846976 None = Raise ValueError.
Proof.
  assert (H2 : 0 <= 2) by lia. assert (H3 : 0 <= 3) by lia.
  assert (Hb : np.nbytes 2 3 <= np.max_intp) by (vm_compute; discriminate).
  assert (H0 : 0 <= 0) by lia.
  assert (Hp : 0 <= 1152921504606846976) by lia.
  assert (Hbig : 1152921504606846976 <= 0
                 \/ 1152921504606846976 <= 1152921504606846976) by (right; lia).
  split; [split; [exact H2|split; [exact H3|exact Hb]]|].
  split; [exact (proj2 (proj2 (proj2 (constructor_gives_zero_grid 2 3))) H2 H3 Hb)|].
  split; [split; [exact H0|split; [exact Hp|exact Hbig]]|].
  exact (proj1 (proj2 (proj2 (constructor_gives_zero_grid 0 1152921504606846976)))
           H0 Hp Hbig).
Defined.

(** X2: for [0 <= n < num_n], [set_time_index(n)] followed by
    [get_time_index()] returns [n], and only the cursor has changed; for
    [n < 0] or [n >= num_n], [set_time_index(n)] raises [IndexError] and
    the grid, cursor included, is as before. *)
Theorem cursor_set_then_get (f : Field.t) (n : Z) :
  (0 <= n < Field._num_n f ->
   (Field.set_time_index n ;; Field.get_time_index) f
   = (Ok n, Field.mk n (Field._num_n f) (Field._num_i f) (Field._field f)))
  /\ (n < 0 \/ n >= Field._num_n f ->
      Field.set_time_index n f = (Raise IndexError, f)
      /\ (Field.set_time_index n ;; Field.get_time_index) f = (Raise IndexError, f)).
Proof.
  split.
  - intros H. unfold bind. rewrite set_time_index_ok by exact H. reflexivity.
  - intros H. unfold bind. rewrite set_time_index_out by exact H. split; reflexivity.
Qed.

Lemma cursor_set_then_get_witness :
  0 <= 1 < Field._num_n Examples.grid_3_4
  /\ (Field.set_time_index 1 ;; Field.get_time_index) Examples.grid_3_4
     = (Ok 1, Field.mk 1 (Field._num_n Examples.grid_3_4)
                (Field._num_i Examples.grid_3_4) (Field._field Examples.grid_3_4))
  /\ (3 < 0 \/ 3 >= Field._num_n Examples.grid_3_4)
  /\ Field.set_time_index 3 Examples.grid_3_4 = (Raise IndexError, Examples.grid_3_4).
Proof.
  assert (H1 : 0 <= 1 < Field._num_n Examples.grid_3_4) by (simpl; lia).
  assert (H3 : 3 < 0 \/ 3 >= Field._num_n Examples.grid_3_4) by (right; simpl; lia).
  split; [exact H1|].
  split; [exact (proj1 (cursor_set_then_get Examples.grid_3_4 1) H1)|].
  split; [exact H3|].
  exact (proj1 (proj2 (cursor_set_then_get Examples.grid_3_4 3) H3)).
Defined.

Lemma value_after_insert (f : Field.t) (c : nat) (v : float) (j : Z) :
  FieldSpec.live f -> (c < Z.to_nat (Field._num_i f))%nat ->
  FieldSpec.value
    (FieldSpec.with_cur_row (<[c := v]> (FieldSpec.cur_row f)) f) j
  = if decide (0 <= j /\ Z.to_nat j = c) then v else FieldSpec.value f j.
Proof.
  intros Hl Hc. destruct (live_lookup f Hl) as [_ Hlen].
  unfold FieldSpec.value. rewrite cur_row_with_cur_row by exact Hl. simpl.
  destruct (Z.ltb_spec j 0), (Z.geb_spec j (Field._num_i f)); simpl.
  - destruct (decide _) as [[? ?]|]; [lia|reflexivity].
  - destruct (decide _) as [[? ?]|]; [lia|reflexivity].
  - destruct (decide _) as [[? ?]|]; [lia|reflexivity].
  - destruct (decide _) as [[_ Heq]|Hne].
    + rewrite Heq, list_lookup_insert_eq by lia. reflexivity.
    + rewrite list_lookup_insert_ne by lia. reflexivity.
Qed.

(** X3: on a grid whose cursor addresses a row, for [0 <= i < num_i],
    [f[i] = v] raises nothing and [f[i]] then returns [v]; every other
    column reads as before, the cursor stays, and no other row of the
    buffer changes. *)
Theorem cell_write_then_read (f : Field.t) (i : Z) (v : float) :
  FieldSpec.live f -> 0 <= i < Field._num_i f ->
  exists f',
    Field.__setitem__ i v f = (Ok tt, f')
    /\ Field.__getitem__ i f' = (Ok v, f')
    /\ (forall j, j <> i -> (Field.__getitem__ j f').1 = (Field.__getitem__ j f).1)
    /\ Field._n f' = Field._n f
    /\ (forall r, r <> Z.to_nat (Field._n f) ->
          np.data (Field._field f') !! r = np.data (Field._field f) !! r).
Proof.
  intros Hl Hi. destruct (live_lookup f Hl) as [_ Hlen].
  exists (FieldSpec.with_cur_row (<[Z.to_nat i := v]> (FieldSpec.cur_row f)) f).
  assert (Hl' : FieldSpec.live
                  (FieldSpec.with_cur_row (<[Z.to_nat i := v]> (FieldSpec.cur_row f)) f))
    by (apply with_cur_row_live; [exact Hl|rewrite length_insert; exact Hlen]).
  split; [apply set_index_live; assumption|].
  unfold Field.__getitem__. split; [|split; [|split]].
  - rewrite get_index_live by exact Hl'. rewrite value_after_insert by (exact Hl || lia).
    destruct (decide _) as [_|Hne]; [reflexivity|lia].
  - intros j Hj. rewrite !get_index_live by assumption. simpl.
    rewrite value_after_insert by (exact Hl || lia).
    destruct (decide _) as [[? ?]|_]; [lia|reflexivity].
  - reflexivity.
  - intros r Hr. simpl. apply list_lookup_insert_ne. congruence.
Qed.

Lemma marked_grid_live : FieldSpec.live Examples.marked_grid.
Proof.
  split; [split; [split; [reflexivity|repeat constructor]|split; reflexivity]|].
  simpl. lia.
Qed.

Lemma cell_write_then_read_witness :
  (FieldSpec.live Examples.marked_grid /\ 0 <= 2 < Field._num_i Examples.marked_grid)
  /\ exists f',
       Field.__setitem__ 2 4%float Examples.marked_grid = (Ok tt, f')
       /\ Field.__getitem__ 2 f' = (Ok 4%float, f')
       /\ (forall j, j <> 2 ->
             (Field.__getitem__ j f').1 = (Field.__getitem__ j Examples.marked_grid).1)
       /\ Field._n f' = Field._n Examples.marked_grid
       /\ (forall r, r <> Z.to_nat (Field._n Examples.marked_grid) ->
             np.data (Field._field f') !! r
             = np.data (Field._field Examples.marked_grid) !! r).
Proof.
  assert (Hi : 0 <= 2 < Field._num_i Examples.marked_grid) by (simpl; lia).
  split; [split; [exact marked_grid_live|exact Hi]|].
  exact (cell_write_then_read Examples.marked_grid 2 4%float marked_grid_live Hi).
Defined.



Lemma set_field_explicit (f : Field.t) (row : list float) (n : Z) :
  FieldSpec.wf f -> Z.of_nat (length row) = Field._num_i f ->
  0 <= n < Field._num_n f ->
  Field.set_field row n f = (Ok tt, FieldSpec.with_row (Z.to_nat n) row f).
Proof.
  intros (Hwf & Hnn & Hni) Hlen Hn.
  unfold Field.set_field, bind, get, lift, put, raise.
  rewrite Hlen, Z.eqb_refl. simpl.
  destruct (Z.eqb_spec n (-1)); [lia|].
  destruct (Z.ltb_spec n 0), (Z.geb_spec n (Field._num_n f)); simpl; try lia.
  unfold np.setrow. rewrite np_index_in by lia.
  replace (length row =? np.shape1 (Field._field f))%nat with true
    by (symmetry; apply Nat.eqb_eq; lia).
  reflexivity.
Qed.

Lemma get_field_explicit (f : Field.t) (n : Z) :
  n <> -1 -> 0 <= n < Field._num_n f ->
  Field.get_field n f = (np.getrow (Field._field f) n, f).
Proof.
  intros Hne Hn. unfold Field.get_field, bind, get, lift, raise.
  destruct (Z.eqb_spec n (-1)); [contradiction|].
  destruct (Z.ltb_spec n 0), (Z.geb_spec n (Field._num_n f)); simpl; try lia.
  reflexivity.
Qed.

(** X5: on a grid whose buffer agrees with its dimensions, for a row of
    length [num_i] and [0 <= n < num_n], [set_field(row, n)] raises
    nothing and [get_field(n)] then returns that row; the cursor stays and
    [get_field(m)] returns what it returned before for every other valid
    [m].  When the cursor addresses a row, omitting [n] in [get_field] is
    the same as passing the cursor. *)
Theorem row_write_then_read (f : Field.t) (row : list float) (n : Z) :
  FieldSpec.wf f -> Z.of_nat (length row) = Field._num_i f ->
  0 <= n < Field._num_n f ->
  (exists f',
     Field.set_field row n f = (Ok tt, f')
     /\ Field.get_field n f' = (Ok row, f')
     /\ Field._n f' = Field._n f
     /\ forall m, 0 <= m < Field._num_n f -> m <> n ->
          (Field.get_field m f').1 = (Field.get_field m f).1)
  /\ (0 <= Field._n f < Field._num_n f ->
      (Field.get_field (-1) f).1 = (Field.get_field (Field._n f) f).1).
Proof.
  intros Hwf Hlen Hn. pose proof Hwf as ((Hdl & Hrows) & Hnn & Hni). split.
  - exists (FieldSpec.with_row (Z.to_nat n) row f).
    split; [apply set_field_explicit; assumption|].
    split; [|split; [reflexivity|]].
    + rewrite get_field_explicit by (simpl; lia).
      unfold np.getrow. simpl. rewrite np_index_in by lia.
      rewrite list_lookup_insert_eq by lia. reflexivity.
    + intros m Hm Hne. rewrite !get_field_explicit by (simpl; lia).
      unfold np.getrow. simpl. rewrite np_index_in by lia.
      rewrite list_lookup_insert_ne by lia. reflexivity.
  - intros Hc. rewrite (get_field_explicit f (Field._n f)) by lia.
    reflexivity.
Qed.

Lemma row_write_then_read_witness :
  (FieldSpec.wf Examples.grid_2_2
   /\ Z.of_nat (length [1; 2]%float) = Field._num_i Examples.grid_2_2
   /\ 0 <= 1 < Field._num_n Examples.grid_2_2)
  /\ (exists f',
        Field.set_field [1; 2]%float 1 Examples.grid_2_2 = (Ok tt, f')
        /\ Field.get_field 1 f' = (Ok [1; 2]%float, f')
        /\ Field._n f' = Field._n Examples.grid_2_2
        /\ forall m, 0 <= m < Field._num_n Examples.grid_2_2 -> m <> 1 ->
             (Field.get_field m f').1 = (Field.get_field m Examples.grid_2_2).1)
  /\ 0 <= Field._n Examples.grid_2_2 < Field._num_n Examples.grid_2_2
  /\ (Field.get_field (-1) Examples.grid_2_2).1
     = (Field.get_field (Field._n Examples.grid_2_2) Examples.grid_2_2).1.
Proof.
  assert (Hwf : FieldSpec.wf Examples.grid_2_2)
    by (split; [apply np_zeros_wf|simpl; lia]).
  assert (Hn : 0 <= 1 < Field._num_n Examples.grid_2_2) by (simpl; lia).
  assert (Hc : 0 <= Field._n Examples.grid_2_2 < Field._num_n Examples.grid_2_2)
    by (simpl; lia).
  split; [split; [exact Hwf|split; [reflexivity|exact Hn]]|].
  pose proof (row_write_then_read Examples.grid_2_2 [1; 2]%float 1 Hwf eq_refl Hn)
    as [Hw Hs].
  split; [exact Hw|]. split; [exact Hc|exact (Hs Hc)].
Defined.

(** X6: [set_field] checks the length of the row before anything else: a
    row whose length is not [num_i] raises [ValueError] and leaves the
    grid as it was, for every [n], valid, out of range or omitted, and on
    every grid; so a one-element row is never broadcast over a wider row,
    and an empty row is refused by every grid that has a column. *)
Theorem row_of_wrong_length_refused (f : Field.t) (row : list float) (n : Z) :
  Z.of_nat (length row) <> Field._num_i f ->
  Field.set_field row n f = (Raise ValueError, f)
  /\ Field.set_field row (-1) f = (Raise ValueError, f)
  /\ Field.set_field row (Field._num_n f) f = (Raise ValueError, f).
Proof.
  intros Hlen. repeat split; apply set_field_length_mismatch; exact Hlen.
Qed.

Lemma row_of_wrong_length_refused_witness :
  Z.of_nat (length [7]%float) <> Field._num_i Examples.grid_2_2
  /\ Field.set_field [7]%float 0 Examples.grid_2_2
     = (Raise ValueError, Examples.grid_2_2)
  /\ Field.set_field [7]%float 5 Examples.grid_2_2
     = (Raise ValueError, Examples.grid_2_2).
Proof.
  assert (H : Z.of_nat (length [7]%float) <> Field._num_i Examples.grid_2_2)
    by (simpl; lia).
  split; [exact H|].
  split; [exact (proj1 (row_of_wrong_length_refused Examples.grid_2_2 [7]%float 0 H))|].
  exact (proj1 (row_of_wrong_length_refused Examples.grid_2_2 [7]%float 5 H)).
Defined.

(** ** What the methods of a grid never change *)

Lemma np_setitem_shape (a a' : np.ndarray) (n i : Z) (v : float) :
  np.setitem a n i v = Ok a' ->
  np.shape0 a' = np.shape0 a /\ np.shape1 a' = np.shape1 a.
Proof.
  unfold np.setitem.
  destruct (np.index (np.shape0 a) n), (np.index (np.shape1 a) i);
    try discriminate.
  intros [= <-]. split; reflexivity.
Qed.

Lemma np_setrow_shape (a a' : np.ndarray) (n : Z) (row : list float) :
  np.setrow a n row = Ok a' ->
  np.shape0 a' = np.shape0 a /\ np.shape1 a' = np.shape1 a.
Proof.
  unfold np.setrow.
  destruct (np.index (np.shape0 a) n); [|discriminate].
  destruct (length row =? np.shape1 a)%nat.
  - intros [= <-]. split; reflexivity.
  - destruct row as [|x [|y row]]; try discriminate.
    intros [= <-]. split; reflexivity.
Qed.

Lemma set_time_index_dims (n : Z) (f : Field.t) :
  RunSpec.dims (Field.set_time_index n f).2 = RunSpec.dims f.
Proof.
  unfold Field.set_time_index, bind, get, raise, put.
  destruct ((n <? 0) || (n >=? Field._num_n f)); reflexivity.
Qed.

Lemma set_index_dims (i : Z) (v : float) (f : Field.t) :
  RunSpec.dims (Field.set_index i v f).2 = RunSpec.dims f.
Proof.
  unfold Field.set_index, bind, get, lift, put.
  destruct (np.setitem (Field._field f) (Field._n f) i v) as [a|e] eqn:Hset;
    [|reflexivity].
  apply np_setitem_shape in Hset as [H0 H1].
  unfold RunSpec.dims. simpl. rewrite H0, H1. reflexivity.
Qed.

Lemma set_field_dims (row : list float) (n : Z) (f : Field.t) :
  RunSpec.dims (Field.set_field row n f).2 = RunSpec.dims f.
Proof.
  unfold Field.set_field, bind, get, lift, put, raise.
  destruct (negb (Z.of_nat (length row) =? Field._num_i f)); [reflexivity|].
  destruct (n =? -1).
  - destruct (np.setrow (Field._field f) (Field._n f) row) as [a|e] eqn:Hset;
      [|reflexivity].
    apply np_setrow_shape in Hset as [H0 H1].
    unfold RunSpec.dims. simpl. rewrite H0, H1. reflexivity.
  - destruct ((n <? 0) || (n >=? Field._num_n f)); [reflexivity|].
    destruct (np.setrow (Field._field f) n row) as [a|e] eqn:Hset; [|reflexivity].
    apply np_setrow_shape in Hset as [H0 H1].
    unfold RunSpec.dims. simpl. rewrite H0, H1. reflexivity.
Qed.

Lemma iterate_dims (f : Field.t) :
  RunSpec.dims (Field.iterate f).2 = RunSpec.dims f.
Proof.
  unfold Field.iterate, bind, get, lift, put, raise.
  destruct (Field._n f + 1 >=? Field._num_n f); [reflexivity|].
  destruct (np.getrow (Field._field f) (Field._n f)) as [row|e]; [|reflexivity].
  destruct (np.setrow (Field._field f) (Field._n f + 1) row) as [a|e] eqn:Hset;
    [|reflexivity].
  apply np_setrow_shape in Hset as [H0 H1].
  unfold RunSpec.dims. simpl. rewrite H0, H1. reflexivity.
Qed.

Lemma get_index_state (i : Z) (f : Field.t) : (Field.get_index i f).2 = f.
Proof.
  unfold Field.get_index, bind, get, lift, ret.
  destruct ((i <? 0) || (i >=? Field._num_i f)); reflexivity.
Qed.

Lemma get_field_state (n : Z) (f : Field.t) : (Field.get_field n f).2 = f.
Proof.
  unfold Field.get_field, bind, get, lift, raise.
  destruct (n =? -1); [reflexivity|].
  destruct ((n <? 0) || (n >=? Field._num_n f)); reflexivity.
Qed.

Lemma after_dims (c : Client.call) (f : Field.t) :
  RunSpec.dims (Client.after c f) = RunSpec.dims f.
Proof.
  destruct c; unfold Client.after, Field.__getitem__, Field.__setitem__.
  - reflexivity.
  - apply set_time_index_dims.
  - rewrite get_field_state. reflexivity.
  - rewrite get_index_state. reflexivity.
  - apply set_index_dims.
  - apply set_field_dims.
  - apply iterate_dims.
  - reflexivity.
Qed.

Lemma after_inv (c : Client.call) (f : Field.t) :
  FieldSpec.inv f -> FieldSpec.inv (Client.after c f).
Proof.
  intros Hinv.
  destruct c; unfold Client.after, Field.__getitem__, Field.__setitem__.
  - exact Hinv.
  - apply set_time_index_inv, Hinv.
  - rewrite get_field_state. exact Hinv.
  - rewrite get_index_state. exact Hinv.
  - apply set_index_inv, Hinv.
  - apply set_field_inv, Hinv.
  - apply iterate_inv, Hinv.
  - exact Hinv.
Qed.

Lemma after_all_inv (cs : list Client.call) (f : Field.t) :
  FieldSpec.inv f ->
  FieldSpec.inv (Client.after_all cs f)
  /\ RunSpec.dims (Client.after_all cs f) = RunSpec.dims f.
Proof.
  revert f. induction cs as [|c cs IH]; intros f Hinv.
  - split; [exact Hinv|reflexivity].
  - destruct (IH (Client.after c f) (after_inv c f Hinv)) as [Hi Hd].
    split; [exact Hi|]. unfold Client.after_all in *. simpl.
    rewrite Hd. apply after_dims.
Qed.

(** X7: whatever sequence of public methods a client calls on a grid
    built by [Field(num_n, num_i)], going on after every exception, the
    grid is never resized and stays well formed: the two dimensions are
    the constructor's, the buffer holds [num_n] rows of [num_i] cells
    each, and the cursor addresses one of the rows (it is 0 on a grid
    without rows). *)
Theorem grid_never_resized
    (num_n num_i : Z) (f : Field.t) (cs : list Client.call) :
  Field.__init__ num_n num_i None = Ok f ->
  let f' := Client.after_all cs f in
  Field._num_n f' = num_n /\ Field._num_i f' = num_i
  /\ length (np.data (Field._field f')) = Z.to_nat num_n
  /\ Forall (fun row => length row = Z.to_nat num_i) (np.data (Field._field f'))
  /\ (0 < num_n -> 0 <= Field._n f' < num_n)
  /\ (num_n = 0 -> Field._n f' = 0).
Proof.
  intros Hinit f'.
  pose proof (init_keeps_inv _ _ _ Hinit) as Hinv.
  destruct (after_all_inv cs f Hinv) as [Hinv' Hdims]. fold f' in Hinv', Hdims.
  apply init_inv in Hinit as (Hn & Hi & ->).
  unfold RunSpec.dims in Hdims. simpl in Hdims.
  injection Hdims as Hnn Hni Hs0 Hs1.
  destruct Hinv' as (((Hlen & Hrows) & _ & _) & Hc0 & Hc).
  rewrite Hs0 in Hlen. rewrite Hs1 in Hrows.
  repeat split; try assumption; try lia.
Qed.

Lemma grid_never_resized_witness :
  Field.__init__ 2 2 None = Ok Examples.grid_2_2
  /\ let f' := Client.after_all
                 [Client.Iterate; Client.Iterate; Client.SetIndex (-1) 7%float;
                  Client.SetField [1]%float 0; Client.SetTimeIndex 5]
                 Examples.grid_2_2 in
     Field._num_n f' = 2 /\ Field._num_i f' = 2
     /\ length (np.data (Field._field f')) = Z.to_nat 2
     /\ Forall (fun row => length row = Z.to_nat 2) (np.data (Field._field f'))
     /\ (0 < 2 -> 0 <= Field._n f' < 2)
     /\ (2 = 0 -> Field._n f' = 0).
Proof.
  split; [reflexivity|].
  exact (grid_never_resized 2 2 Examples.grid_2_2
           [Client.Iterate; Client.Iterate; Client.SetIndex (-1) 7%float;
            Client.SetField [1]%float 0; Client.SetTimeIndex 5] eq_refl).
Defined.

(** * Further properties of the simulation *)

(** X8: [Sim(...)] raises [ValueError] when [np.zeros] refuses the shape
    [(num_n, num_i)] (a dimension is negative, or eight bytes times the
    dimensions that are not zero is more than [2^63 - 1]), whatever the
    constants are, since the two grids are allocated first.  For a shape
    that is accepted (the allocation being taken to succeed) it raises
    [ZeroDivisionError] when one of the four divisors [e_inf + chi0],
    [e0 * dz * (e_inf + chi0)], [e0 * (e_inf + chi0)], [mu0 * dz]
    compares equal to zero, and it returns a simulation when none does.
    It returns a simulation in no other case. *)
Theorem constructor_outcome
    (e0 ei m0 dt dz : float) (nn ni : Z) (J : Field.t) (su chi0 : float) :
  (nn < 0 \/ ni < 0 \/ np.max_intp < np.nbytes nn ni ->
   Sim.__init__ e0 ei m0 dt dz nn ni J su chi0 = Raise ValueError)
  /\ (0 <= nn -> 0 <= ni -> np.nbytes nn ni <= np.max_intp ->
      is_zero (ei + chi0) \/ is_zero (e0 * dz * (ei + chi0))
      \/ is_zero (e0 * (ei + chi0)) \/ is_zero (m0 * dz) ->
      Sim.__init__ e0 ei m0 dt dz nn ni J su chi0 = Raise ZeroDivisionError)
  /\ (0 <= nn -> 0 <= ni -> np.nbytes nn ni <= np.max_intp ->
      ~ is_zero (ei + chi0) -> ~ is_zero (e0 * dz * (ei + chi0)) ->
      ~ is_zero (e0 * (ei + chi0)) -> ~ is_zero (m0 * dz) ->
      exists s, Sim.__init__ e0 ei m0 dt dz nn ni J su chi0 = Ok s)
  /\ (forall s, Sim.__init__ e0 ei m0 dt dz nn ni J su chi0 = Ok s ->
      0 <= nn /\ 0 <= ni /\ np.nbytes nn ni <= np.max_intp
      /\ ~ is_zero (ei + chi0) /\ ~ is_zero (e0 * dz * (ei + chi0))
      /\ ~ is_zero (e0 * (ei + chi0)) /\ ~ is_zero (m0 * dz)).
Proof.
  unfold is_zero. split; [|split; [|split]]; cycle 3.
  - intros s. unfold Sim.__init__, rbind.
    destruct (Field.__init__ nn ni None) as [f|e] eqn:Hf; [|discriminate].
    apply init_shape, np_shape_ok_spec in Hf. unfold py_div.
    destruct (ei + chi0 =? 0)%float; [discriminate|].
    destruct (e0 * dz * (ei + chi0) =? 0)%float; [discriminate|].
    destruct (e0 * (ei + chi0) =? 0)%float; [discriminate|].
    destruct (m0 * dz =? 0)%float; [discriminate|].
    intros _. repeat split; try apply Hf; discriminate.
  - intros Hneg. unfold Sim.__init__, rbind.
    rewrite init_refused by (apply np_shape_ok_false; exact Hneg). reflexivity.
  - intros Hn Hi Hb Hz. unfold Sim.__init__, rbind.
    rewrite init_zeros by (apply np_shape_ok_spec; auto). unfold py_div.
    destruct (ei + chi0 =? 0)%float; [reflexivity|].
    destruct (e0 * dz * (ei + chi0) =? 0)%float; [reflexivity|].
    destruct (e0 * (ei + chi0) =? 0)%float; [reflexivity|].
    destruct (m0 * dz =? 0)%float; [reflexivity|].
    destruct Hz as [Hz|[Hz|[Hz|Hz]]]; discriminate Hz.
  - intros Hn Hi Hb H1 H2 H3 H4. unfold Sim.__init__, rbind.
    rewrite init_zeros by (apply np_shape_ok_spec; auto). unfold py_div.
    destruct (ei + chi0 =? 0)%float; [contradiction H1; reflexivity|].
    destruct (e0 * dz * (ei + chi0) =? 0)%float; [contradiction H2; reflexivity|].
    destruct (e0 * (ei + chi0) =? 0)%float; [contradiction H3; reflexivity|].
    destruct (m0 * dz =? 0)%float; [contradiction H4; reflexivity|].
    eexists. reflexivity.
Qed.

Lemma constructor_outcome_witness :
  (-1 < 0 \/ 3 < 0 \/ np.max_intp < np.nbytes (-1) 3)
  /\ Sim.__init__ 1 0 1 0.5 1 (-1) 3 Examples.cfield_3_3 0 0 = Raise ValueError
  /\ (0 <= 3 /\ np.nbytes 3 3 <= np.max_intp /\ is_zero (0 + 0))
  /\ Sim.__init__ 1 0 1 0.5 1 3 3 Examples.cfield_3_3 0 0 = Raise ZeroDivisionError
  /\ (~ is_zero (1 + 0) /\ ~ is_zero (1 * 1 * (1 + 0))
      /\ ~ is_zero (1 * (1 + 0)) /\ ~ is_zero (1 * 1))
  /\ (exists s, Sim.__init__ 1 1 1 0.5 1 3 3 Examples.cfield_3_3 0 0 = Ok s)
  /\ Sim.__init__ 1 1 1 0.5 1 3 3 Examples.cfield_3_3 0 0 = Ok Examples.sim_3_3
  /\ (0 <= 3 /\ 0 <= 3 /\ np.nbytes 3 3 <= np.max_intp
      /\ ~ is_zero (1 + 0) /\ ~ is_zero (1 * 1 * (1 + 0))
      /\ ~ is_zero (1 * (1 + 0)) /\ ~ is_zero (1 * 1)).
Proof.
  assert (Hneg : -1 < 0 \/ 3 < 0 \/ np.max_intp < np.nbytes (-1) 3) by (left; lia).
  assert (H3 : 0 <= 3) by lia.
  assert (Hb : np.nbytes 3 3 <= np.max_intp) by (vm_compute; discriminate).
  assert (Hz : is_zero (0 + 0)) by reflexivity.
  assert (Hnz : ~ is_zero 1) by (unfold is_zero; vm_compute; discriminate).
  assert (Hs : Sim.__init__ 1 1 1 0.5 1 3 3 Examples.cfield_3_3 0 0
               = Ok Examples.sim_3_3) by reflexivity.
  split; [exact Hneg|].
  split; [exact (proj1 (constructor_outcome 1 0 1 0.5 1 (-1) 3
                          Examples.cfield_3_3 0 0) Hneg)|].
  split; [split; [exact H3|split; [exact Hb|exact Hz]]|].
  split; [exact (proj1 (proj2 (constructor_outcome 1 0 1 0.5 1 3 3
                                 Examples.cfield_3_3 0 0)) H3 H3 Hb (or_introl Hz))|].
  split; [repeat split; exact Hnz|].
  split; [exact (proj1 (proj2 (proj2 (constructor_outcome 1 1 1 0.5 1 3 3
                                        Examples.cfield_3_3 0 0)))
                   H3 H3 Hb Hnz Hnz Hnz Hnz)|].
  split; [exact Hs|].
  exact (proj2 (proj2 (proj2 (constructor_outcome 1 1 1 0.5 1 3 3
                                Examples.cfield_3_3 0 0))) Examples.sim_3_3 Hs).
Defined.

(** X9: on the simulation a successful [Sim(...)] returns, the seven
    scalar accessors return the constants and dimensions that were
    passed, [get_cfield()] returns the current grid that was passed, and
    [get_efield()] and [get_hfield()] return grids of [num_n] by [num_i]
    zeros with the cursor at 0; no accessor changes the simulation. *)
Theorem accessors_return_inputs
    (e0 ei m0 dt dz : float) (nn ni : Z) (J : Field.t) (su chi0 : float)
    (s : Sim.t) :
  Sim.__init__ e0 ei m0 dt dz nn ni J su chi0 = Ok s ->
  Sim.get_vacuum_permittivity s = (Ok e0, s)
  /\ Sim.get_infinity_permittivity s = (Ok ei, s)
  /\ Sim.get_vacuum_permeability s = (Ok m0, s)
  /\ Sim.get_delta_t s = (Ok dt, s)
  /\ Sim.get_delta_z s = (Ok dz, s)
  /\ Sim.get_num_n s = (Ok nn, s)
  /\ Sim.get_num_i s = (Ok ni, s)
  /\ Sim.get_cfield s = (Ok J, s)
  /\ Sim.get_efield s
     = (Ok (Field.mk 0 nn ni (np.zeros (Z.to_nat nn) (Z.to_nat ni))), s)
  /\ Sim.get_hfield s
     = (Ok (Field.mk 0 nn ni (np.zeros (Z.to_nat nn) (Z.to_nat ni))), s)
  /\ forall r c, np.cell (Field._field (Sim._efield s)) r c = 0%float
                 /\ np.cell (Field._field (Sim._hfield s)) r c = 0%float.
Proof.
  intros Hs. apply sim_init_inv in Hs as (_ & _ & ->).
  repeat (split; [reflexivity|]).
  intros r c. simpl. rewrite zeros_cell. split; reflexivity.
Qed.

Lemma accessors_return_inputs_witness :
  Sim.__init__ 1 1 1 0.5 1 3 3 Examples.cfield_3_3 0 0 = Ok Examples.sim_3_3
  /\ Sim.get_delta_t Examples.sim_3_3 = (Ok 0.5%float, Examples.sim_3_3)
  /\ Sim.get_num_n Examples.sim_3_3 = (Ok 3, Examples.sim_3_3)
  /\ Sim.get_cfield Examples.sim_3_3 = (Ok Examples.cfield_3_3, Examples.sim_3_3).
Proof.
  split; [reflexivity|].
  destruct (accessors_return_inputs 1 1 1 0.5 1 3 3 Examples.cfield_3_3 0 0
              Examples.sim_3_3 eq_refl)
    as (_ & _ & _ & Hdt & _ & Hn & _ & HJ & _).
  split; [exact Hdt|]. split; [exact Hn|exact HJ].
Defined.

(** ** What a run never changes *)

Section Frame.
Import Sim SimSpec RunSpec.

Lemma frame_refl (s : t) : frame s s.
Proof. repeat split. Qed.

Lemma frame_trans (s1 s2 s3 : t) : frame s1 s2 -> frame s2 s3 -> frame s1 s3.
Proof.
  intros (A1 & A2 & A3 & A4 & A5 & A6) (B1 & B2 & B3 & B4 & B5 & B6).
  repeat split; congruence.
Qed.

Lemma on_efield_frame {A} (m : M Field.t A) :
  (forall f, dims (m f).2 = dims f) -> preserves frame (on_efield m).
Proof.
  intros Hm s. unfold on_efield. specialize (Hm (_efield s)).
  destruct (m (_efield s)) as [r f]. simpl in *.
  repeat split. symmetry. exact Hm.
Qed.

Lemma on_hfield_frame {A} (m : M Field.t A) :
  (forall f, dims (m f).2 = dims f) -> preserves frame (on_hfield m).
Proof.
  intros Hm s. unfold on_hfield. specialize (Hm (_hfield s)).
  destruct (m (_hfield s)) as [r f]. simpl in *.
  repeat split. symmetry. exact Hm.
Qed.

Lemma on_cfield_frame {A} (m : M Field.t A) :
  (forall f, dims (m f).2 = dims f /\ Field._field (m f).2 = Field._field f) ->
  preserves frame (on_cfield m).
Proof.
  intros Hm s. unfold on_cfield. specialize (Hm (_cfield s)).
  destruct (m (_cfield s)) as [r f]. simpl in *. destruct Hm as [Hd Hf].
  repeat split; symmetry; assumption.
Qed.

Lemma getitem_frame_e (i : Z) : preserves frame (on_efield (Field.__getitem__ i)).
Proof.
  apply on_efield_frame. intros f. unfold Field.__getitem__.
  rewrite get_index_state. reflexivity.
Qed.

Lemma getitem_frame_h (i : Z) : preserves frame (on_hfield (Field.__getitem__ i)).
Proof.
  apply on_hfield_frame. intros f. unfold Field.__getitem__.
  rewrite get_index_state. reflexivity.
Qed.

Lemma current_frame (i : Z) : preserves frame (_current i).
Proof.
  apply on_cfield_frame. intros f. unfold Field.__getitem__.
  rewrite get_index_state. split; reflexivity.
Qed.

Lemma set_time_index_frame_c (n : Z) :
  preserves frame (on_cfield (Field.set_time_index n)).
Proof.
  apply on_cfield_frame. intros f.
  split; [apply set_time_index_dims|apply set_time_index_field].
Qed.

Lemma calc_hfield_frame : preserves frame _calc_hfield.
Proof.
  unfold _calc_hfield, for_range.
  apply (preserves_bind _ frame_trans); [apply (preserves_get _ frame_refl)|intros self].
  apply (preserves_mfor _ frame_refl frame_trans). intros i.
  unfold _calc_hfield_body.
  apply (preserves_bind _ frame_trans); [apply (preserves_get _ frame_refl)|intros ?].
  apply (preserves_bind _ frame_trans); [apply getitem_frame_h|intros ?].
  apply (preserves_bind _ frame_trans); [apply getitem_frame_e|intros ?].
  apply (preserves_bind _ frame_trans); [apply getitem_frame_e|intros ?].
  apply on_hfield_frame. intros f. apply set_index_dims.
Qed.

Lemma calc_efield_frame : preserves frame _calc_efield.
Proof.
  unfold _calc_efield, for_range.
  apply (preserves_bind _ frame_trans); [apply (preserves_get _ frame_refl)|intros self].
  apply (preserves_mfor _ frame_refl frame_trans). intros i.
  unfold _calc_efield_body.
  apply (preserves_bind _ frame_trans); [apply (preserves_get _ frame_refl)|intros ?].
  apply (preserves_bind _ frame_trans); [apply getitem_frame_e|intros ?].
  apply (preserves_bind _ frame_trans); [apply (preserves_ret _ frame_refl)|intros ?].
  apply (preserves_bind _ frame_trans); [apply getitem_frame_h|intros ?].
  apply (preserves_bind _ frame_trans); [apply getitem_frame_h|intros ?].
  apply (preserves_bind _ frame_trans); [apply current_frame|intros ?].
  apply on_efield_frame. intros f. apply set_index_dims.
Qed.

Lemma iterate_cfield_frame : preserves frame _iterate_cfield.
Proof.
  unfold _iterate_cfield.
  apply (preserves_bind _ frame_trans); [|intros ?; apply set_time_index_frame_c].
  apply on_cfield_frame. intros f. split; reflexivity.
Qed.

Lemma simulate_body_frame (j : Z) : preserves frame (simulate_body j).
Proof.
  unfold simulate_body.
  apply (preserves_bind _ frame_trans); [apply calc_hfield_frame|intros ?].
  apply (preserves_bind _ frame_trans); [apply calc_efield_frame|intros ?].
  apply (preserves_bind _ frame_trans);
    [apply on_hfield_frame; intros f; apply iterate_dims|intros ?].
  apply (preserves_bind _ frame_trans);
    [apply on_efield_frame; intros f; apply iterate_dims|intros ?].
  apply iterate_cfield_frame.
Qed.

Lemma simulate_frame : preserves frame simulate.
Proof.
  unfold simulate, for_range.
  apply (preserves_bind _ frame_trans);
    [apply on_efield_frame; intros f; apply set_time_index_dims|intros ?].
  apply (preserves_bind _ frame_trans);
    [apply on_hfield_frame; intros f; apply set_time_index_dims|intros ?].
  apply (preserves_bind _ frame_trans); [apply set_time_index_frame_c|intros ?].
  apply (preserves_bind _ frame_trans); [apply (preserves_get _ frame_refl)|intros self].
  apply (preserves_mfor _ frame_refl frame_trans). intros j.
  apply simulate_body_frame.
Qed.

End Frame.

(** X10: whether [simulate()] returns or raises, and on every simulation,
    it leaves the seven constants, the two dimensions and the five
    coefficients as they were, resizes none of the three grids, and writes
    nothing into the buffer of the current grid: of the current grid only
    the cursor moves. *)
Theorem simulate_touches_fields_only (s : Sim.t) :
  let s' := (Sim.simulate s).2 in
  RunSpec.params s' = RunSpec.params s
  /\ SimSpec.coeffs s' = SimSpec.coeffs s
  /\ RunSpec.dims (Sim._efield s') = RunSpec.dims (Sim._efield s)
  /\ RunSpec.dims (Sim._hfield s') = RunSpec.dims (Sim._hfield s)
  /\ RunSpec.dims (Sim._cfield s') = RunSpec.dims (Sim._cfield s)
  /\ Field._field (Sim._cfield s') = Field._field (Sim._cfield s)
  /\ (Sim.get_num_n s').1 = (Sim.get_num_n s).1
  /\ (Sim.get_delta_t s').1 = (Sim.get_delta_t s).1.
Proof.
  intros s'. destruct (simulate_frame s) as (Hp & Hc & HE & HH & HJ & HF).
  fold s' in Hp, Hc, HE, HH, HJ, HF.
  repeat split; try (symmetry; assumption).
  - unfold Sim.get_num_n, bind, get, ret. simpl.
    unfold RunSpec.params in Hp. congruence.
  - unfold Sim.get_delta_t, bind, get, ret. simpl.
    unfold RunSpec.params in Hp. congruence.
Qed.

(** ** The invariant of the three grids along a run *)

Section Keeps.
Context {S : Type} (P : S -> Prop).

Lemma keeps_ret {A} (a : A) : keeps P (ret a).
Proof. intros s H. exact H. Qed.

Lemma keeps_get : keeps P (@get S).
Proof. intros s H. exact H. Qed.

Lemma keeps_bind {A B} (m : M S A) (k : A -> M S B) :
  keeps P m -> (forall a, keeps P (k a)) -> keeps P (bind m k).
Proof.
  intros Hm Hk s Hs. unfold bind. specialize (Hm s Hs).
  destruct (m s) as [[a|e] s1]; simpl in *; [|exact Hm].
  apply Hk. exact Hm.
Qed.

Lemma keeps_mfor {A} (l : list A) (body : A -> M S unit) :
  (forall x, keeps P (body x)) -> keeps P (mfor l body).
Proof.
  intros Hb. induction l as [|x l IH]; simpl.
  - apply keeps_ret.
  - apply keeps_bind; [apply Hb|intros _; exact IH].
Qed.

End Keeps.

Section GridsOk.
Import Sim SimSpec RunSpec.

Lemma on_efield_ok {A} (m : M Field.t A) :
  keeps FieldSpec.inv m -> keeps grids_ok (on_efield m).
Proof.
  intros Hm s (HE & HH & HJ). unfold on_efield. specialize (Hm _ HE).
  destruct (m (_efield s)) as [r f]. simpl in *.
  split; [exact Hm|split; [exact HH|exact HJ]].
Qed.

Lemma on_hfield_ok {A} (m : M Field.t A) :
  keeps FieldSpec.inv m -> keeps grids_ok (on_hfield m).
Proof.
  intros Hm s (HE & HH & HJ). unfold on_hfield. specialize (Hm _ HH).
  destruct (m (_hfield s)) as [r f]. simpl in *.
  split; [exact HE|split; [exact Hm|exact HJ]].
Qed.

Lemma on_cfield_ok {A} (m : M Field.t A) :
  keeps FieldSpec.inv m -> keeps grids_ok (on_cfield m).
Proof.
  intros Hm s (HE & HH & HJ). unfold on_cfield. specialize (Hm _ HJ).
  destruct (m (_cfield s)) as [r f]. simpl in *.
  split; [exact HE|split; [exact HH|exact Hm]].
Qed.

Lemma getitem_inv (i : Z) : keeps FieldSpec.inv (Field.__getitem__ i).
Proof. exact (proj1 (proj2 (proj2 (readers_inv 0 i)))). Qed.

Lemma setitem_inv (i : Z) (v : float) : keeps FieldSpec.inv (Field.__setitem__ i v).
Proof. exact (set_index_inv i v). Qed.

Lemma calc_hfield_ok : keeps grids_ok _calc_hfield.
Proof.
  unfold _calc_hfield, for_range.
  apply keeps_bind; [apply keeps_get|intros self].
  apply keeps_mfor. intros i. unfold _calc_hfield_body.
  apply keeps_bind; [apply keeps_get|intros ?].
  apply keeps_bind; [apply on_hfield_ok, getitem_inv|intros ?].
  apply keeps_bind; [apply on_efield_ok, getitem_inv|intros ?].
  apply keeps_bind; [apply on_efield_ok, getitem_inv|intros ?].
  apply on_hfield_ok, setitem_inv.
Qed.

Lemma calc_efield_ok : keeps grids_ok _calc_efield.
Proof.
  unfold _calc_efield, for_range.
  apply keeps_bind; [apply keeps_get|intros self].
  apply keeps_mfor. intros i. unfold _calc_efield_body.
  apply keeps_bind; [apply keeps_get|intros ?].
  apply keeps_bind; [apply on_efield_ok, getitem_inv|intros ?].
  apply keeps_bind; [apply keeps_ret|intros ?].
  apply keeps_bind; [apply on_hfield_ok, getitem_inv|intros ?].
  apply keeps_bind; [apply on_hfield_ok, getitem_inv|intros ?].
  apply keeps_bind; [apply on_cfield_ok, getitem_inv|intros ?].
  apply on_efield_ok, setitem_inv.
Qed.

Lemma iterate_cfield_ok : keeps grids_ok _iterate_cfield.
Proof.
  unfold _iterate_cfield.
  apply keeps_bind; [|intros ?; apply on_cfield_ok, set_time_index_inv].
  apply on_cfield_ok. exact (proj1 (readers_inv 0 0)).
Qed.

Lemma simulate_ok : keeps grids_ok simulate.
Proof.
  unfold simulate, for_range.
  apply keeps_bind; [apply on_efield_ok, set_time_index_inv|intros ?].
  apply keeps_bind; [apply on_hfield_ok, set_time_index_inv|intros ?].
  apply keeps_bind; [apply on_cfield_ok, set_time_index_inv|intros ?].
  apply keeps_bind; [apply keeps_get|intros self].
  apply keeps_mfor. intros j. unfold simulate_body.
  apply keeps_bind; [apply calc_hfield_ok|intros ?].
  apply keeps_bind; [apply calc_efield_ok|intros ?].
  apply keeps_bind; [apply on_hfield_ok, iterate_inv|intros ?].
  apply keeps_bind; [apply on_efield_ok, iterate_inv|intros ?].
  apply iterate_cfield_ok.
Qed.

End GridsOk.

(** X11: on a simulation built by the constructor around a current grid
    that satisfies the invariant of a grid, [simulate()], whether it
    returns or raises, leaves three grids that satisfy it too; the
    buffers [get_efield().export()] and [get_hfield().export()] return
    afterwards have [num_n] rows of [num_i] cells each. *)
Theorem run_keeps_grids_well_formed
    (e0 ei m0 dt dz : float) (nn ni : Z) (J : Field.t) (su chi0 : float)
    (s : Sim.t) :
  Sim.__init__ e0 ei m0 dt dz nn ni J su chi0 = Ok s ->
  FieldSpec.inv J ->
  let s' := (Sim.simulate s).2 in
  FieldSpec.inv (Sim._efield s') /\ FieldSpec.inv (Sim._hfield s')
  /\ FieldSpec.inv (Sim._cfield s')
  /\ exists (fE fH : Field.t) (aE aH : np.ndarray),
       Sim.get_efield s' = (Ok fE, s') /\ Field.export fE = (Ok aE, fE)
       /\ Sim.get_hfield s' = (Ok fH, s') /\ Field.export fH = (Ok aH, fH)
       /\ length (np.data aE) = Z.to_nat nn
       /\ Forall (fun row => length row = Z.to_nat ni) (np.data aE)
       /\ length (np.data aH) = Z.to_nat nn
       /\ Forall (fun row => length row = Z.to_nat ni) (np.data aH).
Proof.
  intros Hs HJ s'.
  pose proof (simulate_frame s) as (_ & _ & HdE & HdH & _). fold s' in HdE, HdH.
  assert (Hok : RunSpec.grids_ok s').
  { apply simulate_ok. apply sim_init_inv in Hs as (Hn & Hi & ->).
    assert (Hz : FieldSpec.inv
                   (Field.mk 0 nn ni (np.zeros (Z.to_nat nn) (Z.to_nat ni)))).
    { split; [split; [apply np_zeros_wf|simpl; lia]|simpl; lia]. }
    split; [exact Hz|split; [exact Hz|exact HJ]]. }
  destruct Hok as (HE & HH & HC).
  apply sim_init_inv in Hs as (Hn & Hi & Heq).
  rewrite Heq in HdE, HdH. unfold RunSpec.dims in HdE, HdH. simpl in HdE, HdH.
  injection HdE as _ _ HE0 HE1. injection HdH as _ _ HH0 HH1.
  split; [exact HE|]. split; [exact HH|]. split; [exact HC|].
  exists (Sim._efield s'), (Sim._hfield s'),
    (Field._field (Sim._efield s')), (Field._field (Sim._hfield s')).
  destruct HE as (((HlenE & HrowsE) & _) & _).
  destruct HH as (((HlenH & HrowsH) & _) & _).
  rewrite <- HE0 in HlenE. rewrite <- HE1 in HrowsE.
  rewrite <- HH0 in HlenH. rewrite <- HH1 in HrowsH.
  repeat (split; [reflexivity|]).
  split; [exact HlenE|]. split; [exact HrowsE|]. split; [exact HlenH|exact HrowsH].
Qed.

Lemma cfield_3_3_inv : FieldSpec.inv Examples.cfield_3_3.
Proof.
  split; [split; [split; [reflexivity|repeat constructor]|split; reflexivity]|].
  simpl. lia.
Qed.

Lemma run_keeps_grids_well_formed_witness :
  (Sim.__init__ 1 1 1 0.5 1 3 3 Examples.cfield_3_3 0 0 = Ok Examples.sim_3_3
   /\ FieldSpec.inv Examples.cfield_3_3)
  /\ let s' := (Sim.simulate Examples.sim_3_3).2 in
     FieldSpec.inv (Sim._efield s') /\ FieldSpec.inv (Sim._hfield s')
     /\ FieldSpec.inv (Sim._cfield s')
     /\ exists (fE fH : Field.t) (aE aH : np.ndarray),
          Sim.get_efield s' = (Ok fE, s') /\ Field.export fE = (Ok aE, fE)
          /\ Sim.get_hfield s' = (Ok fH, s') /\ Field.export fH = (Ok aH, fH)
          /\ length (np.data aE) = Z.to_nat 3
          /\ Forall (fun row => length row = Z.to_nat 3) (np.data aE)
          /\ length (np.data aH) = Z.to_nat 3
          /\ Forall (fun row => length row = Z.to_nat 3) (np.data aH).
Proof.
  split; [split; [reflexivity|exact cfield_3_3_inv]|].
  exact (run_keeps_grids_well_formed 1 1 1 0.5 1 3 3 Examples.cfield_3_3 0 0
           Examples.sim_3_3 eq_refl cfield_3_3_inv).
Defined.

(** ** When a run raises *)

Section Aborts.
Import Sim SimSpec RunSpec.

Lemma mfor_raise {S A} (l1 l2 : list A) (x : A) (body : A -> M S unit)
    (s s1 s2 : S) (e : exn) :
  mfor l1 body s = (Ok tt, s1) -> body x s1 = (Raise e, s2) ->
  mfor (l1 ++ x :: l2) body s = (Raise e, s2).
Proof.
  intros H1 Hx. rewrite mfor_app. unfold bind at 1. rewrite H1. simpl.
  unfold bind. rewrite Hx. reflexivity.
Qed.

Lemma iterate_cfield_end (s : t) :
  Field._n (_cfield s) + 1 >= Field._num_n (_cfield s) ->
  _iterate_cfield s = (Raise IndexError, s).
Proof.
  intros H. unfold _iterate_cfield, bind, on_cfield, Field.get_time_index, get, ret.
  simpl. rewrite set_time_index_out by (simpl; lia). destruct s; reflexivity.
Qed.

(** A time step whose field grids can advance while the current grid
    cannot. *)
Lemma simulate_body_short (s : t) (k j : Z) :
  ready s k -> k + 1 < _num_n s -> k + 1 >= Field._num_n (_cfield s) ->
  simulate_body j s = (Raise IndexError, aborted_step s)
  /\ Field._n (_efield (aborted_step s)) = k + 1
  /\ Field._n (_hfield (aborted_step s)) = k + 1
  /\ Field._n (_cfield (aborted_step s)) = k.
Proof.
  intros Hr Hk Hc.
  pose proof (calc_hfield_ready _ _ Hr) as Hr1.
  pose proof (calc_efield_ready _ _ Hr1) as Hr2.
  pose proof Hr2 as (HE & HH & HC & HEn & HEi & HHn & HHi & HkE & HkH & HkC).
  set (s2 := calc_efield (calc_hfield s)) in *.
  assert (Hnn : _num_n s2 = _num_n s) by reflexivity.
  assert (Hcc : _cfield s2 = _cfield s) by reflexivity.
  assert (HH2 : Field._n (_hfield s2) + 1 < Field._num_n (_hfield s2)) by lia.
  assert (HE2 : Field._n (_efield s2) + 1 < Field._num_n (_efield s2)) by lia.
  destruct (advance_live _ HH HH2) as (_ & _ & HHan).
  destruct (advance_live _ HE HE2) as (_ & _ & HEan).
  split; [|split; [|split]].
  - unfold simulate_body, bind.
    rewrite (calc_hfield_spec s k Hr), (calc_efield_spec _ k Hr1). fold s2.
    unfold on_hfield at 1. rewrite (iterate_live _ HH HH2).
    unfold on_efield at 1.
    change (_efield (with_hfield (FieldSpec.advance (_hfield s2)) s2)) with (_efield s2).
    rewrite (iterate_live _ HE HE2).
    rewrite iterate_cfield_end.
    + reflexivity.
    + cbn [_cfield with_efield with_hfield]. rewrite Hcc in *. lia.
  - unfold aborted_step. fold s2. cbn zeta. cbn [_efield with_efield with_hfield].
    rewrite HEan. lia.
  - unfold aborted_step. fold s2. cbn zeta. cbn [_hfield with_efield with_hfield].
    rewrite HHan. lia.
  - unfold aborted_step. fold s2. cbn zeta. cbn [_cfield with_efield with_hfield].
    exact HkC.
Qed.

Lemma steps_cfield_rows (n : nat) (s : t) :
  Field._num_n (_cfield (steps n s)) = Field._num_n (_cfield s).
Proof.
  revert s. induction n as [|n IH]; intros s; cbn [steps].
  - reflexivity.
  - rewrite IH. reflexivity.
Qed.

(** A run whose current grid has [m] rows, [1 <= m < num_n]: [m - 1]
    whole time steps, then one that stops at the cursor of the current
    grid. *)
Lemma simulate_short (s : t) :
  wf s -> 1 <= Field._num_n (_cfield s) < _num_n s ->
  let m := Field._num_n (_cfield s) in
  let s' := aborted_step (steps (Z.to_nat (m - 1)) (reset s)) in
  simulate s = (Raise IndexError, s')
  /\ Field._n (_efield s') = m /\ Field._n (_hfield s') = m
  /\ Field._n (_cfield s') = m - 1.
Proof.
  intros Hwf Hm m s'.
  destruct (reset_spec s) as [Hreset Hr0]; [lia|lia|exact Hwf|].
  unfold bind in Hreset.
  pose proof (simulate_loop (seqZ 0 (m - 1)) (reset s) 0 Hr0) as Hloop.
  rewrite length_seqZ in Hloop.
  destruct Hloop as [Hl Hr];
    [change (_num_n (reset s)) with (_num_n s); unfold m; lia
    |change (Field._num_n (_cfield (reset s))) with (Field._num_n (_cfield s));
     unfold m; lia|].
  set (s1 := steps (Z.to_nat (m - 1)) (reset s)) in *.
  assert (Hn1 : _num_n s1 = _num_n s)
    by (unfold s1; rewrite (proj2 (steps_dims _ _)); reflexivity).
  assert (Hc1 : Field._num_n (_cfield s1) = m)
    by (unfold s1; rewrite steps_cfield_rows; reflexivity).
  replace (0 + Z.of_nat (Z.to_nat (m - 1))) with (m - 1) in Hr by lia.
  destruct (simulate_body_short s1 (m - 1) (m - 1) Hr) as (Hb & HE & HH & HC);
    [lia|lia|].
  fold s' in Hb, HE, HH, HC.
  split; [|split; [lia|split; [lia|exact HC]]].
  unfold simulate, bind, get, for_range.
  destruct (on_efield (Field.set_time_index 0) s) as [[[]|e] s01]; [|discriminate].
  destruct (on_hfield (Field.set_time_index 0) s01) as [[[]|e] s02]; [|discriminate].
  destruct (on_cfield (Field.set_time_index 0) s02) as [[[]|e] s03]; [|discriminate].
  injection Hreset as ->.
  change (_num_n (reset s)) with (_num_n s).
  replace (_num_n s - 1) with ((m - 1) + (_num_n s - m)) by lia.
  rewrite seqZ_app by lia.
  rewrite (seqZ_cons (0 + (m - 1))) by lia.
  rewrite Z.add_0_l.
  exact (mfor_raise _ _ _ _ _ _ _ _ Hl Hb).
Qed.

Lemma simulate_no_rows (s : t) :
  _num_n s <= 0 -> Field._num_n (_efield s) = _num_n s ->
  simulate s = (Raise IndexError, s).
Proof.
  intros Hn HE. unfold simulate, bind, on_efield.
  rewrite set_time_index_out by lia. destruct s; reflexivity.
Qed.

Lemma simulate_no_current_rows (s : t) :
  wf s -> 1 <= _num_n s -> Field._num_n (_cfield s) <= 0 ->
  simulate s
  = (Raise IndexError,
     with_hfield (Field.with_n 0 (_hfield s))
       (with_efield (Field.with_n 0 (_efield s)) s)).
Proof.
  intros (_ & _ & _ & HEn & _ & HHn & _) Hn Hc.
  unfold simulate, bind, on_efield, on_hfield, on_cfield.
  rewrite set_time_index_ok by lia. cbn [_hfield with_efield].
  rewrite set_time_index_ok by lia. cbn [_cfield with_efield with_hfield].
  rewrite set_time_index_out by lia.
  destruct s; reflexivity.
Qed.

End Aborts.

Lemma wf_num_n (s : Sim.t) : SimSpec.wf s -> 0 <= Sim._num_n s.
Proof. intros ((_ & Hn & _) & _ & _ & HEn & _). lia. Qed.

Lemma wf_cfield_rows (s : Sim.t) : SimSpec.wf s -> 0 <= Field._num_n (Sim._cfield s).
Proof. intros (_ & _ & (_ & Hn & _) & _). lia. Qed.

(** X12: on a simulation whose two field grids have its dimensions and
    whose current grid is well formed, [simulate()] returns exactly when
    there is at least one time row and the current grid has at least as
    many rows as the simulation; in every other case it raises
    [IndexError].  The width of the current grid plays no part. *)
Theorem run_returns_iff (s : Sim.t) :
  SimSpec.wf s ->
  (1 <= Sim._num_n s <= Field._num_n (Sim._cfield s) ->
   (Sim.simulate s).1 = Ok tt)
  /\ (~ (1 <= Sim._num_n s <= Field._num_n (Sim._cfield s)) ->
      (Sim.simulate s).1 = Raise IndexError).
Proof.
  intros Hwf. pose proof (wf_num_n s Hwf) as Hn0.
  pose proof (wf_cfield_rows s Hwf) as Hc0. split.
  - intros Hn. destruct (simulate_spec s Hwf Hn) as [-> _]. reflexivity.
  - intros Hno.
    destruct (Z.le_gt_cases (Sim._num_n s) 0) as [Hle|Hgt].
    + rewrite simulate_no_rows; [reflexivity|exact Hle|apply Hwf].
    + destruct (Z.le_gt_cases (Field._num_n (Sim._cfield s)) 0) as [Hcle|Hcgt].
      * rewrite simulate_no_current_rows by (exact Hwf || lia). reflexivity.
      * destruct (simulate_short s Hwf) as [-> _]; [lia|reflexivity].
Qed.

Lemma sim_short_wf : SimSpec.wf Cases.sim_short.
Proof.
  assert (Hz : FieldSpec.wf (Field.mk 0 3 3 (np.zeros 3 3)))
    by (split; [apply np_zeros_wf|split; reflexivity]).
  split; [exact Hz|]. split; [exact Hz|]. split; [|repeat split].
  split; [apply np_zeros_wf|split; reflexivity].
Qed.

Lemma run_returns_iff_witness :
  (SimSpec.wf Examples.sim_3_3
   /\ 1 <= Sim._num_n Examples.sim_3_3
        <= Field._num_n (Sim._cfield Examples.sim_3_3))
  /\ (Sim.simulate Examples.sim_3_3).1 = Ok tt
  /\ (SimSpec.wf Cases.sim_short
      /\ ~ (1 <= Sim._num_n Cases.sim_short
              <= Field._num_n (Sim._cfield Cases.sim_short)))
  /\ (Sim.simulate Cases.sim_short).1 = Raise IndexError.
Proof.
  assert (Hn : 1 <= Sim._num_n Examples.sim_3_3
               <= Field._num_n (Sim._cfield Examples.sim_3_3)) by (simpl; lia).
  assert (Hno : ~ (1 <= Sim._num_n Cases.sim_short
                     <= Field._num_n (Sim._cfield Cases.sim_short)))
    by (simpl; lia).
  split; [split; [exact sim_3_3_wf|exact Hn]|].
  split; [exact (proj1 (run_returns_iff Examples.sim_3_3 sim_3_3_wf) Hn)|].
  split; [split; [exact sim_short_wf|exact Hno]|].
  exact (proj2 (run_returns_iff Cases.sim_short sim_short_wf) Hno).
Defined.

(** X13: what a run that raises leaves behind, on a simulation whose two
    field grids have its dimensions and whose current grid is well
    formed.  Without a time row nothing has changed.  With a current grid
    without rows, the cursors of the two field grids have been reset to 0
    and nothing else has changed.  With a current grid of [m] rows,
    [1 <= m < num_n], [m - 1] whole time steps are done and in the next
    one both updates and both [iterate()] calls: the cursors of the two
    field grids stand at [m], the cursor of the current grid at [m - 1],
    so the three grids are no longer in step. *)
Theorem aborted_run_state (s : Sim.t) :
  SimSpec.wf s ->
  (Sim._num_n s = 0 -> Sim.simulate s = (Raise IndexError, s))
  /\ (1 <= Sim._num_n s -> Field._num_n (Sim._cfield s) = 0 ->
      Sim.simulate s
      = (Raise IndexError,
         Sim.with_hfield (Field.with_n 0 (Sim._hfield s))
           (Sim.with_efield (Field.with_n 0 (Sim._efield s)) s)))
  /\ (1 <= Field._num_n (Sim._cfield s) < Sim._num_n s ->
      exists s',
        Sim.simulate s = (Raise IndexError, s')
        /\ s' = RunSpec.aborted_step
                  (SimSpec.steps (Z.to_nat (Field._num_n (Sim._cfield s) - 1))
                                 (SimSpec.reset s))
        /\ Field._n (Sim._efield s') = Field._num_n (Sim._cfield s)
        /\ Field._n (Sim._hfield s') = Field._num_n (Sim._cfield s)
        /\ Field._n (Sim._cfield s') = Field._num_n (Sim._cfield s) - 1).
Proof.
  intros Hwf. split; [|split].
  - intros Hn. apply simulate_no_rows; [lia|apply Hwf].
  - intros Hn Hc. apply simulate_no_current_rows; [exact Hwf|exact Hn|lia].
  - intros Hm. destruct (simulate_short s Hwf Hm) as (Hs & HE & HH & HC).
    eexists. split; [exact Hs|]. split; [reflexivity|].
    split; [exact HE|]. split; [exact HH|exact HC].
Qed.

Lemma sim_no_rows_wf : SimSpec.wf Cases.sim_no_rows.
Proof.
  assert (Hz : FieldSpec.wf (Field.mk 0 0 3 (np.zeros 0 3)))
    by (split; [apply np_zeros_wf|split; reflexivity]).
  split; [exact Hz|]. split; [exact Hz|]. split; [exact Hz|repeat split].
Qed.

Lemma sim_no_current_rows_wf : SimSpec.wf Cases.sim_no_current_rows.
Proof.
  split; [split; [apply np_zeros_wf|split; reflexivity]|].
  split; [split; [apply np_zeros_wf|split; reflexivity]|].
  split; [split; [apply np_zeros_wf|split; reflexivity]|repeat split].
Qed.

Lemma aborted_run_state_witness :
  (SimSpec.wf Cases.sim_no_rows /\ Sim._num_n Cases.sim_no_rows = 0)
  /\ Sim.simulate Cases.sim_no_rows = (Raise IndexError, Cases.sim_no_rows)
  /\ (SimSpec.wf Cases.sim_no_current_rows
      /\ 1 <= Sim._num_n Cases.sim_no_current_rows
      /\ Field._num_n (Sim._cfield Cases.sim_no_current_rows) = 0)
  /\ Sim.simulate Cases.sim_no_current_rows
     = (Raise IndexError,
        Sim.with_hfield (Field.with_n 0 (Sim._hfield Cases.sim_no_current_rows))
          (Sim.with_efield (Field.with_n 0 (Sim._efield Cases.sim_no_current_rows))
             Cases.sim_no_current_rows))
  /\ (SimSpec.wf Cases.sim_short
      /\ 1 <= Field._num_n (Sim._cfield Cases.sim_short) < Sim._num_n Cases.sim_short)
  /\ exists s',
       Sim.simulate Cases.sim_short = (Raise IndexError, s')
       /\ s' = RunSpec.aborted_step
                 (SimSpec.steps
                    (Z.to_nat (Field._num_n (Sim._cfield Cases.sim_short) - 1))
                    (SimSpec.reset Cases.sim_short))
       /\ Field._n (Sim._efield s') = Field._num_n (Sim._cfield Cases.sim_short)
       /\ Field._n (Sim._hfield s') = Field._num_n (Sim._cfield Cases.sim_short)
       /\ Field._n (Sim._cfield s') = Field._num_n (Sim._cfield Cases.sim_short) - 1.
Proof.
  assert (Hm : 1 <= Field._num_n (Sim._cfield Cases.sim_short)
               < Sim._num_n Cases.sim_short) by (simpl; lia).
  assert (H1 : 1 <= Sim._num_n Cases.sim_no_current_rows) by (simpl; lia).
  split; [split; [exact sim_no_rows_wf|reflexivity]|].
  split; [exact (proj1 (aborted_run_state Cases.sim_no_rows sim_no_rows_wf) eq_refl)|].
  split; [split; [exact sim_no_current_rows_wf|split; [exact H1|reflexivity]]|].
  split; [exact (proj1 (proj2 (aborted_run_state Cases.sim_no_current_rows
                                 sim_no_current_rows_wf)) H1 eq_refl)|].
  split; [split; [exact sim_short_wf|exact Hm]|].
  exact (proj2 (proj2 (aborted_run_state Cases.sim_short sim_short_wf)) Hm).
Defined.

Example sim_short_run :
  (let (r, s') := Sim.simulate Cases.sim_short in
   (r, Field._n (Sim._efield s'), Field._n (Sim._hfield s'),
       Field._n (Sim._cfield s')))
  = (Raise IndexError, 2, 2, 1).
Proof. vm_compute. reflexivity. Qed.

(** ** A run without a current *)

Section Quiet.
Import Sim FieldSpec SimSpec RunSpec.

Lemma all_zero_with_row (f : Field.t) (r : nat) (row : list float) :
  all_zero f -> (forall c x, row !! c = Some x -> is_zero x) ->
  all_zero (with_row r row f).
Proof.
  intros Hz Hrow r' c. unfold np.cell. simpl.
  rewrite list_lookup_insert.
  destruct (decide (r = r' /\ (r < length (np.data (Field._field f)))%nat)) as [_|_].
  - simpl. destruct (row !! c) as [x|] eqn:Hx; simpl.
    + apply (Hrow c x Hx).
    + apply is_zero_0.
  - apply Hz.
Qed.

Lemma all_zero_cur_row (f : Field.t) (c : nat) (x : float) :
  all_zero f -> cur_row f !! c = Some x -> is_zero x.
Proof.
  intros Hz Hx. unfold cur_row in Hx.
  specialize (Hz (Z.to_nat (Field._n f)) c). unfold np.cell in Hz.
  destruct (np.data (Field._field f) !! Z.to_nat (Field._n f)) as [row|]; simpl in *.
  - rewrite Hx in Hz. exact Hz.
  - discriminate Hx.
Qed.

Lemma all_zero_advance (f : Field.t) : all_zero f -> all_zero (advance f).
Proof.
  intros Hz. unfold advance.
  change (all_zero (with_row (Z.to_nat (Field._n f + 1)) (cur_row f) f)).
  apply all_zero_with_row; [exact Hz|].
  intros c x. apply all_zero_cur_row. exact Hz.
Qed.

Lemma all_zero_row_of (f : Field.t) (g : Z -> float) (n : Z) :
  all_zero f -> (forall i, is_zero (g i)) ->
  all_zero (with_cur_row (g <$> seqZ 0 n) f).
Proof.
  intros Hz Hg. apply all_zero_with_row; [exact Hz|].
  intros c x Hx. rewrite list_lookup_fmap in Hx.
  destruct (seqZ 0 n !! c) as [i|]; [|discriminate].
  injection Hx as <-. apply Hg.
Qed.

Lemma quiet_step (s : t) (k : Z) :
  ready s k -> finite_coeffs s -> quiet s -> quiet (step s).
Proof.
  intros Hr Hfin (HzE & HzH & HzJ).
  pose proof Hr as (HE & HH & HC & _).
  pose proof (calc_hfield_ready _ _ Hr) as (HE1 & HH1 & HC1 & _).
  assert (HzH1 : all_zero (_hfield (calc_hfield s))).
  { apply all_zero_row_of; [exact HzH|]. intros i.
    apply h_new_zero; [apply Hfin| | |]; apply all_zero_value; assumption. }
  assert (HzE2 : all_zero (_efield (calc_efield (calc_hfield s)))).
  { apply all_zero_row_of; [exact HzE|]. intros i.
    apply e_new_zero; [exact Hfin| | | |]; apply all_zero_value; assumption. }
  split; [|split].
  - exact (all_zero_advance _ HzE2).
  - exact (all_zero_advance _ HzH1).
  - exact HzJ.
Qed.

Lemma quiet_steps (l : list Z) (s : t) (k : Z) :
  ready s k -> finite_coeffs s -> quiet s ->
  k + Z.of_nat (length l) < _num_n s ->
  k + Z.of_nat (length l) < Field._num_n (_cfield s) ->
  quiet (steps (length l) s).
Proof.
  revert s k. induction l as [|j l IH]; intros s k Hr Hfin Hq Hk Hc;
    cbn [length steps] in *.
  - exact Hq.
  - rewrite Nat2Z.inj_succ in *.
    destruct (simulate_body_spec s k j Hr) as [_ Hr']; [lia|lia|].
    apply (IH (step s) (k + 1) Hr').
    + exact Hfin.
    + exact (quiet_step s k Hr Hfin Hq).
    + change (_num_n (step s)) with (_num_n s). lia.
    + change (Field._num_n (_cfield (step s))) with (Field._num_n (_cfield s)). lia.
Qed.

Lemma steps_snoc (m : nat) (s : t) : steps (S m) s = step (steps m s).
Proof.
  revert s. induction m as [|m IH]; intros s.
  - reflexivity.
  - change (steps (S (S m)) s) with (steps (S m) (step s)).
    rewrite IH. reflexivity.
Qed.

End Quiet.

(** X14: a run without a current leaves no field.  On a simulation with
    finite coefficients whose three buffers hold zeros only (as the two
    field buffers do after construction), with at least one time row and
    a current grid of at least as many rows, [simulate()] returns and
    every cell of the electric and of the magnetic buffer is still
    zero. *)
Theorem no_current_no_field (s : Sim.t) :
  SimSpec.wf s -> 1 <= Sim._num_n s <= Field._num_n (Sim._cfield s) ->
  SimSpec.finite_coeffs s ->
  SimSpec.all_zero (Sim._efield s) -> SimSpec.all_zero (Sim._hfield s) ->
  SimSpec.all_zero (Sim._cfield s) ->
  exists s',
    Sim.simulate s = (Ok tt, s')
    /\ forall r c : nat,
         is_zero (np.cell (Field._field (Sim._efield s')) r c)
         /\ is_zero (np.cell (Field._field (Sim._hfield s')) r c).
Proof.
  intros Hwf Hn Hfin HzE HzH HzJ.
  destruct (simulate_spec s Hwf Hn) as [Hsim _].
  destruct (reset_spec s) as [_ Hr0]; [lia|lia|exact Hwf|].
  exists (SimSpec.run s). split; [exact Hsim|].
  pose proof (quiet_steps (seqZ 0 (Sim._num_n s - 1)) (SimSpec.reset s) 0 Hr0 Hfin)
    as Hq.
  rewrite length_seqZ in Hq. fold (SimSpec.run s) in Hq.
  destruct Hq as (HE & HH & _).
  - split; [exact HzE|split; [exact HzH|exact HzJ]].
  - change (Sim._num_n (SimSpec.reset s)) with (Sim._num_n s). lia.
  - change (Field._num_n (Sim._cfield (SimSpec.reset s)))
      with (Field._num_n (Sim._cfield s)). lia.
  - intros r c. split; [apply HE|apply HH].
Qed.

Lemma sim_quiet_wf : SimSpec.wf Cases.sim_quiet.
Proof.
  assert (Hz : FieldSpec.wf (Field.mk 0 3 3 (np.zeros 3 3)))
    by (split; [apply np_zeros_wf|split; reflexivity]).
  split; [exact Hz|]. split; [exact Hz|]. split; [exact Hz|repeat split].
Qed.

Lemma sim_quiet_finite : SimSpec.finite_coeffs Cases.sim_quiet.
Proof. unfold SimSpec.finite_coeffs, finite. vm_compute. tauto. Qed.

Lemma zeros_3_3_all_zero : SimSpec.all_zero (Field.mk 0 3 3 (np.zeros 3 3)).
Proof. intros r c. simpl. rewrite zeros_cell. apply is_zero_0. Qed.

Lemma no_current_no_field_witness :
  (SimSpec.wf Cases.sim_quiet
   /\ 1 <= Sim._num_n Cases.sim_quiet <= Field._num_n (Sim._cfield Cases.sim_quiet)
   /\ SimSpec.finite_coeffs Cases.sim_quiet
   /\ SimSpec.all_zero (Sim._efield Cases.sim_quiet)
   /\ SimSpec.all_zero (Sim._hfield Cases.sim_quiet)
   /\ SimSpec.all_zero (Sim._cfield Cases.sim_quiet))
  /\ exists s',
       Sim.simulate Cases.sim_quiet = (Ok tt, s')
       /\ forall r c : nat,
            is_zero (np.cell (Field._field (Sim._efield s')) r c)
            /\ is_zero (np.cell (Field._field (Sim._hfield s')) r c).
Proof.
  assert (Hn : 1 <= Sim._num_n Cases.sim_quiet
               <= Field._num_n (Sim._cfield Cases.sim_quiet)) by (simpl; lia).
  split.
  - split; [exact sim_quiet_wf|]. split; [exact Hn|].
    split; [exact sim_quiet_finite|].
    split; [exact zeros_3_3_all_zero|]. split; exact zeros_3_3_all_zero.
  - exact (no_current_no_field Cases.sim_quiet sim_quiet_wf Hn sim_quiet_finite
             zeros_3_3_all_zero zeros_3_3_all_zero zeros_3_3_all_zero).
Defined.

(** X15: the last time row of a run repeats the one before it.  After a
    [simulate()] that returns on a simulation of at least two time rows,
    row [num_n - 1] of the electric buffer equals row [num_n - 2], and
    likewise in the magnetic buffer: the last [iterate()] copies the last
    computed row forward and no update follows it. *)
Theorem last_row_repeats (s : Sim.t) :
  SimSpec.wf s -> 2 <= Sim._num_n s <= Field._num_n (Sim._cfield s) ->
  exists (s' : Sim.t) (rowE rowH : list float),
    Sim.simulate s = (Ok tt, s')
    /\ np.data (Field._field (Sim._efield s')) !! Z.to_nat (Sim._num_n s - 1)
       = Some rowE
    /\ np.data (Field._field (Sim._efield s')) !! Z.to_nat (Sim._num_n s - 2)
       = Some rowE
    /\ np.data (Field._field (Sim._hfield s')) !! Z.to_nat (Sim._num_n s - 1)
       = Some rowH
    /\ np.data (Field._field (Sim._hfield s')) !! Z.to_nat (Sim._num_n s - 2)
       = Some rowH.
Proof.
  intros Hwf Hn.
  destruct (simulate_spec s Hwf) as [Hsim _]; [lia|].
  destruct (reset_spec s) as [_ Hr0]; [lia|lia|exact Hwf|].
  pose proof (simulate_loop (seqZ 0 (Sim._num_n s - 2)) (SimSpec.reset s) 0 Hr0)
    as Hloop.
  rewrite length_seqZ in Hloop.
  destruct Hloop as [_ Hr];
    [change (Sim._num_n (SimSpec.reset s)) with (Sim._num_n s); lia
    |change (Field._num_n (Sim._cfield (SimSpec.reset s)))
       with (Field._num_n (Sim._cfield s)); lia|].
  set (s1 := SimSpec.steps (Z.to_nat (Sim._num_n s - 2)) (SimSpec.reset s)) in *.
  replace (0 + Z.of_nat (Z.to_nat (Sim._num_n s - 2))) with (Sim._num_n s - 2)
    in Hr by lia.
  assert (Hrun : SimSpec.run s = SimSpec.step s1).
  { unfold SimSpec.run, s1.
    replace (Z.to_nat (Sim._num_n s - 1)) with (S (Z.to_nat (Sim._num_n s - 2)))
      by lia.
    apply steps_snoc. }
  pose proof (calc_hfield_ready _ _ Hr) as Hr1.
  pose proof (calc_efield_ready _ _ Hr1) as Hr2.
  destruct Hr2 as (HE & HH & _ & HEn & _ & HHn & _ & HkE & HkH & _).
  set (s2 := SimSpec.calc_efield (SimSpec.calc_hfield s1)) in *.
  assert (Hn1 : Sim._num_n s2 = Sim._num_n s)
    by (change (Sim._num_n s2) with (Sim._num_n s1); unfold s1;
        rewrite (proj2 (steps_dims _ _)); reflexivity).
  assert (HE2 : Field._n (Sim._efield s2) + 1 < Field._num_n (Sim._efield s2)) by lia.
  assert (HH2 : Field._n (Sim._hfield s2) + 1 < Field._num_n (Sim._hfield s2)) by lia.
  destruct (advance_rows _ HE HE2) as [HEnew HEold].
  destruct (advance_rows _ HH HH2) as [HHnew HHold].
  destruct (live_lookup _ HE) as [HErow _].
  destruct (live_lookup _ HH) as [HHrow _].
  exists (SimSpec.run s), (FieldSpec.cur_row (Sim._efield s2)),
    (FieldSpec.cur_row (Sim._hfield s2)).
  split; [exact Hsim|]. rewrite Hrun.
  change (Sim._efield (SimSpec.step s1)) with (FieldSpec.advance (Sim._efield s2)).
  change (Sim._hfield (SimSpec.step s1)) with (FieldSpec.advance (Sim._hfield s2)).
  rewrite HkE in HEnew, HEold, HErow. rewrite HkH in HHnew, HHold, HHrow.
  replace (Sim._num_n s - 2 + 1) with (Sim._num_n s - 1) in * by lia.
  split; [exact HEnew|]. split; [rewrite HEold by lia; exact HErow|].
  split; [exact HHnew|]. rewrite HHold by lia. exact HHrow.
Qed.

Lemma last_row_repeats_witness :
  (SimSpec.wf Examples.sim_3_3
   /\ 2 <= Sim._num_n Examples.sim_3_3 <= Field._num_n (Sim._cfield Examples.sim_3_3))
  /\ exists (s' : Sim.t) (rowE rowH : list float),
       Sim.simulate Examples.sim_3_3 = (Ok tt, s')
       /\ np.data (Field._field (Sim._efield s'))
            !! Z.to_nat (Sim._num_n Examples.sim_3_3 - 1) = Some rowE
       /\ np.data (Field._field (Sim._efield s'))
            !! Z.to_nat (Sim._num_n Examples.sim_3_3 - 2) = Some rowE
       /\ np.data (Field._field (Sim._hfield s'))
            !! Z.to_nat (Sim._num_n Examples.sim_3_3 - 1) = Some rowH
       /\ np.data (Field._field (Sim._hfield s'))
            !! Z.to_nat (Sim._num_n Examples.sim_3_3 - 2) = Some rowH.
Proof.
  assert (Hn : 2 <= Sim._num_n Examples.sim_3_3
               <= Field._num_n (Sim._cfield Examples.sim_3_3)) by (simpl; lia).
  split; [split; [exact sim_3_3_wf|exact Hn]|].
  exact (last_row_repeats Examples.sim_3_3 sim_3_3_wf Hn).
Defined.

(** * The script *)

Lemma init_zero_divisor
    (e0 m0 dt dz : float) (nn ni : Z) (J : Field.t) (su : float) :
  np.shape_ok nn ni = true ->
  Sim.__init__ e0 0 m0 dt dz nn ni J su 0 = Raise ZeroDivisionError.
Proof.
  intros Hs. unfold Sim.__init__, rbind. rewrite init_zeros by exact Hs.
  unfold py_div. change (0 + 0 =? 0)%float with true. reflexivity.
Qed.

(** X16: the script of [example.py] does not get past the construction of
    the simulation: it passes 0 for the permittivity at infinity and for
    the initial susceptibility, so the first coefficient divides by
    [0 + 0] and [Sim(...)] raises [ZeroDivisionError], whatever the two
    vacuum constants evaluate to; [simulate()] is never called and
    nothing is exported. *)
Theorem example_stops_at_construction (vacuum_permittivity vacuum_permability : float) :
  example.main vacuum_permittivity vacuum_permability = Raise ZeroDivisionError.
Proof.
  unfold example.main. cbv zeta.
  rewrite init_zeros by reflexivity. unfold rbind at 1.
  unfold exec at 1, Field.__setitem__.
  rewrite set_index_live by (try apply zeros_live; simpl; lia).
  unfold rbind at 1.
  rewrite init_zero_divisor by reflexivity. reflexivity.
Qed.
